(** * Bow shooter: the per-frame simulation of [GameCanvas]

    A shallow embedding of the game engine of the repository
    ([GameCanvas.tsx], [enemies.ts]) and of the leaderboard of its start
    page ([Index.tsx]), with the properties its specification states about
    them and further properties read off the code.

    Numbers.  JavaScript numbers are IEEE-754 doubles.  Counters that the
    source only ever increments, decrements or compares ([arrows],
    [reloadTimer], [waveTimer], [combo], an enemy's [hp], [score], ...) stay
    integers well below 2^53 and are embedded as [Z].  Real-valued quantities
    (positions, velocities, the player's [hp], [reloadProgress], ...) are
    embedded as exact rationals [Q]; the double the source holds is the
    rounding of that rational.  [Q]'s division is total ([x / 0 = 0]); what a
    zero divisor does in IEEE arithmetic is studied separately in module
    [Float64], on Rocq's primitive binary64 floats.

    Environment.  [Math.sqrt], [Math.cos], [Math.sin], [Math.atan2],
    [Math.PI] and the stream of values returned by [Math.random()] are
    fields of a [MathObj] the engine is parameterised by; the state carries
    the index of the next random draw.

    Observers.  [emitState] and [play] notify React and the audio layer and do
    not touch the engine state; they are left out.  Calls of [onGameOver] are
    recorded, in order, in [s_gameOverCalls].  The drawing half of [loop]
    only reads the state and is left out as well. *)

From Stdlib Require Import QArith Qround Qminmax Qabs ZArith Lia Lqa Bool String.
From Stdlib Require Import Floats.
From stdpp Require Import base list gmap sorting.

Open Scope Z_scope.
Open Scope Q_scope.

(** ** JavaScript operators on the embedded numbers *)

Definition Qltb (a b : Q) : bool := negb (Qle_bool b a).
Definition Qleb (a b : Q) : bool := Qle_bool a b.
Definition Qgtb (a b : Q) : bool := Qltb b a.
Definition Qgeb (a b : Q) : bool := Qle_bool b a.

(** [Math.floor] is [Qfloor]; [Math.round] rounds halves up. *)
Definition Math_round (q : Q) : Z := Qfloor (q + 0.5).

(** The [Math] object, with [Math.random()] as the sequence of its results. *)
Record MathObj : Type := mkMath {
  sqrt : Q -> Q;
  cos : Q -> Q;
  sin : Q -> Q;
  atan2 : Q -> Q -> Q;
  PI : Q;
  random : nat -> Q
}.

(** ** Entity model ([enemies.ts]) *)

Inductive Pattern : Type :=
  | straight | zigzag | spiral | teleport | chase | bounce | split.

Definition Pattern_eqb (a b : Pattern) : bool :=
  match a, b with
  | straight, straight | zigzag, zigzag | spiral, spiral | teleport, teleport
  | chase, chase | bounce, bounce | split, split => true
  | _, _ => false
  end.

(** [Omit<EnemyType, 'hp'>].  The fields [name], [glowColor], [shape],
    [special] and [description] are read by the renderer and the menu only. *)
Record EnemyType : Type := mkEnemyType {
  t_id : string;
  t_color : string;
  t_maxHp : Z;
  t_speed : Q;
  t_damage : Q;
  t_radius : Q;
  t_points : Z;
  t_pattern : Pattern
}.

Record Enemy : Type := mkEnemy {
  e_id : string;
  e_color : string;
  e_hp : Z;
  e_maxHp : Z;
  e_speed : Q;
  e_damage : Q;
  e_radius : Q;
  e_points : Z;
  e_pattern : Pattern;
  e_x : Q;
  e_y : Q;
  e_vx : Q;
  e_vy : Q;
  e_angle : Q;
  e_zigzagTimer : Z;
  e_teleportTimer : Q;
  e_splitDone : bool;
  e_pulseRadius : Q;
  e_pulseGrowing : bool;
  e_flashTimer : Z
}.

(** An [Enemy] read as the [EnemyType] it extends ([createEnemy(e, W, H)]). *)
Definition typeOf (e : Enemy) : EnemyType :=
  {| t_id := e_id e; t_color := e_color e; t_maxHp := e_maxHp e;
     t_speed := e_speed e; t_damage := e_damage e; t_radius := e_radius e;
     t_points := e_points e; t_pattern := e_pattern e |}.

Record Projectile : Type := mkProjectile {
  p_x : Q;
  p_y : Q;
  p_vx : Q;
  p_vy : Q;
  p_radius : Q;
  p_trail : list (Q * Q);
  p_piercing : bool
}.

Record Particle : Type := mkParticle {
  pt_x : Q;
  pt_y : Q;
  pt_vx : Q;
  pt_vy : Q;
  pt_life : Q;
  pt_maxLife : Q;
  pt_color : string;
  pt_radius : Q
}.

Inductive PowerType : Type := multi | pierce | rapid | bomb.

Definition PowerType_eqb (a b : PowerType) : bool :=
  match a, b with
  | multi, multi | pierce, pierce | rapid, rapid | bomb, bomb => true
  | _, _ => false
  end.

Definition isPowerup (k : PowerType) (o : option PowerType) : bool :=
  match o with Some k' => PowerType_eqb k k' | None => false end.

(** The text of a floating label: [`+${n}`], [`×${n} COMBO!`] or
    [POWERUP_LABELS[t] + ' POWER!']. *)
Inductive FloatLabel : Type :=
  | ScoreLabel (n : Z)
  | ComboLabel (n : Z)
  | PowerLabel (t : PowerType).

Record FloatingText : Type := mkFloat {
  f_x : Q;
  f_y : Q;
  f_text : FloatLabel;
  f_color : string;
  f_life : Z;
  f_maxLife : Z;
  f_vy : Q;
  f_scale : Q
}.

Record PowerUp : Type := mkPowerUp {
  pu_x : Q;
  pu_y : Q;
  pu_type : PowerType;
  pu_radius : Q;
  pu_angle : Q;
  pu_life : Z;
  pu_pulsePhase : Q
}.

(** ** Difficulty profile *)

Inductive Difficulty : Type := easy | normal | hard.

Record DiffCfg : Type := mkDiff {
  spawnRate : Z;
  enemySpeedMult : Q;
  playerDamageMult : Q;
  maxArrows : Z;
  reloadTime : Z
}.

Definition DIFFICULTY (d : Difficulty) : DiffCfg :=
  match d with
  | easy   => mkDiff 180 0.7 0.6 12 150
  | normal => mkDiff 110 1.0 1.0 8 180
  | hard   => mkDiff 65 1.4 1.4 5 220
  end.

(** ** The engine state [s]

    [s_rng] (index of the next [Math.random()] result) and [s_gameOverCalls]
    (arguments of the [onGameOver] calls made so far, oldest first) are the
    two fields the source object does not have. *)
Record GS : Type := mkGS {
  s_hp : Q;
  s_score : Z;
  s_wave : Z;
  s_arrows : Z;
  s_maxArrows : Z;
  s_reloading : bool;
  s_reloadProgress : Q;
  s_reloadTimer : Z;
  s_spawnTimer : Z;
  s_waveTimer : Z;
  s_enemies : list Enemy;
  s_projectiles : list Projectile;
  s_particles : list Particle;
  s_floats : list FloatingText;
  s_powerups : list PowerUp;
  s_alive : bool;
  s_bowPulse : Z;
  s_shootCooldown : Z;
  s_combo : Z;
  s_comboTimer : Z;
  s_killStreak : Z;
  s_shakeX : Q;
  s_shakeY : Q;
  s_shakePower : Q;
  s_activePowerup : option PowerType;
  s_powerupTimer : Z;
  s_rapidFire : bool;
  s_waveAnnounce : Z;
  s_totalKills : Z;
  s_nextPowerupKill : Z;
  s_rng : nat;
  s_gameOverCalls : list Z
}.

(** *** Field updates *)

Definition eset_hp (v : Z) (e : Enemy) : Enemy :=
  {| e_id := e_id e; e_color := e_color e; e_hp := v; e_maxHp := e_maxHp e;
     e_speed := e_speed e; e_damage := e_damage e; e_radius := e_radius e;
     e_points := e_points e; e_pattern := e_pattern e; e_x := e_x e; e_y :=
     e_y e; e_vx := e_vx e; e_vy := e_vy e; e_angle := e_angle e;
     e_zigzagTimer := e_zigzagTimer e; e_teleportTimer := e_teleportTimer e;
     e_splitDone := e_splitDone e; e_pulseRadius := e_pulseRadius e;
     e_pulseGrowing := e_pulseGrowing e; e_flashTimer := e_flashTimer e |}.
Definition eset_speed (v : Q) (e : Enemy) : Enemy :=
  {| e_id := e_id e; e_color := e_color e; e_hp := e_hp e; e_maxHp := e_maxHp
     e; e_speed := v; e_damage := e_damage e; e_radius := e_radius e; e_points
     := e_points e; e_pattern := e_pattern e; e_x := e_x e; e_y := e_y e; e_vx
     := e_vx e; e_vy := e_vy e; e_angle := e_angle e; e_zigzagTimer :=
     e_zigzagTimer e; e_teleportTimer := e_teleportTimer e; e_splitDone :=
     e_splitDone e; e_pulseRadius := e_pulseRadius e; e_pulseGrowing :=
     e_pulseGrowing e; e_flashTimer := e_flashTimer e |}.
Definition eset_x (v : Q) (e : Enemy) : Enemy :=
  {| e_id := e_id e; e_color := e_color e; e_hp := e_hp e; e_maxHp := e_maxHp
     e; e_speed := e_speed e; e_damage := e_damage e; e_radius := e_radius e;
     e_points := e_points e; e_pattern := e_pattern e; e_x := v; e_y := e_y e;
     e_vx := e_vx e; e_vy := e_vy e; e_angle := e_angle e; e_zigzagTimer :=
     e_zigzagTimer e; e_teleportTimer := e_teleportTimer e; e_splitDone :=
     e_splitDone e; e_pulseRadius := e_pulseRadius e; e_pulseGrowing :=
     e_pulseGrowing e; e_flashTimer := e_flashTimer e |}.
Definition eset_y (v : Q) (e : Enemy) : Enemy :=
  {| e_id := e_id e; e_color := e_color e; e_hp := e_hp e; e_maxHp := e_maxHp
     e; e_speed := e_speed e; e_damage := e_damage e; e_radius := e_radius e;
     e_points := e_points e; e_pattern := e_pattern e; e_x := e_x e; e_y := v;
     e_vx := e_vx e; e_vy := e_vy e; e_angle := e_angle e; e_zigzagTimer :=
     e_zigzagTimer e; e_teleportTimer := e_teleportTimer e; e_splitDone :=
     e_splitDone e; e_pulseRadius := e_pulseRadius e; e_pulseGrowing :=
     e_pulseGrowing e; e_flashTimer := e_flashTimer e |}.
Definition eset_vx (v : Q) (e : Enemy) : Enemy :=
  {| e_id := e_id e; e_color := e_color e; e_hp := e_hp e; e_maxHp := e_maxHp
     e; e_speed := e_speed e; e_damage := e_damage e; e_radius := e_radius e;
     e_points := e_points e; e_pattern := e_pattern e; e_x := e_x e; e_y :=
     e_y e; e_vx := v; e_vy := e_vy e; e_angle := e_angle e; e_zigzagTimer :=
     e_zigzagTimer e; e_teleportTimer := e_teleportTimer e; e_splitDone :=
     e_splitDone e; e_pulseRadius := e_pulseRadius e; e_pulseGrowing :=
     e_pulseGrowing e; e_flashTimer := e_flashTimer e |}.
Definition eset_vy (v : Q) (e : Enemy) : Enemy :=
  {| e_id := e_id e; e_color := e_color e; e_hp := e_hp e; e_maxHp := e_maxHp
     e; e_speed := e_speed e; e_damage := e_damage e; e_radius := e_radius e;
     e_points := e_points e; e_pattern := e_pattern e; e_x := e_x e; e_y :=
     e_y e; e_vx := e_vx e; e_vy := v; e_angle := e_angle e; e_zigzagTimer :=
     e_zigzagTimer e; e_teleportTimer := e_teleportTimer e; e_splitDone :=
     e_splitDone e; e_pulseRadius := e_pulseRadius e; e_pulseGrowing :=
     e_pulseGrowing e; e_flashTimer := e_flashTimer e |}.
Definition eset_angle (v : Q) (e : Enemy) : Enemy :=
  {| e_id := e_id e; e_color := e_color e; e_hp := e_hp e; e_maxHp := e_maxHp
     e; e_speed := e_speed e; e_damage := e_damage e; e_radius := e_radius e;
     e_points := e_points e; e_pattern := e_pattern e; e_x := e_x e; e_y :=
     e_y e; e_vx := e_vx e; e_vy := e_vy e; e_angle := v; e_zigzagTimer :=
     e_zigzagTimer e; e_teleportTimer := e_teleportTimer e; e_splitDone :=
     e_splitDone e; e_pulseRadius := e_pulseRadius e; e_pulseGrowing :=
     e_pulseGrowing e; e_flashTimer := e_flashTimer e |}.
Definition eset_zigzagTimer (v : Z) (e : Enemy) : Enemy :=
  {| e_id := e_id e; e_color := e_color e; e_hp := e_hp e; e_maxHp := e_maxHp
     e; e_speed := e_speed e; e_damage := e_damage e; e_radius := e_radius e;
     e_points := e_points e; e_pattern := e_pattern e; e_x := e_x e; e_y :=
     e_y e; e_vx := e_vx e; e_vy := e_vy e; e_angle := e_angle e;
     e_zigzagTimer := v; e_teleportTimer := e_teleportTimer e; e_splitDone :=
     e_splitDone e; e_pulseRadius := e_pulseRadius e; e_pulseGrowing :=
     e_pulseGrowing e; e_flashTimer := e_flashTimer e |}.
Definition eset_teleportTimer (v : Q) (e : Enemy) : Enemy :=
  {| e_id := e_id e; e_color := e_color e; e_hp := e_hp e; e_maxHp := e_maxHp
     e; e_speed := e_speed e; e_damage := e_damage e; e_radius := e_radius e;
     e_points := e_points e; e_pattern := e_pattern e; e_x := e_x e; e_y :=
     e_y e; e_vx := e_vx e; e_vy := e_vy e; e_angle := e_angle e;
     e_zigzagTimer := e_zigzagTimer e; e_teleportTimer := v; e_splitDone :=
     e_splitDone e; e_pulseRadius := e_pulseRadius e; e_pulseGrowing :=
     e_pulseGrowing e; e_flashTimer := e_flashTimer e |}.
Definition eset_splitDone (v : bool) (e : Enemy) : Enemy :=
  {| e_id := e_id e; e_color := e_color e; e_hp := e_hp e; e_maxHp := e_maxHp
     e; e_speed := e_speed e; e_damage := e_damage e; e_radius := e_radius e;
     e_points := e_points e; e_pattern := e_pattern e; e_x := e_x e; e_y :=
     e_y e; e_vx := e_vx e; e_vy := e_vy e; e_angle := e_angle e;
     e_zigzagTimer := e_zigzagTimer e; e_teleportTimer := e_teleportTimer e;
     e_splitDone := v; e_pulseRadius := e_pulseRadius e; e_pulseGrowing :=
     e_pulseGrowing e; e_flashTimer := e_flashTimer e |}.
Definition eset_pulseRadius (v : Q) (e : Enemy) : Enemy :=
  {| e_id := e_id e; e_color := e_color e; e_hp := e_hp e; e_maxHp := e_maxHp
     e; e_speed := e_speed e; e_damage := e_damage e; e_radius := e_radius e;
     e_points := e_points e; e_pattern := e_pattern e; e_x := e_x e; e_y :=
     e_y e; e_vx := e_vx e; e_vy := e_vy e; e_angle := e_angle e;
     e_zigzagTimer := e_zigzagTimer e; e_teleportTimer := e_teleportTimer e;
     e_splitDone := e_splitDone e; e_pulseRadius := v; e_pulseGrowing :=
     e_pulseGrowing e; e_flashTimer := e_flashTimer e |}.
Definition eset_pulseGrowing (v : bool) (e : Enemy) : Enemy :=
  {| e_id := e_id e; e_color := e_color e; e_hp := e_hp e; e_maxHp := e_maxHp
     e; e_speed := e_speed e; e_damage := e_damage e; e_radius := e_radius e;
     e_points := e_points e; e_pattern := e_pattern e; e_x := e_x e; e_y :=
     e_y e; e_vx := e_vx e; e_vy := e_vy e; e_angle := e_angle e;
     e_zigzagTimer := e_zigzagTimer e; e_teleportTimer := e_teleportTimer e;
     e_splitDone := e_splitDone e; e_pulseRadius := e_pulseRadius e;
     e_pulseGrowing := v; e_flashTimer := e_flashTimer e |}.
Definition eset_flashTimer (v : Z) (e : Enemy) : Enemy :=
  {| e_id := e_id e; e_color := e_color e; e_hp := e_hp e; e_maxHp := e_maxHp
     e; e_speed := e_speed e; e_damage := e_damage e; e_radius := e_radius e;
     e_points := e_points e; e_pattern := e_pattern e; e_x := e_x e; e_y :=
     e_y e; e_vx := e_vx e; e_vy := e_vy e; e_angle := e_angle e;
     e_zigzagTimer := e_zigzagTimer e; e_teleportTimer := e_teleportTimer e;
     e_splitDone := e_splitDone e; e_pulseRadius := e_pulseRadius e;
     e_pulseGrowing := e_pulseGrowing e; e_flashTimer := v |}.

Definition set_hp (v : Q) (s : GS) : GS :=
  {| s_hp := v; s_score := s_score s; s_wave := s_wave s; s_arrows := s_arrows
     s; s_maxArrows := s_maxArrows s; s_reloading := s_reloading s;
     s_reloadProgress := s_reloadProgress s; s_reloadTimer := s_reloadTimer s;
     s_spawnTimer := s_spawnTimer s; s_waveTimer := s_waveTimer s; s_enemies
     := s_enemies s; s_projectiles := s_projectiles s; s_particles :=
     s_particles s; s_floats := s_floats s; s_powerups := s_powerups s;
     s_alive := s_alive s; s_bowPulse := s_bowPulse s; s_shootCooldown :=
     s_shootCooldown s; s_combo := s_combo s; s_comboTimer := s_comboTimer s;
     s_killStreak := s_killStreak s; s_shakeX := s_shakeX s; s_shakeY :=
     s_shakeY s; s_shakePower := s_shakePower s; s_activePowerup :=
     s_activePowerup s; s_powerupTimer := s_powerupTimer s; s_rapidFire :=
     s_rapidFire s; s_waveAnnounce := s_waveAnnounce s; s_totalKills :=
     s_totalKills s; s_nextPowerupKill := s_nextPowerupKill s; s_rng := s_rng
     s; s_gameOverCalls := s_gameOverCalls s |}.
Definition set_score (v : Z) (s : GS) : GS :=
  {| s_hp := s_hp s; s_score := v; s_wave := s_wave s; s_arrows := s_arrows s;
     s_maxArrows := s_maxArrows s; s_reloading := s_reloading s;
     s_reloadProgress := s_reloadProgress s; s_reloadTimer := s_reloadTimer s;
     s_spawnTimer := s_spawnTimer s; s_waveTimer := s_waveTimer s; s_enemies
     := s_enemies s; s_projectiles := s_projectiles s; s_particles :=
     s_particles s; s_floats := s_floats s; s_powerups := s_powerups s;
     s_alive := s_alive s; s_bowPulse := s_bowPulse s; s_shootCooldown :=
     s_shootCooldown s; s_combo := s_combo s; s_comboTimer := s_comboTimer s;
     s_killStreak := s_killStreak s; s_shakeX := s_shakeX s; s_shakeY :=
     s_shakeY s; s_shakePower := s_shakePower s; s_activePowerup :=
     s_activePowerup s; s_powerupTimer := s_powerupTimer s; s_rapidFire :=
     s_rapidFire s; s_waveAnnounce := s_waveAnnounce s; s_totalKills :=
     s_totalKills s; s_nextPowerupKill := s_nextPowerupKill s; s_rng := s_rng
     s; s_gameOverCalls := s_gameOverCalls s |}.
Definition set_wave (v : Z) (s : GS) : GS :=
  {| s_hp := s_hp s; s_score := s_score s; s_wave := v; s_arrows := s_arrows
     s; s_maxArrows := s_maxArrows s; s_reloading := s_reloading s;
     s_reloadProgress := s_reloadProgress s; s_reloadTimer := s_reloadTimer s;
     s_spawnTimer := s_spawnTimer s; s_waveTimer := s_waveTimer s; s_enemies
     := s_enemies s; s_projectiles := s_projectiles s; s_particles :=
     s_particles s; s_floats := s_floats s; s_powerups := s_powerups s;
     s_alive := s_alive s; s_bowPulse := s_bowPulse s; s_shootCooldown :=
     s_shootCooldown s; s_combo := s_combo s; s_comboTimer := s_comboTimer s;
     s_killStreak := s_killStreak s; s_shakeX := s_shakeX s; s_shakeY :=
     s_shakeY s; s_shakePower := s_shakePower s; s_activePowerup :=
     s_activePowerup s; s_powerupTimer := s_powerupTimer s; s_rapidFire :=
     s_rapidFire s; s_waveAnnounce := s_waveAnnounce s; s_totalKills :=
     s_totalKills s; s_nextPowerupKill := s_nextPowerupKill s; s_rng := s_rng
     s; s_gameOverCalls := s_gameOverCalls s |}.
Definition set_arrows (v : Z) (s : GS) : GS :=
  {| s_hp := s_hp s; s_score := s_score s; s_wave := s_wave s; s_arrows := v;
     s_maxArrows := s_maxArrows s; s_reloading := s_reloading s;
     s_reloadProgress := s_reloadProgress s; s_reloadTimer := s_reloadTimer s;
     s_spawnTimer := s_spawnTimer s; s_waveTimer := s_waveTimer s; s_enemies
     := s_enemies s; s_projectiles := s_projectiles s; s_particles :=
     s_particles s; s_floats := s_floats s; s_powerups := s_powerups s;
     s_alive := s_alive s; s_bowPulse := s_bowPulse s; s_shootCooldown :=
     s_shootCooldown s; s_combo := s_combo s; s_comboTimer := s_comboTimer s;
     s_killStreak := s_killStreak s; s_shakeX := s_shakeX s; s_shakeY :=
     s_shakeY s; s_shakePower := s_shakePower s; s_activePowerup :=
     s_activePowerup s; s_powerupTimer := s_powerupTimer s; s_rapidFire :=
     s_rapidFire s; s_waveAnnounce := s_waveAnnounce s; s_totalKills :=
     s_totalKills s; s_nextPowerupKill := s_nextPowerupKill s; s_rng := s_rng
     s; s_gameOverCalls := s_gameOverCalls s |}.
Definition set_reloading (v : bool) (s : GS) : GS :=
  {| s_hp := s_hp s; s_score := s_score s; s_wave := s_wave s; s_arrows :=
     s_arrows s; s_maxArrows := s_maxArrows s; s_reloading := v;
     s_reloadProgress := s_reloadProgress s; s_reloadTimer := s_reloadTimer s;
     s_spawnTimer := s_spawnTimer s; s_waveTimer := s_waveTimer s; s_enemies
     := s_enemies s; s_projectiles := s_projectiles s; s_particles :=
     s_particles s; s_floats := s_floats s; s_powerups := s_powerups s;
     s_alive := s_alive s; s_bowPulse := s_bowPulse s; s_shootCooldown :=
     s_shootCooldown s; s_combo := s_combo s; s_comboTimer := s_comboTimer s;
     s_killStreak := s_killStreak s; s_shakeX := s_shakeX s; s_shakeY :=
     s_shakeY s; s_shakePower := s_shakePower s; s_activePowerup :=
     s_activePowerup s; s_powerupTimer := s_powerupTimer s; s_rapidFire :=
     s_rapidFire s; s_waveAnnounce := s_waveAnnounce s; s_totalKills :=
     s_totalKills s; s_nextPowerupKill := s_nextPowerupKill s; s_rng := s_rng
     s; s_gameOverCalls := s_gameOverCalls s |}.
Definition set_reloadProgress (v : Q) (s : GS) : GS :=
  {| s_hp := s_hp s; s_score := s_score s; s_wave := s_wave s; s_arrows :=
     s_arrows s; s_maxArrows := s_maxArrows s; s_reloading := s_reloading s;
     s_reloadProgress := v; s_reloadTimer := s_reloadTimer s; s_spawnTimer :=
     s_spawnTimer s; s_waveTimer := s_waveTimer s; s_enemies := s_enemies s;
     s_projectiles := s_projectiles s; s_particles := s_particles s; s_floats
     := s_floats s; s_powerups := s_powerups s; s_alive := s_alive s;
     s_bowPulse := s_bowPulse s; s_shootCooldown := s_shootCooldown s; s_combo
     := s_combo s; s_comboTimer := s_comboTimer s; s_killStreak :=
     s_killStreak s; s_shakeX := s_shakeX s; s_shakeY := s_shakeY s;
     s_shakePower := s_shakePower s; s_activePowerup := s_activePowerup s;
     s_powerupTimer := s_powerupTimer s; s_rapidFire := s_rapidFire s;
     s_waveAnnounce := s_waveAnnounce s; s_totalKills := s_totalKills s;
     s_nextPowerupKill := s_nextPowerupKill s; s_rng := s_rng s;
     s_gameOverCalls := s_gameOverCalls s |}.
Definition set_reloadTimer (v : Z) (s : GS) : GS :=
  {| s_hp := s_hp s; s_score := s_score s; s_wave := s_wave s; s_arrows :=
     s_arrows s; s_maxArrows := s_maxArrows s; s_reloading := s_reloading s;
     s_reloadProgress := s_reloadProgress s; s_reloadTimer := v; s_spawnTimer
     := s_spawnTimer s; s_waveTimer := s_waveTimer s; s_enemies := s_enemies
     s; s_projectiles := s_projectiles s; s_particles := s_particles s;
     s_floats := s_floats s; s_powerups := s_powerups s; s_alive := s_alive s;
     s_bowPulse := s_bowPulse s; s_shootCooldown := s_shootCooldown s; s_combo
     := s_combo s; s_comboTimer := s_comboTimer s; s_killStreak :=
     s_killStreak s; s_shakeX := s_shakeX s; s_shakeY := s_shakeY s;
     s_shakePower := s_shakePower s; s_activePowerup := s_activePowerup s;
     s_powerupTimer := s_powerupTimer s; s_rapidFire := s_rapidFire s;
     s_waveAnnounce := s_waveAnnounce s; s_totalKills := s_totalKills s;
     s_nextPowerupKill := s_nextPowerupKill s; s_rng := s_rng s;
     s_gameOverCalls := s_gameOverCalls s |}.
Definition set_spawnTimer (v : Z) (s : GS) : GS :=
  {| s_hp := s_hp s; s_score := s_score s; s_wave := s_wave s; s_arrows :=
     s_arrows s; s_maxArrows := s_maxArrows s; s_reloading := s_reloading s;
     s_reloadProgress := s_reloadProgress s; s_reloadTimer := s_reloadTimer s;
     s_spawnTimer := v; s_waveTimer := s_waveTimer s; s_enemies := s_enemies
     s; s_projectiles := s_projectiles s; s_particles := s_particles s;
     s_floats := s_floats s; s_powerups := s_powerups s; s_alive := s_alive s;
     s_bowPulse := s_bowPulse s; s_shootCooldown := s_shootCooldown s; s_combo
     := s_combo s; s_comboTimer := s_comboTimer s; s_killStreak :=
     s_killStreak s; s_shakeX := s_shakeX s; s_shakeY := s_shakeY s;
     s_shakePower := s_shakePower s; s_activePowerup := s_activePowerup s;
     s_powerupTimer := s_powerupTimer s; s_rapidFire := s_rapidFire s;
     s_waveAnnounce := s_waveAnnounce s; s_totalKills := s_totalKills s;
     s_nextPowerupKill := s_nextPowerupKill s; s_rng := s_rng s;
     s_gameOverCalls := s_gameOverCalls s |}.
Definition set_waveTimer (v : Z) (s : GS) : GS :=
  {| s_hp := s_hp s; s_score := s_score s; s_wave := s_wave s; s_arrows :=
     s_arrows s; s_maxArrows := s_maxArrows s; s_reloading := s_reloading s;
     s_reloadProgress := s_reloadProgress s; s_reloadTimer := s_reloadTimer s;
     s_spawnTimer := s_spawnTimer s; s_waveTimer := v; s_enemies := s_enemies
     s; s_projectiles := s_projectiles s; s_particles := s_particles s;
     s_floats := s_floats s; s_powerups := s_powerups s; s_alive := s_alive s;
     s_bowPulse := s_bowPulse s; s_shootCooldown := s_shootCooldown s; s_combo
     := s_combo s; s_comboTimer := s_comboTimer s; s_killStreak :=
     s_killStreak s; s_shakeX := s_shakeX s; s_shakeY := s_shakeY s;
     s_shakePower := s_shakePower s; s_activePowerup := s_activePowerup s;
     s_powerupTimer := s_powerupTimer s; s_rapidFire := s_rapidFire s;
     s_waveAnnounce := s_waveAnnounce s; s_totalKills := s_totalKills s;
     s_nextPowerupKill := s_nextPowerupKill s; s_rng := s_rng s;
     s_gameOverCalls := s_gameOverCalls s |}.
Definition set_enemies (v : list Enemy) (s : GS) : GS :=
  {| s_hp := s_hp s; s_score := s_score s; s_wave := s_wave s; s_arrows :=
     s_arrows s; s_maxArrows := s_maxArrows s; s_reloading := s_reloading s;
     s_reloadProgress := s_reloadProgress s; s_reloadTimer := s_reloadTimer s;
     s_spawnTimer := s_spawnTimer s; s_waveTimer := s_waveTimer s; s_enemies
     := v; s_projectiles := s_projectiles s; s_particles := s_particles s;
     s_floats := s_floats s; s_powerups := s_powerups s; s_alive := s_alive s;
     s_bowPulse := s_bowPulse s; s_shootCooldown := s_shootCooldown s; s_combo
     := s_combo s; s_comboTimer := s_comboTimer s; s_killStreak :=
     s_killStreak s; s_shakeX := s_shakeX s; s_shakeY := s_shakeY s;
     s_shakePower := s_shakePower s; s_activePowerup := s_activePowerup s;
     s_powerupTimer := s_powerupTimer s; s_rapidFire := s_rapidFire s;
     s_waveAnnounce := s_waveAnnounce s; s_totalKills := s_totalKills s;
     s_nextPowerupKill := s_nextPowerupKill s; s_rng := s_rng s;
     s_gameOverCalls := s_gameOverCalls s |}.
Definition set_projectiles (v : list Projectile) (s : GS) : GS :=
  {| s_hp := s_hp s; s_score := s_score s; s_wave := s_wave s; s_arrows :=
     s_arrows s; s_maxArrows := s_maxArrows s; s_reloading := s_reloading s;
     s_reloadProgress := s_reloadProgress s; s_reloadTimer := s_reloadTimer s;
     s_spawnTimer := s_spawnTimer s; s_waveTimer := s_waveTimer s; s_enemies
     := s_enemies s; s_projectiles := v; s_particles := s_particles s;
     s_floats := s_floats s; s_powerups := s_powerups s; s_alive := s_alive s;
     s_bowPulse := s_bowPulse s; s_shootCooldown := s_shootCooldown s; s_combo
     := s_combo s; s_comboTimer := s_comboTimer s; s_killStreak :=
     s_killStreak s; s_shakeX := s_shakeX s; s_shakeY := s_shakeY s;
     s_shakePower := s_shakePower s; s_activePowerup := s_activePowerup s;
     s_powerupTimer := s_powerupTimer s; s_rapidFire := s_rapidFire s;
     s_waveAnnounce := s_waveAnnounce s; s_totalKills := s_totalKills s;
     s_nextPowerupKill := s_nextPowerupKill s; s_rng := s_rng s;
     s_gameOverCalls := s_gameOverCalls s |}.
Definition set_particles (v : list Particle) (s : GS) : GS :=
  {| s_hp := s_hp s; s_score := s_score s; s_wave := s_wave s; s_arrows :=
     s_arrows s; s_maxArrows := s_maxArrows s; s_reloading := s_reloading s;
     s_reloadProgress := s_reloadProgress s; s_reloadTimer := s_reloadTimer s;
     s_spawnTimer := s_spawnTimer s; s_waveTimer := s_waveTimer s; s_enemies
     := s_enemies s; s_projectiles := s_projectiles s; s_particles := v;
     s_floats := s_floats s; s_powerups := s_powerups s; s_alive := s_alive s;
     s_bowPulse := s_bowPulse s; s_shootCooldown := s_shootCooldown s; s_combo
     := s_combo s; s_comboTimer := s_comboTimer s; s_killStreak :=
     s_killStreak s; s_shakeX := s_shakeX s; s_shakeY := s_shakeY s;
     s_shakePower := s_shakePower s; s_activePowerup := s_activePowerup s;
     s_powerupTimer := s_powerupTimer s; s_rapidFire := s_rapidFire s;
     s_waveAnnounce := s_waveAnnounce s; s_totalKills := s_totalKills s;
     s_nextPowerupKill := s_nextPowerupKill s; s_rng := s_rng s;
     s_gameOverCalls := s_gameOverCalls s |}.
Definition set_floats (v : list FloatingText) (s : GS) : GS :=
  {| s_hp := s_hp s; s_score := s_score s; s_wave := s_wave s; s_arrows :=
     s_arrows s; s_maxArrows := s_maxArrows s; s_reloading := s_reloading s;
     s_reloadProgress := s_reloadProgress s; s_reloadTimer := s_reloadTimer s;
     s_spawnTimer := s_spawnTimer s; s_waveTimer := s_waveTimer s; s_enemies
     := s_enemies s; s_projectiles := s_projectiles s; s_particles :=
     s_particles s; s_floats := v; s_powerups := s_powerups s; s_alive :=
     s_alive s; s_bowPulse := s_bowPulse s; s_shootCooldown := s_shootCooldown
     s; s_combo := s_combo s; s_comboTimer := s_comboTimer s; s_killStreak :=
     s_killStreak s; s_shakeX := s_shakeX s; s_shakeY := s_shakeY s;
     s_shakePower := s_shakePower s; s_activePowerup := s_activePowerup s;
     s_powerupTimer := s_powerupTimer s; s_rapidFire := s_rapidFire s;
     s_waveAnnounce := s_waveAnnounce s; s_totalKills := s_totalKills s;
     s_nextPowerupKill := s_nextPowerupKill s; s_rng := s_rng s;
     s_gameOverCalls := s_gameOverCalls s |}.
Definition set_powerups (v : list PowerUp) (s : GS) : GS :=
  {| s_hp := s_hp s; s_score := s_score s; s_wave := s_wave s; s_arrows :=
     s_arrows s; s_maxArrows := s_maxArrows s; s_reloading := s_reloading s;
     s_reloadProgress := s_reloadProgress s; s_reloadTimer := s_reloadTimer s;
     s_spawnTimer := s_spawnTimer s; s_waveTimer := s_waveTimer s; s_enemies
     := s_enemies s; s_projectiles := s_projectiles s; s_particles :=
     s_particles s; s_floats := s_floats s; s_powerups := v; s_alive :=
     s_alive s; s_bowPulse := s_bowPulse s; s_shootCooldown := s_shootCooldown
     s; s_combo := s_combo s; s_comboTimer := s_comboTimer s; s_killStreak :=
     s_killStreak s; s_shakeX := s_shakeX s; s_shakeY := s_shakeY s;
     s_shakePower := s_shakePower s; s_activePowerup := s_activePowerup s;
     s_powerupTimer := s_powerupTimer s; s_rapidFire := s_rapidFire s;
     s_waveAnnounce := s_waveAnnounce s; s_totalKills := s_totalKills s;
     s_nextPowerupKill := s_nextPowerupKill s; s_rng := s_rng s;
     s_gameOverCalls := s_gameOverCalls s |}.
Definition set_alive (v : bool) (s : GS) : GS :=
  {| s_hp := s_hp s; s_score := s_score s; s_wave := s_wave s; s_arrows :=
     s_arrows s; s_maxArrows := s_maxArrows s; s_reloading := s_reloading s;
     s_reloadProgress := s_reloadProgress s; s_reloadTimer := s_reloadTimer s;
     s_spawnTimer := s_spawnTimer s; s_waveTimer := s_waveTimer s; s_enemies
     := s_enemies s; s_projectiles := s_projectiles s; s_particles :=
     s_particles s; s_floats := s_floats s; s_powerups := s_powerups s;
     s_alive := v; s_bowPulse := s_bowPulse s; s_shootCooldown :=
     s_shootCooldown s; s_combo := s_combo s; s_comboTimer := s_comboTimer s;
     s_killStreak := s_killStreak s; s_shakeX := s_shakeX s; s_shakeY :=
     s_shakeY s; s_shakePower := s_shakePower s; s_activePowerup :=
     s_activePowerup s; s_powerupTimer := s_powerupTimer s; s_rapidFire :=
     s_rapidFire s; s_waveAnnounce := s_waveAnnounce s; s_totalKills :=
     s_totalKills s; s_nextPowerupKill := s_nextPowerupKill s; s_rng := s_rng
     s; s_gameOverCalls := s_gameOverCalls s |}.
Definition set_bowPulse (v : Z) (s : GS) : GS :=
  {| s_hp := s_hp s; s_score := s_score s; s_wave := s_wave s; s_arrows :=
     s_arrows s; s_maxArrows := s_maxArrows s; s_reloading := s_reloading s;
     s_reloadProgress := s_reloadProgress s; s_reloadTimer := s_reloadTimer s;
     s_spawnTimer := s_spawnTimer s; s_waveTimer := s_waveTimer s; s_enemies
     := s_enemies s; s_projectiles := s_projectiles s; s_particles :=
     s_particles s; s_floats := s_floats s; s_powerups := s_powerups s;
     s_alive := s_alive s; s_bowPulse := v; s_shootCooldown := s_shootCooldown
     s; s_combo := s_combo s; s_comboTimer := s_comboTimer s; s_killStreak :=
     s_killStreak s; s_shakeX := s_shakeX s; s_shakeY := s_shakeY s;
     s_shakePower := s_shakePower s; s_activePowerup := s_activePowerup s;
     s_powerupTimer := s_powerupTimer s; s_rapidFire := s_rapidFire s;
     s_waveAnnounce := s_waveAnnounce s; s_totalKills := s_totalKills s;
     s_nextPowerupKill := s_nextPowerupKill s; s_rng := s_rng s;
     s_gameOverCalls := s_gameOverCalls s |}.
Definition set_shootCooldown (v : Z) (s : GS) : GS :=
  {| s_hp := s_hp s; s_score := s_score s; s_wave := s_wave s; s_arrows :=
     s_arrows s; s_maxArrows := s_maxArrows s; s_reloading := s_reloading s;
     s_reloadProgress := s_reloadProgress s; s_reloadTimer := s_reloadTimer s;
     s_spawnTimer := s_spawnTimer s; s_waveTimer := s_waveTimer s; s_enemies
     := s_enemies s; s_projectiles := s_projectiles s; s_particles :=
     s_particles s; s_floats := s_floats s; s_powerups := s_powerups s;
     s_alive := s_alive s; s_bowPulse := s_bowPulse s; s_shootCooldown := v;
     s_combo := s_combo s; s_comboTimer := s_comboTimer s; s_killStreak :=
     s_killStreak s; s_shakeX := s_shakeX s; s_shakeY := s_shakeY s;
     s_shakePower := s_shakePower s; s_activePowerup := s_activePowerup s;
     s_powerupTimer := s_powerupTimer s; s_rapidFire := s_rapidFire s;
     s_waveAnnounce := s_waveAnnounce s; s_totalKills := s_totalKills s;
     s_nextPowerupKill := s_nextPowerupKill s; s_rng := s_rng s;
     s_gameOverCalls := s_gameOverCalls s |}.
Definition set_combo (v : Z) (s : GS) : GS :=
  {| s_hp := s_hp s; s_score := s_score s; s_wave := s_wave s; s_arrows :=
     s_arrows s; s_maxArrows := s_maxArrows s; s_reloading := s_reloading s;
     s_reloadProgress := s_reloadProgress s; s_reloadTimer := s_reloadTimer s;
     s_spawnTimer := s_spawnTimer s; s_waveTimer := s_waveTimer s; s_enemies
     := s_enemies s; s_projectiles := s_projectiles s; s_particles :=
     s_particles s; s_floats := s_floats s; s_powerups := s_powerups s;
     s_alive := s_alive s; s_bowPulse := s_bowPulse s; s_shootCooldown :=
     s_shootCooldown s; s_combo := v; s_comboTimer := s_comboTimer s;
     s_killStreak := s_killStreak s; s_shakeX := s_shakeX s; s_shakeY :=
     s_shakeY s; s_shakePower := s_shakePower s; s_activePowerup :=
     s_activePowerup s; s_powerupTimer := s_powerupTimer s; s_rapidFire :=
     s_rapidFire s; s_waveAnnounce := s_waveAnnounce s; s_totalKills :=
     s_totalKills s; s_nextPowerupKill := s_nextPowerupKill s; s_rng := s_rng
     s; s_gameOverCalls := s_gameOverCalls s |}.
Definition set_comboTimer (v : Z) (s : GS) : GS :=
  {| s_hp := s_hp s; s_score := s_score s; s_wave := s_wave s; s_arrows :=
     s_arrows s; s_maxArrows := s_maxArrows s; s_reloading := s_reloading s;
     s_reloadProgress := s_reloadProgress s; s_reloadTimer := s_reloadTimer s;
     s_spawnTimer := s_spawnTimer s; s_waveTimer := s_waveTimer s; s_enemies
     := s_enemies s; s_projectiles := s_projectiles s; s_particles :=
     s_particles s; s_floats := s_floats s; s_powerups := s_powerups s;
     s_alive := s_alive s; s_bowPulse := s_bowPulse s; s_shootCooldown :=
     s_shootCooldown s; s_combo := s_combo s; s_comboTimer := v; s_killStreak
     := s_killStreak s; s_shakeX := s_shakeX s; s_shakeY := s_shakeY s;
     s_shakePower := s_shakePower s; s_activePowerup := s_activePowerup s;
     s_powerupTimer := s_powerupTimer s; s_rapidFire := s_rapidFire s;
     s_waveAnnounce := s_waveAnnounce s; s_totalKills := s_totalKills s;
     s_nextPowerupKill := s_nextPowerupKill s; s_rng := s_rng s;
     s_gameOverCalls := s_gameOverCalls s |}.
Definition set_killStreak (v : Z) (s : GS) : GS :=
  {| s_hp := s_hp s; s_score := s_score s; s_wave := s_wave s; s_arrows :=
     s_arrows s; s_maxArrows := s_maxArrows s; s_reloading := s_reloading s;
     s_reloadProgress := s_reloadProgress s; s_reloadTimer := s_reloadTimer s;
     s_spawnTimer := s_spawnTimer s; s_waveTimer := s_waveTimer s; s_enemies
     := s_enemies s; s_projectiles := s_projectiles s; s_particles :=
     s_particles s; s_floats := s_floats s; s_powerups := s_powerups s;
     s_alive := s_alive s; s_bowPulse := s_bowPulse s; s_shootCooldown :=
     s_shootCooldown s; s_combo := s_combo s; s_comboTimer := s_comboTimer s;
     s_killStreak := v; s_shakeX := s_shakeX s; s_shakeY := s_shakeY s;
     s_shakePower := s_shakePower s; s_activePowerup := s_activePowerup s;
     s_powerupTimer := s_powerupTimer s; s_rapidFire := s_rapidFire s;
     s_waveAnnounce := s_waveAnnounce s; s_totalKills := s_totalKills s;
     s_nextPowerupKill := s_nextPowerupKill s; s_rng := s_rng s;
     s_gameOverCalls := s_gameOverCalls s |}.
Definition set_shakeX (v : Q) (s : GS) : GS :=
  {| s_hp := s_hp s; s_score := s_score s; s_wave := s_wave s; s_arrows :=
     s_arrows s; s_maxArrows := s_maxArrows s; s_reloading := s_reloading s;
     s_reloadProgress := s_reloadProgress s; s_reloadTimer := s_reloadTimer s;
     s_spawnTimer := s_spawnTimer s; s_waveTimer := s_waveTimer s; s_enemies
     := s_enemies s; s_projectiles := s_projectiles s; s_particles :=
     s_particles s; s_floats := s_floats s; s_powerups := s_powerups s;
     s_alive := s_alive s; s_bowPulse := s_bowPulse s; s_shootCooldown :=
     s_shootCooldown s; s_combo := s_combo s; s_comboTimer := s_comboTimer s;
     s_killStreak := s_killStreak s; s_shakeX := v; s_shakeY := s_shakeY s;
     s_shakePower := s_shakePower s; s_activePowerup := s_activePowerup s;
     s_powerupTimer := s_powerupTimer s; s_rapidFire := s_rapidFire s;
     s_waveAnnounce := s_waveAnnounce s; s_totalKills := s_totalKills s;
     s_nextPowerupKill := s_nextPowerupKill s; s_rng := s_rng s;
     s_gameOverCalls := s_gameOverCalls s |}.
Definition set_shakeY (v : Q) (s : GS) : GS :=
  {| s_hp := s_hp s; s_score := s_score s; s_wave := s_wave s; s_arrows :=
     s_arrows s; s_maxArrows := s_maxArrows s; s_reloading := s_reloading s;
     s_reloadProgress := s_reloadProgress s; s_reloadTimer := s_reloadTimer s;
     s_spawnTimer := s_spawnTimer s; s_waveTimer := s_waveTimer s; s_enemies
     := s_enemies s; s_projectiles := s_projectiles s; s_particles :=
     s_particles s; s_floats := s_floats s; s_powerups := s_powerups s;
     s_alive := s_alive s; s_bowPulse := s_bowPulse s; s_shootCooldown :=
     s_shootCooldown s; s_combo := s_combo s; s_comboTimer := s_comboTimer s;
     s_killStreak := s_killStreak s; s_shakeX := s_shakeX s; s_shakeY := v;
     s_shakePower := s_shakePower s; s_activePowerup := s_activePowerup s;
     s_powerupTimer := s_powerupTimer s; s_rapidFire := s_rapidFire s;
     s_waveAnnounce := s_waveAnnounce s; s_totalKills := s_totalKills s;
     s_nextPowerupKill := s_nextPowerupKill s; s_rng := s_rng s;
     s_gameOverCalls := s_gameOverCalls s |}.
Definition set_shakePower (v : Q) (s : GS) : GS :=
  {| s_hp := s_hp s; s_score := s_score s; s_wave := s_wave s; s_arrows :=
     s_arrows s; s_maxArrows := s_maxArrows s; s_reloading := s_reloading s;
     s_reloadProgress := s_reloadProgress s; s_reloadTimer := s_reloadTimer s;
     s_spawnTimer := s_spawnTimer s; s_waveTimer := s_waveTimer s; s_enemies
     := s_enemies s; s_projectiles := s_projectiles s; s_particles :=
     s_particles s; s_floats := s_floats s; s_powerups := s_powerups s;
     s_alive := s_alive s; s_bowPulse := s_bowPulse s; s_shootCooldown :=
     s_shootCooldown s; s_combo := s_combo s; s_comboTimer := s_comboTimer s;
     s_killStreak := s_killStreak s; s_shakeX := s_shakeX s; s_shakeY :=
     s_shakeY s; s_shakePower := v; s_activePowerup := s_activePowerup s;
     s_powerupTimer := s_powerupTimer s; s_rapidFire := s_rapidFire s;
     s_waveAnnounce := s_waveAnnounce s; s_totalKills := s_totalKills s;
     s_nextPowerupKill := s_nextPowerupKill s; s_rng := s_rng s;
     s_gameOverCalls := s_gameOverCalls s |}.
Definition set_activePowerup (v : option PowerType) (s : GS) : GS :=
  {| s_hp := s_hp s; s_score := s_score s; s_wave := s_wave s; s_arrows :=
     s_arrows s; s_maxArrows := s_maxArrows s; s_reloading := s_reloading s;
     s_reloadProgress := s_reloadProgress s; s_reloadTimer := s_reloadTimer s;
     s_spawnTimer := s_spawnTimer s; s_waveTimer := s_waveTimer s; s_enemies
     := s_enemies s; s_projectiles := s_projectiles s; s_particles :=
     s_particles s; s_floats := s_floats s; s_powerups := s_powerups s;
     s_alive := s_alive s; s_bowPulse := s_bowPulse s; s_shootCooldown :=
     s_shootCooldown s; s_combo := s_combo s; s_comboTimer := s_comboTimer s;
     s_killStreak := s_killStreak s; s_shakeX := s_shakeX s; s_shakeY :=
     s_shakeY s; s_shakePower := s_shakePower s; s_activePowerup := v;
     s_powerupTimer := s_powerupTimer s; s_rapidFire := s_rapidFire s;
     s_waveAnnounce := s_waveAnnounce s; s_totalKills := s_totalKills s;
     s_nextPowerupKill := s_nextPowerupKill s; s_rng := s_rng s;
     s_gameOverCalls := s_gameOverCalls s |}.
Definition set_powerupTimer (v : Z) (s : GS) : GS :=
  {| s_hp := s_hp s; s_score := s_score s; s_wave := s_wave s; s_arrows :=
     s_arrows s; s_maxArrows := s_maxArrows s; s_reloading := s_reloading s;
     s_reloadProgress := s_reloadProgress s; s_reloadTimer := s_reloadTimer s;
     s_spawnTimer := s_spawnTimer s; s_waveTimer := s_waveTimer s; s_enemies
     := s_enemies s; s_projectiles := s_projectiles s; s_particles :=
     s_particles s; s_floats := s_floats s; s_powerups := s_powerups s;
     s_alive := s_alive s; s_bowPulse := s_bowPulse s; s_shootCooldown :=
     s_shootCooldown s; s_combo := s_combo s; s_comboTimer := s_comboTimer s;
     s_killStreak := s_killStreak s; s_shakeX := s_shakeX s; s_shakeY :=
     s_shakeY s; s_shakePower := s_shakePower s; s_activePowerup :=
     s_activePowerup s; s_powerupTimer := v; s_rapidFire := s_rapidFire s;
     s_waveAnnounce := s_waveAnnounce s; s_totalKills := s_totalKills s;
     s_nextPowerupKill := s_nextPowerupKill s; s_rng := s_rng s;
     s_gameOverCalls := s_gameOverCalls s |}.
Definition set_waveAnnounce (v : Z) (s : GS) : GS :=
  {| s_hp := s_hp s; s_score := s_score s; s_wave := s_wave s; s_arrows :=
     s_arrows s; s_maxArrows := s_maxArrows s; s_reloading := s_reloading s;
     s_reloadProgress := s_reloadProgress s; s_reloadTimer := s_reloadTimer s;
     s_spawnTimer := s_spawnTimer s; s_waveTimer := s_waveTimer s; s_enemies
     := s_enemies s; s_projectiles := s_projectiles s; s_particles :=
     s_particles s; s_floats := s_floats s; s_powerups := s_powerups s;
     s_alive := s_alive s; s_bowPulse := s_bowPulse s; s_shootCooldown :=
     s_shootCooldown s; s_combo := s_combo s; s_comboTimer := s_comboTimer s;
     s_killStreak := s_killStreak s; s_shakeX := s_shakeX s; s_shakeY :=
     s_shakeY s; s_shakePower := s_shakePower s; s_activePowerup :=
     s_activePowerup s; s_powerupTimer := s_powerupTimer s; s_rapidFire :=
     s_rapidFire s; s_waveAnnounce := v; s_totalKills := s_totalKills s;
     s_nextPowerupKill := s_nextPowerupKill s; s_rng := s_rng s;
     s_gameOverCalls := s_gameOverCalls s |}.
Definition set_totalKills (v : Z) (s : GS) : GS :=
  {| s_hp := s_hp s; s_score := s_score s; s_wave := s_wave s; s_arrows :=
     s_arrows s; s_maxArrows := s_maxArrows s; s_reloading := s_reloading s;
     s_reloadProgress := s_reloadProgress s; s_reloadTimer := s_reloadTimer s;
     s_spawnTimer := s_spawnTimer s; s_waveTimer := s_waveTimer s; s_enemies
     := s_enemies s; s_projectiles := s_projectiles s; s_particles :=
     s_particles s; s_floats := s_floats s; s_powerups := s_powerups s;
     s_alive := s_alive s; s_bowPulse := s_bowPulse s; s_shootCooldown :=
     s_shootCooldown s; s_combo := s_combo s; s_comboTimer := s_comboTimer s;
     s_killStreak := s_killStreak s; s_shakeX := s_shakeX s; s_shakeY :=
     s_shakeY s; s_shakePower := s_shakePower s; s_activePowerup :=
     s_activePowerup s; s_powerupTimer := s_powerupTimer s; s_rapidFire :=
     s_rapidFire s; s_waveAnnounce := s_waveAnnounce s; s_totalKills := v;
     s_nextPowerupKill := s_nextPowerupKill s; s_rng := s_rng s;
     s_gameOverCalls := s_gameOverCalls s |}.
Definition set_nextPowerupKill (v : Z) (s : GS) : GS :=
  {| s_hp := s_hp s; s_score := s_score s; s_wave := s_wave s; s_arrows :=
     s_arrows s; s_maxArrows := s_maxArrows s; s_reloading := s_reloading s;
     s_reloadProgress := s_reloadProgress s; s_reloadTimer := s_reloadTimer s;
     s_spawnTimer := s_spawnTimer s; s_waveTimer := s_waveTimer s; s_enemies
     := s_enemies s; s_projectiles := s_projectiles s; s_particles :=
     s_particles s; s_floats := s_floats s; s_powerups := s_powerups s;
     s_alive := s_alive s; s_bowPulse := s_bowPulse s; s_shootCooldown :=
     s_shootCooldown s; s_combo := s_combo s; s_comboTimer := s_comboTimer s;
     s_killStreak := s_killStreak s; s_shakeX := s_shakeX s; s_shakeY :=
     s_shakeY s; s_shakePower := s_shakePower s; s_activePowerup :=
     s_activePowerup s; s_powerupTimer := s_powerupTimer s; s_rapidFire :=
     s_rapidFire s; s_waveAnnounce := s_waveAnnounce s; s_totalKills :=
     s_totalKills s; s_nextPowerupKill := v; s_rng := s_rng s; s_gameOverCalls
     := s_gameOverCalls s |}.
Definition set_rng (v : nat) (s : GS) : GS :=
  {| s_hp := s_hp s; s_score := s_score s; s_wave := s_wave s; s_arrows :=
     s_arrows s; s_maxArrows := s_maxArrows s; s_reloading := s_reloading s;
     s_reloadProgress := s_reloadProgress s; s_reloadTimer := s_reloadTimer s;
     s_spawnTimer := s_spawnTimer s; s_waveTimer := s_waveTimer s; s_enemies
     := s_enemies s; s_projectiles := s_projectiles s; s_particles :=
     s_particles s; s_floats := s_floats s; s_powerups := s_powerups s;
     s_alive := s_alive s; s_bowPulse := s_bowPulse s; s_shootCooldown :=
     s_shootCooldown s; s_combo := s_combo s; s_comboTimer := s_comboTimer s;
     s_killStreak := s_killStreak s; s_shakeX := s_shakeX s; s_shakeY :=
     s_shakeY s; s_shakePower := s_shakePower s; s_activePowerup :=
     s_activePowerup s; s_powerupTimer := s_powerupTimer s; s_rapidFire :=
     s_rapidFire s; s_waveAnnounce := s_waveAnnounce s; s_totalKills :=
     s_totalKills s; s_nextPowerupKill := s_nextPowerupKill s; s_rng := v;
     s_gameOverCalls := s_gameOverCalls s |}.
Definition set_gameOverCalls (v : list Z) (s : GS) : GS :=
  {| s_hp := s_hp s; s_score := s_score s; s_wave := s_wave s; s_arrows :=
     s_arrows s; s_maxArrows := s_maxArrows s; s_reloading := s_reloading s;
     s_reloadProgress := s_reloadProgress s; s_reloadTimer := s_reloadTimer s;
     s_spawnTimer := s_spawnTimer s; s_waveTimer := s_waveTimer s; s_enemies
     := s_enemies s; s_projectiles := s_projectiles s; s_particles :=
     s_particles s; s_floats := s_floats s; s_powerups := s_powerups s;
     s_alive := s_alive s; s_bowPulse := s_bowPulse s; s_shootCooldown :=
     s_shootCooldown s; s_combo := s_combo s; s_comboTimer := s_comboTimer s;
     s_killStreak := s_killStreak s; s_shakeX := s_shakeX s; s_shakeY :=
     s_shakeY s; s_shakePower := s_shakePower s; s_activePowerup :=
     s_activePowerup s; s_powerupTimer := s_powerupTimer s; s_rapidFire :=
     s_rapidFire s; s_waveAnnounce := s_waveAnnounce s; s_totalKills :=
     s_totalKills s; s_nextPowerupKill := s_nextPowerupKill s; s_rng := s_rng
     s; s_gameOverCalls := v |}.

(** ** Array helpers *)

(** [arr.forEach((a, i) => ...)] for the loops of this engine: the callback
    is called on the elements present when [forEach] is called, in index
    order.  Every callback below writes only the element it is called on and
    may append to the array, so the element read here is the one the source's
    callback sees. *)
Fixpoint forEachFrom {A St : Type} (f : A -> nat -> St -> St)
    (i : nat) (l : list A) (st : St) : St :=
  match l with
  | [] => st
  | a :: l' => forEachFrom f (S i) l' (f a i st)
  end.

Definition forEach {A St : Type} (f : A -> nat -> St -> St)
    (l : list A) (st : St) : St :=
  forEachFrom f 0 l st.

(** [idx.sort((a, b) => b - a).forEach(i => arr.splice(i, 1))]. *)
Definition spliceAll {A : Type} (idx : list nat) (l : list A) : list A :=
  foldl (fun acc i => delete i acc) l (merge_sort (flip le) idx).

(** [arr.filter((_, i) => keep(i))]. *)
Fixpoint filterIndexFrom {A : Type} (keep : nat -> bool) (i : nat)
    (l : list A) : list A :=
  match l with
  | [] => []
  | a :: l' =>
      if keep i then a :: filterIndexFrom keep (S i) l'
      else filterIndexFrom keep (S i) l'
  end.

(** ** Enemy archetypes and the factory *)

Definition scoutType : EnemyType :=
  mkEnemyType "scout" "#00ff41" 1 2.5 10 14 10 straight.
Definition tankType : EnemyType :=
  mkEnemyType "tank" "#ff6600" 5 1.0 25 24 40 straight.
Definition zigzaggerType : EnemyType :=
  mkEnemyType "zigzagger" "#ffff00" 2 2.0 15 16 25 zigzag.
Definition ghostType : EnemyType :=
  mkEnemyType "ghost" "#bf00ff" 3 1.8 20 18 35 teleport.
Definition splitterType : EnemyType :=
  mkEnemyType "splitter" "#ff006e" 4 1.5 18 20 50 straight.
Definition berserkerType : EnemyType :=
  mkEnemyType "berserker" "#ff0000" 3 3.5 30 17 60 chase.
Definition bouncerType : EnemyType :=
  mkEnemyType "bouncer" "#00ffff" 3 2.2 15 15 45 bounce.

Definition ENEMY_TYPES : list EnemyType :=
  [scoutType; tankType; zigzaggerType; ghostType; splitterType;
   berserkerType; bouncerType].

Section Engine.

Variable M : MathObj.

(** [Math.sqrt(dx * dx + dy * dy)]. *)
Definition len (dx dy : Q) : Q := sqrt M (dx * dx + dy * dy).

(** [createEnemy(type, canvasW, canvasH, overrides?)].  Every caller passes
    either no [overrides] or exactly [{x, y}].  [n] is the index of the next
    random draw; the result carries the index after the draws made. *)
Definition createEnemy (type : EnemyType) (canvasW canvasH : Q)
    (overrides : option (Q * Q)) (n : nat) : Enemy * nat :=
  let side := Qfloor (random M n * 4) in
  let n := S n in
  let margin : Q := 60 in
  let '(x, y, n) :=
    match side with
    | 0%Z => (random M n * canvasW, - margin, S n)
    | 1%Z => (canvasW + margin, random M n * canvasH, S n)
    | 2%Z => (random M n * canvasW, canvasH + margin, S n)
    | 3%Z => (- margin, random M n * canvasH, S n)
    | _ => (0, 0, n)
    end in
  let speed := t_speed type * (0.85 + random M n * 0.3) in
  let n := S n in
  let angle := atan2 M (canvasH / 2 - y) (canvasW / 2 - x) in
  ({| e_id := t_id type; e_color := t_color type;
      e_hp := t_maxHp type; e_maxHp := t_maxHp type;
      e_speed := t_speed type; e_damage := t_damage type;
      e_radius := t_radius type; e_points := t_points type;
      e_pattern := t_pattern type;
      e_x := match overrides with Some (ox, _) => ox | None => x end;
      e_y := match overrides with Some (_, oy) => oy | None => y end;
      e_vx := cos M angle * speed;
      e_vy := sin M angle * speed;
      e_angle := angle;
      e_zigzagTimer := 0;
      e_teleportTimer := random M n * 180;
      e_splitDone := false;
      e_pulseRadius := t_radius type;
      e_pulseGrowing := true;
      e_flashTimer := 0 |}, S n).

(** ** Effects helpers of [GameCanvas] *)

Definition addShake (power : Q) (s : GS) : GS :=
  set_shakePower (Qmax (s_shakePower s) power) s.

(** One iteration of the loop of [spawnParticles]. *)
Definition pushParticle (x y : Q) (color : string) (count : nat)
    (speedMult : Q) (s : GS) (i : nat) : GS :=
  let n := s_rng s in
  let angle := (PI M * 2 * inject_Z (Z.of_nat i)) / inject_Z (Z.of_nat count)
               + random M n * 0.8 in
  let speed := (1.5 + random M (n + 1) * 3.5) * speedMult in
  let p := {| pt_x := x; pt_y := y;
              pt_vx := cos M angle * speed;
              pt_vy := sin M angle * speed;
              pt_life := 35 + random M (n + 2) * 30;
              pt_maxLife := 65;
              pt_color := color;
              pt_radius := 2 + random M (n + 3) * 3 |} in
  set_rng (n + 4)%nat (set_particles (s_particles s ++ [p]) s).

Definition spawnParticles (x y : Q) (color : string) (count : nat)
    (speedMult : Q) (s : GS) : GS :=
  foldl (pushParticle x y color count speedMult) s (seq 0 count).

Definition addFloat (x y : Q) (text : FloatLabel) (color : string)
    (big : bool) (s : GS) : GS :=
  set_floats
    (s_floats s ++
      [{| f_x := x; f_y := y; f_text := text; f_color := color;
          f_life := 55; f_maxLife := 55; f_vy := - 1.2;
          f_scale := if big then 1.6 else 1 |}]) s.

(** One iteration of the ring loop of [spawnBombExplosion]. *)
Definition pushRing (cx cy : Q) (s : GS) (i : nat) : GS :=
  let n := s_rng s in
  let angle := (PI M * 2 * inject_Z (Z.of_nat i)) / 30 in
  let speed := 3 + random M n * 5 in
  let p := {| pt_x := cx; pt_y := cy;
              pt_vx := cos M angle * speed;
              pt_vy := sin M angle * speed;
              pt_life := 50 + random M (n + 1) * 30;
              pt_maxLife := 80;
              pt_color := "#ff6600";
              pt_radius := 3 + random M (n + 2) * 5 |} in
  set_rng (n + 3)%nat (set_particles (s_particles s ++ [p]) s).

(** The callback of [s.enemies.forEach] in [spawnBombExplosion]; the state
    is paired with the local array [killed]. *)
Definition bombCallback (cx cy : Q) (e : Enemy) (i : nat)
    (st : GS * list nat) : GS * list nat :=
  let '(s, killed) := st in
  let dx := e_x e - cx in
  let dy := e_y e - cy in
  if Qltb (len dx dy) 180 then
    let killed := killed ++ [i] in
    let s := set_score (s_score s + e_points e * s_wave s)%Z s in
    let s := spawnParticles (e_x e) (e_y e) (e_color e) 12 1.5 s in
    let s := addFloat (e_x e) (e_y e - 20)
               (ScoreLabel (e_points e * s_wave s)%Z) (e_color e) false s in
    let s := set_totalKills (s_totalKills s + 1)%Z s in
    (s, killed)
  else (s, killed).

Definition spawnBombExplosion (cx cy : Q) (s : GS) : GS :=
  let '(s, killed) := forEach (bombCallback cx cy) (s_enemies s) (s, []) in
  let s := set_enemies (spliceAll killed (s_enemies s)) s in
  let s := foldl (pushRing cx cy) s (seq 0 30) in
  addShake 14 s.

Variable diff : DiffCfg.

(** One iteration of [angles.forEach] in [shoot]. *)
Definition pushProjectile (cx cy dx dy speed : Q) (isPierce : bool)
    (s : GS) (offset : Q) : GS :=
  let a := atan2 M dy dx + offset in
  set_projectiles
    (s_projectiles s ++
      [{| p_x := cx; p_y := cy;
          p_vx := cos M a * speed;
          p_vy := sin M a * speed;
          p_radius := if isPierce then 5 else 4;
          p_trail := [];
          p_piercing := isPierce |}]) s.

(** [shoot()], the click handler.  [canvas] is [canvasRef.current] (its
    width and height, or [None] for [null]); [mouse] is [mousePos.current]. *)
Definition shoot (canvas : option (Q * Q)) (mouse : Q * Q) (s : GS) : GS :=
  if negb (s_alive s) || s_reloading s || (s_arrows s <=? 0)%Z then s else
  let cooldown := if isPowerup rapid (s_activePowerup s) then 4%Z else 12%Z in
  if (0 <? s_shootCooldown s)%Z then s else
  match canvas with
  | None => s
  | Some (W, H) =>
      let cx := W / 2 in
      let cy := H / 2 in
      let dx := fst mouse - cx in
      let dy := snd mouse - cy in
      let dist := len dx dy in
      if Qeq_bool dist 0 then s else
      let speed : Q := 15 in
      let isPierce := isPowerup pierce (s_activePowerup s) in
      let isMulti := isPowerup multi (s_activePowerup s) in
      let s :=
        if isPowerup bomb (s_activePowerup s) then
          let s := spawnBombExplosion (fst mouse) (snd mouse) s in
          let s := set_activePowerup None s in
          set_powerupTimer 0 s
        else
          let angles : list Q := if isMulti then [- 0.18; 0; 0.18] else [0] in
          foldl (pushProjectile cx cy dx dy speed isPierce) s angles in
      let s := set_arrows (s_arrows s - 1)%Z s in
      let s := set_shootCooldown cooldown s in
      let s := set_bowPulse 12 s in
      if (s_arrows s <=? 0)%Z then
        let s := set_reloading true s in
        let s := set_reloadTimer (reloadTime diff) s in
        set_reloadProgress 0 s
      else s
  end.

(** ** The simulation half of [loop]

    [W] and [H] are [canvas.width] and [canvas.height] at the frame, [mouse]
    is [mousePos.current]. *)

(** Wave timer ([// Wave]). *)
Definition wavePhase (s : GS) : GS :=
  let s := set_spawnTimer (s_spawnTimer s + 1)%Z s in
  let s := set_waveTimer (s_waveTimer s + 1)%Z s in
  let s :=
    if (700 <? s_waveTimer s)%Z then
      let s := set_wave (s_wave s + 1)%Z s in
      let s := set_waveTimer 0%Z s in
      set_waveAnnounce 150%Z s
    else s in
  if (0 <? s_waveAnnounce s)%Z
  then set_waveAnnounce (s_waveAnnounce s - 1)%Z s else s.

(** Enemy spawn ([// Spawn]).  [pool[...]] is defined whenever
    [Math.random()] is in [0, 1), as its contract says; the [None] branch
    stands for the index falling outside the pool. *)
Definition spawnPhase (W H : Q) (s : GS) : GS :=
  let rate := Z.max 35 (spawnRate diff - s_wave s * 6) in
  if (rate <=? s_spawnTimer s)%Z then
    let s := set_spawnTimer 0%Z s in
    let maxTypes := Z.min (s_wave s + 1) (Z.of_nat (length ENEMY_TYPES)) in
    let pool := take (Z.to_nat maxTypes) ENEMY_TYPES in
    let n := s_rng s in
    let k := Qfloor (random M n * inject_Z (Z.of_nat (length pool))) in
    let s := set_rng (S n) s in
    match pool !! Z.to_nat k with
    | None => s
    | Some type =>
        let '(e, n) := createEnemy type W H None (s_rng s) in
        let s := set_rng n s in
        let f := enemySpeedMult diff * (1 + inject_Z (s_wave s) * 0.04) in
        let e := eset_speed (e_speed e * f) e in
        let e := eset_vx (e_vx e * f) e in
        let e := eset_vy (e_vy e * f) e in
        set_enemies (s_enemies s ++ [e]) s
    end
  else s.

(** Reload countdown ([// Reload]). *)
Definition reloadPhase (cx cy : Q) (s : GS) : GS :=
  if s_reloading s then
    let s := set_reloadTimer (s_reloadTimer s - 1)%Z s in
    let s := set_reloadProgress
               (1 - inject_Z (s_reloadTimer s) / inject_Z (reloadTime diff)) s in
    if (s_reloadTimer s <=? 0)%Z then
      let s := set_reloading false s in
      let s := set_arrows (s_maxArrows s) s in
      let s := set_reloadProgress 0 s in
      spawnParticles cx cy "#00ffff" 8 1 s
    else s
  else s.

Definition cooldownPhase (s : GS) : GS :=
  let s := if (0 <? s_shootCooldown s)%Z
           then set_shootCooldown (s_shootCooldown s - 1)%Z s else s in
  if (0 <? s_bowPulse s)%Z then set_bowPulse (s_bowPulse s - 1)%Z s else s.

(** Combo decay ([// Combo decay]). *)
Definition comboPhase (s : GS) : GS :=
  if (0 <? s_comboTimer s)%Z then
    let s := set_comboTimer (s_comboTimer s - 1)%Z s in
    if (s_comboTimer s =? 0)%Z then set_combo 0%Z s else s
  else s.

(** Active power-up countdown ([// Active powerup timer]). *)
Definition powerupTimerPhase (s : GS) : GS :=
  if (0 <? s_powerupTimer s)%Z then
    let s := set_powerupTimer (s_powerupTimer s - 1)%Z s in
    if (s_powerupTimer s =? 0)%Z then set_activePowerup None s else s
  else s.

(** Screen shake decay. *)
Definition shakePhase (s : GS) : GS :=
  if Qltb 0 (s_shakePower s) then
    let n := s_rng s in
    let s := set_shakeX ((random M n - 0.5) * s_shakePower s) s in
    let s := set_shakeY ((random M (n + 1) - 0.5) * s_shakePower s) s in
    let s := set_rng (n + 2)%nat s in
    let s := set_shakePower (s_shakePower s * 0.82) s in
    if Qltb (s_shakePower s) 0.3
    then set_shakeY 0 (set_shakeX 0 (set_shakePower 0 s)) else s
  else s.

(** Pickups on the board age and expire ([// Power-up rotation]). *)
Definition agePowerup (p : PowerUp) : PowerUp :=
  {| pu_x := pu_x p; pu_y := pu_y p; pu_type := pu_type p;
     pu_radius := pu_radius p; pu_angle := pu_angle p + 0.04;
     pu_life := pu_life p - 1; pu_pulsePhase := pu_pulsePhase p + 0.07 |}.

Definition powerupAgePhase (s : GS) : GS :=
  set_powerups
    (List.filter (fun p => (0 <? pu_life p)%Z) (map agePowerup (s_powerups s))) s.

(** *** Enemy update ([// ---- ENEMY UPDATE ----]) *)

(** The [switch (e.pattern)]: the enemy after its move, and the state after
    the particles and random draws of the move. *)
Definition moveEnemy (W H : Q) (e : Enemy) (s : GS) : Enemy * GS :=
  let cx := W / 2 in
  let cy := H / 2 in
  match e_pattern e with
  | straight | split =>
      let e := eset_x (e_x e + e_vx e) e in
      let e := eset_y (e_y e + e_vy e) e in
      (e, s)
  | zigzag =>
      let e := eset_zigzagTimer (e_zigzagTimer e + 1)%Z e in
      let e := eset_x (e_x e + e_vx e) e in
      let e := eset_y (e_y e + e_vy e) e in
      if (Z.rem (e_zigzagTimer e) 35 =? 0)%Z then
        let perpx := - e_vy e / e_speed e in
        let perpy := e_vx e / e_speed e in
        let flip : Q := if Qgtb (random M (s_rng s)) 0.5 then 1 else - (1) in
        let s := set_rng (S (s_rng s)) s in
        let e := eset_vx ((e_vx e / e_speed e + perpx * flip * 1.8)
                          * e_speed e * 0.65) e in
        let e := eset_vy ((e_vy e / e_speed e + perpy * flip * 1.8)
                          * e_speed e * 0.65) e in
        let spd := len (e_vx e) (e_vy e) in
        let e := eset_vx (e_vx e / spd * e_speed e) e in
        let e := eset_vy (e_vy e / spd * e_speed e) e in
        (e, s)
      else (e, s)
  | chase =>
      let dx := cx - e_x e in
      let dy := cy - e_y e in
      let d := len dx dy in
      let accel : Q := 0.08 in
      let e := eset_vx (e_vx e + dx / d * e_speed e * accel) e in
      let e := eset_vy (e_vy e + dy / d * e_speed e * accel) e in
      let curSpd := len (e_vx e) (e_vy e) in
      let e :=
        if Qgtb curSpd (e_speed e) then
          let e := eset_vx (e_vx e / curSpd * e_speed e) e in
          eset_vy (e_vy e / curSpd * e_speed e) e
        else e in
      let e := eset_x (e_x e + e_vx e) e in
      let e := eset_y (e_y e + e_vy e) e in
      (e, s)
  | teleport =>
      let e := eset_x (e_x e + e_vx e) e in
      let e := eset_y (e_y e + e_vy e) e in
      let e := eset_teleportTimer (e_teleportTimer e - 1) e in
      if Qleb (e_teleportTimer e) 0 then
        let e := eset_teleportTimer (100 + random M (s_rng s) * 100) e in
        let s := set_rng (S (s_rng s)) s in
        let s := spawnParticles (e_x e) (e_y e) (e_color e) 6 1 s in
        let '(newE, n) := createEnemy (typeOf e) W H None (s_rng s) in
        let s := set_rng n s in
        let e := eset_x (e_x newE) e in
        let e := eset_y (e_y newE) e in
        let s := spawnParticles (e_x e) (e_y e) (e_color e) 6 1 s in
        (e, s)
      else (e, s)
  | bounce =>
      let e := eset_x (e_x e + e_vx e) e in
      let e := eset_y (e_y e + e_vy e) e in
      let '(e, s) :=
        if Qltb (e_x e - e_radius e) 0
        then (eset_vx (Qabs (e_vx e)) e,
              spawnParticles (e_x e) (e_y e) (e_color e) 3 1 s)
        else (e, s) in
      let '(e, s) :=
        if Qgtb (e_x e + e_radius e) W
        then (eset_vx (- Qabs (e_vx e)) e,
              spawnParticles (e_x e) (e_y e) (e_color e) 3 1 s)
        else (e, s) in
      let '(e, s) :=
        if Qltb (e_y e - e_radius e) 0
        then (eset_vy (Qabs (e_vy e)) e,
              spawnParticles (e_x e) (e_y e) (e_color e) 3 1 s)
        else (e, s) in
      if Qgtb (e_y e + e_radius e) H
      then (eset_vy (- Qabs (e_vy e)) e,
            spawnParticles (e_x e) (e_y e) (e_color e) 3 1 s)
      else (e, s)
  | spiral =>
      let dx := cx - e_x e in
      let dy := cy - e_y e in
      let d := len dx dy in
      let e := eset_angle (e_angle e + 0.05) e in
      let e := eset_vx (cos M (e_angle e) * e_speed e * 0.8
                        + dx / d * e_speed e * 0.6) e in
      let e := eset_vy (sin M (e_angle e) * e_speed e * 0.8
                        + dy / d * e_speed e * 0.6) e in
      let spd := len (e_vx e) (e_vy e) in
      let e := eset_vx (e_vx e / spd * e_speed e) e in
      let e := eset_vy (e_vy e / spd * e_speed e) e in
      let e := eset_x (e_x e + e_vx e) e in
      let e := eset_y (e_y e + e_vy e) e in
      (e, s)
  end.

(** [// Pulse ring]. *)
Definition pulseEnemy (e : Enemy) : Enemy :=
  if e_pulseGrowing e then
    let e := eset_pulseRadius (e_pulseRadius e + 0.18) e in
    if Qgtb (e_pulseRadius e) (e_radius e + 5)
    then eset_pulseGrowing false e else e
  else
    let e := eset_pulseRadius (e_pulseRadius e - 0.18) e in
    if Qltb (e_pulseRadius e) (e_radius e)
    then eset_pulseGrowing true e else e.

(** [// Out of bounds (non-bounce)]: the array [deadEnemies] after the
    check for enemy [e] of index [i]. *)
Definition outOfBounds (W H : Q) (e : Enemy) (i : nat)
    (dead : list nat) : list nat :=
  if Pattern_eqb (e_pattern e) bounce then dead
  else
    let margin : Q := 220 in
    if Qltb (e_x e) (- margin) || Qgtb (e_x e) (W + margin)
       || Qltb (e_y e) (- margin) || Qgtb (e_y e) (H + margin)
    then dead ++ [i] else dead.

(** The callback of [s.enemies.forEach] in the enemy update; the state is
    paired with the local array [deadEnemies].  The callback's [return] after
    [onGameOver] leaves the callback, not [loop], and skips the out-of-bounds
    check of that enemy only. *)
Definition enemyCallback (W H : Q) (e : Enemy) (i : nat)
    (st : GS * list nat) : GS * list nat :=
  let '(s, dead) := st in
  let cx := W / 2 in
  let cy := H / 2 in
  let e := if (0 <? e_flashTimer e)%Z
           then eset_flashTimer (e_flashTimer e - 1)%Z e else e in
  let '(e, s) := moveEnemy W H e s in
  let e := pulseEnemy e in
  let e := if Pattern_eqb (e_pattern e) chase then e
           else eset_angle (e_angle e + 0.012) e in
  let s := set_enemies (<[i := e]> (s_enemies s)) s in
  let dx := e_x e - cx in
  let dy := e_y e - cy in
  if Qltb (len dx dy) (e_radius e + 22) then
    let dmg := e_damage e * playerDamageMult diff * 0.017 in
    let s := set_hp (Qmax 0 (s_hp s - dmg)) s in
    let s := spawnParticles cx cy "#ff0000" 6 1.2 s in
    let s := addShake 10 s in
    let s := set_combo 0%Z s in
    let s := set_comboTimer 0%Z s in
    let s := set_killStreak 0%Z s in
    let dead := dead ++ [i] in
    if Qleb (s_hp s) 0 then
      let s := set_alive false s in
      let s := set_gameOverCalls (s_gameOverCalls s ++ [s_score s]) s in
      (s, dead)
    else (s, outOfBounds W H e i dead)
  else (s, outOfBounds W H e i dead).

Definition enemyPhase (W H : Q) (s : GS) : GS * list nat :=
  forEach (enemyCallback W H) (s_enemies s) (s, []).

(** *** Projectile hits ([// ---- PROJECTILE HIT ----]) *)

(** The locals of [loop] the hit test threads: the state, [deadEnemies] and
    the set [deadProjectiles]. *)
Record Locals : Type := mkLocals {
  fr_s : GS;
  fr_deadEnemies : list nat;
  fr_deadProjectiles : gset nat
}.

Definition includes (l : list nat) (i : nat) : bool := existsb (Nat.eqb i) l.

(** [e.points * s.wave * (1 + Math.floor(s.combo / 3) * 0.5)]. *)
Definition earned (e : Enemy) (s : GS) : Q :=
  inject_Z (e_points e) * inject_Z (s_wave s)
  * (1 + inject_Z (Qfloor (inject_Z (s_combo s) / 3)) * 0.5).

(** The two scouts a splitter leaves ([for (let k = 0; k < 2; k++)]). *)
Definition pushOffspring (W H : Q) (e : Enemy) (scout : EnemyType)
    (s : GS) (k : nat) : GS :=
  let n := s_rng s in
  let ox := e_x e + (random M n - 0.5) * 50 in
  let oy := e_y e + (random M (S n) - 0.5) * 50 in
  let '(child, n) := createEnemy scout W H (Some (ox, oy)) (S (S n)) in
  set_rng n (set_enemies (s_enemies s ++ [child]) s).

(** The body of [if (e.hp <= 0)]: [e] is the enemy after the hit, [ei] its
    index.  As in [spawnPhase], the [None] branches stand for an index
    outside a constant table, which [Math.random()] in [0, 1) never gives. *)
Definition killEnemy (W H : Q) (e : Enemy) (ei : nat) (fr : Locals) : Locals :=
  let s := fr_s fr in
  let dead := fr_deadEnemies fr in
  let gain := earned e s in
  let s := set_score (s_score s + Math_round gain)%Z s in
  let s := set_totalKills (s_totalKills s + 1)%Z s in
  let s := set_killStreak (s_killStreak s + 1)%Z s in
  let s := set_combo (s_combo s + 1)%Z s in
  let s := set_comboTimer 90%Z s in
  let s := spawnParticles (e_x e) (e_y e) (e_color e) 14 1.3 s in
  let s := addFloat (e_x e) (e_y e - e_radius e - 8)
             (ScoreLabel (Math_round gain)) (e_color e) (3 <=? s_combo s)%Z s in
  let s := if (3 <=? s_combo s)%Z
           then addFloat (e_x e) (e_y e - e_radius e - 28)
                  (ComboLabel (s_combo s)) "#ffff00" true s
           else s in
  let s := addShake (4 + inject_Z (e_maxHp e)) s in
  let s :=
    if String.eqb (e_id e) "splitter" && negb (e_splitDone e) then
      let s := set_enemies (<[ei := eset_splitDone true e]> (s_enemies s)) s in
      match List.find (fun t => String.eqb (t_id t) "scout") ENEMY_TYPES with
      | Some scout => foldl (pushOffspring W H e scout) s (seq 0 2)
      | None => s
      end
    else s in
  let dead := if includes dead ei then dead else dead ++ [ei] in
  let s :=
    if (s_nextPowerupKill s <=? s_totalKills s)%Z then
      let n := s_rng s in
      let s := set_nextPowerupKill
                 (s_nextPowerupKill s + (8 + Qfloor (random M n * 8)))%Z s in
      let types := [multi; pierce; rapid; bomb] in
      match types !! Z.to_nat (Qfloor (random M (S n) * 4)) with
      | Some ty =>
          set_rng (S (S n))
            (set_powerups
               (s_powerups s ++
                 [{| pu_x := e_x e; pu_y := e_y e; pu_type := ty;
                     pu_radius := 16; pu_angle := 0; pu_life := 360;
                     pu_pulsePhase := 0 |}]) s)
      | None => set_rng (S (S n)) s
      end
    else s in
  mkLocals s dead (fr_deadProjectiles fr).

(** The callback of the inner [s.enemies.forEach] for projectile [p] of
    index [pi]. *)
Definition hitCallback (W H : Q) (p : Projectile) (pi : nat)
    (e : Enemy) (ei : nat) (fr : Locals) : Locals :=
  if includes (fr_deadEnemies fr) ei then fr else
  let dx := p_x p - e_x e in
  let dy := p_y p - e_y e in
  if Qltb (len dx dy) (p_radius p + e_radius e) then
    let s := fr_s fr in
    let e := eset_hp (e_hp e - 1)%Z e in
    let e := eset_flashTimer 7%Z e in
    let s := set_enemies (<[ei := e]> (s_enemies s)) s in
    let s := spawnParticles (e_x e) (e_y e) (e_color e) 4 1 s in
    let fr := mkLocals s (fr_deadEnemies fr) (fr_deadProjectiles fr) in
    let fr := if (e_hp e <=? 0)%Z then killEnemy W H e ei fr else fr in
    if p_piercing p then fr
    else mkLocals (fr_s fr) (fr_deadEnemies fr) ({[pi]} ∪ fr_deadProjectiles fr)
  else fr.

(** The callback of the outer [s.projectiles.forEach]. *)
Definition projectileCallback (W H : Q) (p : Projectile) (pi : nat)
    (fr : Locals) : Locals :=
  forEach (hitCallback W H p pi) (s_enemies (fr_s fr)) fr.

Definition projectilePhase (W H : Q) (fr : Locals) : Locals :=
  forEach (projectileCallback W H) (s_projectiles (fr_s fr)) fr.

(** [// Remove dead]. *)
Definition removeDead (fr : Locals) : GS :=
  let s := fr_s fr in
  let s := set_enemies
             (spliceAll (remove_dups (fr_deadEnemies fr)) (s_enemies s)) s in
  set_projectiles
    (filterIndexFrom
       (fun i => negb (bool_decide (i ∈ fr_deadProjectiles fr))) 0
       (s_projectiles s)) s.

(** *** Pickups, motion and ageing *)

Definition POWERUP_COLORS (t : PowerType) : string :=
  match t with
  | multi => "#ff006e" | pierce => "#00ffff"
  | rapid => "#ffff00" | bomb => "#ff6600"
  end.

(** The callback of [s.powerups.filter] in [// Power-up pickup]; the state is
    paired with the pickups kept so far. *)
Definition pickupCallback (mouse : Q * Q) (st : GS * list PowerUp)
    (pu : PowerUp) : GS * list PowerUp :=
  let '(s, kept) := st in
  let dx := fst mouse - pu_x pu in
  let dy := snd mouse - pu_y pu in
  if Qltb (len dx dy) (pu_radius pu + 20) then
    let s := set_activePowerup (Some (pu_type pu)) s in
    let s := set_powerupTimer
               (if PowerType_eqb (pu_type pu) bomb then 1 else 360)%Z s in
    let s := spawnParticles (pu_x pu) (pu_y pu)
               (POWERUP_COLORS (pu_type pu)) 12 1.5 s in
    let s := addFloat (pu_x pu) (pu_y pu - 30) (PowerLabel (pu_type pu))
               (POWERUP_COLORS (pu_type pu)) true s in
    (s, kept)
  else (s, kept ++ [pu]).

Definition pickupPhase (mouse : Q * Q) (s : GS) : GS :=
  let '(s, kept) := foldl (pickupCallback mouse) (s, []) (s_powerups s) in
  set_powerups kept s.

(** [// Move projectiles]. *)
Definition moveProjectile (p : Projectile) : Projectile :=
  let trail := p_trail p ++ [(p_x p, p_y p)] in
  let trail := if (12 <? length trail)%nat then tail trail else trail in
  {| p_x := p_x p + p_vx p; p_y := p_y p + p_vy p;
     p_vx := p_vx p; p_vy := p_vy p; p_radius := p_radius p;
     p_trail := trail; p_piercing := p_piercing p |}.

Definition onBoard (W H : Q) (p : Projectile) : bool :=
  Qgtb (p_x p) (- (80)) && Qltb (p_x p) (W + 80)
  && Qgtb (p_y p) (- (80)) && Qltb (p_y p) (H + 80).

Definition moveProjectiles (W H : Q) (s : GS) : GS :=
  set_projectiles
    (List.filter (onBoard W H) (map moveProjectile (s_projectiles s))) s.

(** [// Particles]. *)
Definition ageParticle (p : Particle) : Particle :=
  {| pt_x := pt_x p + pt_vx p; pt_y := pt_y p + pt_vy p;
     pt_vx := pt_vx p * 0.94; pt_vy := pt_vy p * 0.94;
     pt_life := pt_life p - 1; pt_maxLife := pt_maxLife p;
     pt_color := pt_color p; pt_radius := pt_radius p |}.

Definition particlePhase (s : GS) : GS :=
  set_particles
    (List.filter (fun p => Qltb 0 (pt_life p)) (map ageParticle (s_particles s))) s.

(** [// Floats]. *)
Definition ageFloat (f : FloatingText) : FloatingText :=
  {| f_x := f_x f; f_y := f_y f + f_vy f; f_text := f_text f;
     f_color := f_color f; f_life := f_life f - 1; f_maxLife := f_maxLife f;
     f_vy := f_vy f; f_scale := f_scale f |}.

Definition floatPhase (s : GS) : GS :=
  set_floats
    (List.filter (fun f => (0 <? f_life f)%Z) (map ageFloat (s_floats s))) s.

(** *** One frame *)

(** The frame after the wave, spawn and timer steps: enemies, projectiles,
    pickups and ageing. *)
Definition entityPhases (W H : Q) (mouse : Q * Q) (s : GS) : GS :=
  let '(s, dead) := enemyPhase W H s in
  let fr := projectilePhase W H (mkLocals s dead ∅) in
  let s := removeDead fr in
  let s := pickupPhase mouse s in
  let s := moveProjectiles W H s in
  let s := particlePhase s in
  floatPhase s.

(** The timer steps of a frame, in source order. *)
Definition timerPhases (W H : Q) (s : GS) : GS :=
  let s := wavePhase s in
  let s := spawnPhase W H s in
  let s := reloadPhase (W / 2) (H / 2) s in
  let s := cooldownPhase s in
  let s := comboPhase s in
  let s := powerupTimerPhase s in
  let s := shakePhase s in
  powerupAgePhase s.

(** [loop()], one animation frame. *)
Definition loop (W H : Q) (mouse : Q * Q) (s : GS) : GS :=
  if negb (s_alive s) then s
  else entityPhases W H mouse (timerPhases W H s).

(** The state the mount effect resets [s] to ([// Reset state]). *)
Definition initialState : GS :=
  {| s_hp := 100; s_score := 0; s_wave := 1;
     s_arrows := maxArrows diff; s_maxArrows := maxArrows diff;
     s_reloading := false; s_reloadProgress := 0; s_reloadTimer := 0;
     s_spawnTimer := 0; s_waveTimer := 0;
     s_enemies := []; s_projectiles := []; s_particles := [];
     s_floats := []; s_powerups := [];
     s_alive := true; s_bowPulse := 0; s_shootCooldown := 0;
     s_combo := 0; s_comboTimer := 0; s_killStreak := 0;
     s_shakeX := 0; s_shakeY := 0; s_shakePower := 0;
     s_activePowerup := None; s_powerupTimer := 0; s_rapidFire := false;
     s_waveAnnounce := 0; s_totalKills := 0; s_nextPowerupKill := 10;
     s_rng := 0; s_gameOverCalls := [] |}.

End Engine.

(** ** Inputs of a session

    React calls [loop] once per animation frame and [shoot] once per click,
    one at a time. *)
Inductive Input : Type :=
  | Frame (W H : Q) (mouse : Q * Q)
  | Click (canvas : option (Q * Q)) (mouse : Q * Q).

Definition step (M : MathObj) (diff : DiffCfg) (i : Input) (s : GS) : GS :=
  match i with
  | Frame W H mouse => loop M diff W H mouse s
  | Click canvas mouse => shoot M diff canvas mouse s
  end.

Definition run (M : MathObj) (diff : DiffCfg) (inputs : list Input) (s : GS) : GS :=
  foldl (fun s i => step M diff i s) s inputs.

(** The number of frames of [inputs] that pass the guard
    [if (!s.alive) return] of [loop]: the simulation steps taken. *)
Fixpoint simSteps (M : MathObj) (diff : DiffCfg) (inputs : list Input)
    (s : GS) : nat :=
  match inputs with
  | [] => 0
  | i :: rest =>
      ((match i with
        | Frame _ _ _ => if s_alive s then 1 else 0
        | Click _ _ => 0
        end) + simSteps M diff rest (step M diff i s))%nat
  end.

(** ** The earlier revision ([src/game/GameCanvas.tsx])

    The repository also carries the revision of [GameCanvas] without combos
    and power-ups.  Its [shoot] and the simulation half of its [loop] are
    embedded here on the same entity model. *)
Module Legacy.

Record DiffCfg : Type := mkDiff {
  spawnRate : Z;
  enemySpeedMult : Q;
  playerDamageMult : Q;
  maxArrows : Z
}.

Definition DIFFICULTY (d : Difficulty) : DiffCfg :=
  match d with
  | easy   => mkDiff 180 0.7 0.6 12
  | normal => mkDiff 120 1.0 1.0 8
  | hard   => mkDiff 70 1.4 1.4 5
  end.

(** [gameStateRef.current], with the two model fields of [GS]. *)
Record LS : Type := mkLS {
  l_hp : Q;
  l_score : Z;
  l_wave : Z;
  l_arrows : Z;
  l_maxArrows : Z;
  l_reloading : bool;
  l_reloadProgress : Q;
  l_reloadTimer : Z;
  l_spawnTimer : Z;
  l_waveTimer : Z;
  l_enemies : list Enemy;
  l_projectiles : list Projectile;
  l_particles : list Particle;
  l_alive : bool;
  l_bowPulse : Z;
  l_canShoot : bool;
  l_shootCooldown : Z;
  l_rng : nat;
  l_gameOverCalls : list Z
}.

Definition lset_hp (v : Q) (s : LS) : LS :=
  {| l_hp := v; l_score := l_score s; l_wave := l_wave s; l_arrows := l_arrows
     s; l_maxArrows := l_maxArrows s; l_reloading := l_reloading s;
     l_reloadProgress := l_reloadProgress s; l_reloadTimer := l_reloadTimer s;
     l_spawnTimer := l_spawnTimer s; l_waveTimer := l_waveTimer s; l_enemies
     := l_enemies s; l_projectiles := l_projectiles s; l_particles :=
     l_particles s; l_alive := l_alive s; l_bowPulse := l_bowPulse s;
     l_canShoot := l_canShoot s; l_shootCooldown := l_shootCooldown s; l_rng
     := l_rng s; l_gameOverCalls := l_gameOverCalls s |}.
Definition lset_score (v : Z) (s : LS) : LS :=
  {| l_hp := l_hp s; l_score := v; l_wave := l_wave s; l_arrows := l_arrows s;
     l_maxArrows := l_maxArrows s; l_reloading := l_reloading s;
     l_reloadProgress := l_reloadProgress s; l_reloadTimer := l_reloadTimer s;
     l_spawnTimer := l_spawnTimer s; l_waveTimer := l_waveTimer s; l_enemies
     := l_enemies s; l_projectiles := l_projectiles s; l_particles :=
     l_particles s; l_alive := l_alive s; l_bowPulse := l_bowPulse s;
     l_canShoot := l_canShoot s; l_shootCooldown := l_shootCooldown s; l_rng
     := l_rng s; l_gameOverCalls := l_gameOverCalls s |}.
Definition lset_wave (v : Z) (s : LS) : LS :=
  {| l_hp := l_hp s; l_score := l_score s; l_wave := v; l_arrows := l_arrows
     s; l_maxArrows := l_maxArrows s; l_reloading := l_reloading s;
     l_reloadProgress := l_reloadProgress s; l_reloadTimer := l_reloadTimer s;
     l_spawnTimer := l_spawnTimer s; l_waveTimer := l_waveTimer s; l_enemies
     := l_enemies s; l_projectiles := l_projectiles s; l_particles :=
     l_particles s; l_alive := l_alive s; l_bowPulse := l_bowPulse s;
     l_canShoot := l_canShoot s; l_shootCooldown := l_shootCooldown s; l_rng
     := l_rng s; l_gameOverCalls := l_gameOverCalls s |}.
Definition lset_arrows (v : Z) (s : LS) : LS :=
  {| l_hp := l_hp s; l_score := l_score s; l_wave := l_wave s; l_arrows := v;
     l_maxArrows := l_maxArrows s; l_reloading := l_reloading s;
     l_reloadProgress := l_reloadProgress s; l_reloadTimer := l_reloadTimer s;
     l_spawnTimer := l_spawnTimer s; l_waveTimer := l_waveTimer s; l_enemies
     := l_enemies s; l_projectiles := l_projectiles s; l_particles :=
     l_particles s; l_alive := l_alive s; l_bowPulse := l_bowPulse s;
     l_canShoot := l_canShoot s; l_shootCooldown := l_shootCooldown s; l_rng
     := l_rng s; l_gameOverCalls := l_gameOverCalls s |}.
Definition lset_reloading (v : bool) (s : LS) : LS :=
  {| l_hp := l_hp s; l_score := l_score s; l_wave := l_wave s; l_arrows :=
     l_arrows s; l_maxArrows := l_maxArrows s; l_reloading := v;
     l_reloadProgress := l_reloadProgress s; l_reloadTimer := l_reloadTimer s;
     l_spawnTimer := l_spawnTimer s; l_waveTimer := l_waveTimer s; l_enemies
     := l_enemies s; l_projectiles := l_projectiles s; l_particles :=
     l_particles s; l_alive := l_alive s; l_bowPulse := l_bowPulse s;
     l_canShoot := l_canShoot s; l_shootCooldown := l_shootCooldown s; l_rng
     := l_rng s; l_gameOverCalls := l_gameOverCalls s |}.
Definition lset_reloadProgress (v : Q) (s : LS) : LS :=
  {| l_hp := l_hp s; l_score := l_score s; l_wave := l_wave s; l_arrows :=
     l_arrows s; l_maxArrows := l_maxArrows s; l_reloading := l_reloading s;
     l_reloadProgress := v; l_reloadTimer := l_reloadTimer s; l_spawnTimer :=
     l_spawnTimer s; l_waveTimer := l_waveTimer s; l_enemies := l_enemies s;
     l_projectiles := l_projectiles s; l_particles := l_particles s; l_alive
     := l_alive s; l_bowPulse := l_bowPulse s; l_canShoot := l_canShoot s;
     l_shootCooldown := l_shootCooldown s; l_rng := l_rng s; l_gameOverCalls
     := l_gameOverCalls s |}.
Definition lset_reloadTimer (v : Z) (s : LS) : LS :=
  {| l_hp := l_hp s; l_score := l_score s; l_wave := l_wave s; l_arrows :=
     l_arrows s; l_maxArrows := l_maxArrows s; l_reloading := l_reloading s;
     l_reloadProgress := l_reloadProgress s; l_reloadTimer := v; l_spawnTimer
     := l_spawnTimer s; l_waveTimer := l_waveTimer s; l_enemies := l_enemies
     s; l_projectiles := l_projectiles s; l_particles := l_particles s;
     l_alive := l_alive s; l_bowPulse := l_bowPulse s; l_canShoot :=
     l_canShoot s; l_shootCooldown := l_shootCooldown s; l_rng := l_rng s;
     l_gameOverCalls := l_gameOverCalls s |}.
Definition lset_spawnTimer (v : Z) (s : LS) : LS :=
  {| l_hp := l_hp s; l_score := l_score s; l_wave := l_wave s; l_arrows :=
     l_arrows s; l_maxArrows := l_maxArrows s; l_reloading := l_reloading s;
     l_reloadProgress := l_reloadProgress s; l_reloadTimer := l_reloadTimer s;
     l_spawnTimer := v; l_waveTimer := l_waveTimer s; l_enemies := l_enemies
     s; l_projectiles := l_projectiles s; l_particles := l_particles s;
     l_alive := l_alive s; l_bowPulse := l_bowPulse s; l_canShoot :=
     l_canShoot s; l_shootCooldown := l_shootCooldown s; l_rng := l_rng s;
     l_gameOverCalls := l_gameOverCalls s |}.
Definition lset_waveTimer (v : Z) (s : LS) : LS :=
  {| l_hp := l_hp s; l_score := l_score s; l_wave := l_wave s; l_arrows :=
     l_arrows s; l_maxArrows := l_maxArrows s; l_reloading := l_reloading s;
     l_reloadProgress := l_reloadProgress s; l_reloadTimer := l_reloadTimer s;
     l_spawnTimer := l_spawnTimer s; l_waveTimer := v; l_enemies := l_enemies
     s; l_projectiles := l_projectiles s; l_particles := l_particles s;
     l_alive := l_alive s; l_bowPulse := l_bowPulse s; l_canShoot :=
     l_canShoot s; l_shootCooldown := l_shootCooldown s; l_rng := l_rng s;
     l_gameOverCalls := l_gameOverCalls s |}.
Definition lset_enemies (v : list Enemy) (s : LS) : LS :=
  {| l_hp := l_hp s; l_score := l_score s; l_wave := l_wave s; l_arrows :=
     l_arrows s; l_maxArrows := l_maxArrows s; l_reloading := l_reloading s;
     l_reloadProgress := l_reloadProgress s; l_reloadTimer := l_reloadTimer s;
     l_spawnTimer := l_spawnTimer s; l_waveTimer := l_waveTimer s; l_enemies
     := v; l_projectiles := l_projectiles s; l_particles := l_particles s;
     l_alive := l_alive s; l_bowPulse := l_bowPulse s; l_canShoot :=
     l_canShoot s; l_shootCooldown := l_shootCooldown s; l_rng := l_rng s;
     l_gameOverCalls := l_gameOverCalls s |}.
Definition lset_projectiles (v : list Projectile) (s : LS) : LS :=
  {| l_hp := l_hp s; l_score := l_score s; l_wave := l_wave s; l_arrows :=
     l_arrows s; l_maxArrows := l_maxArrows s; l_reloading := l_reloading s;
     l_reloadProgress := l_reloadProgress s; l_reloadTimer := l_reloadTimer s;
     l_spawnTimer := l_spawnTimer s; l_waveTimer := l_waveTimer s; l_enemies
     := l_enemies s; l_projectiles := v; l_particles := l_particles s; l_alive
     := l_alive s; l_bowPulse := l_bowPulse s; l_canShoot := l_canShoot s;
     l_shootCooldown := l_shootCooldown s; l_rng := l_rng s; l_gameOverCalls
     := l_gameOverCalls s |}.
Definition lset_particles (v : list Particle) (s : LS) : LS :=
  {| l_hp := l_hp s; l_score := l_score s; l_wave := l_wave s; l_arrows :=
     l_arrows s; l_maxArrows := l_maxArrows s; l_reloading := l_reloading s;
     l_reloadProgress := l_reloadProgress s; l_reloadTimer := l_reloadTimer s;
     l_spawnTimer := l_spawnTimer s; l_waveTimer := l_waveTimer s; l_enemies
     := l_enemies s; l_projectiles := l_projectiles s; l_particles := v;
     l_alive := l_alive s; l_bowPulse := l_bowPulse s; l_canShoot :=
     l_canShoot s; l_shootCooldown := l_shootCooldown s; l_rng := l_rng s;
     l_gameOverCalls := l_gameOverCalls s |}.
Definition lset_alive (v : bool) (s : LS) : LS :=
  {| l_hp := l_hp s; l_score := l_score s; l_wave := l_wave s; l_arrows :=
     l_arrows s; l_maxArrows := l_maxArrows s; l_reloading := l_reloading s;
     l_reloadProgress := l_reloadProgress s; l_reloadTimer := l_reloadTimer s;
     l_spawnTimer := l_spawnTimer s; l_waveTimer := l_waveTimer s; l_enemies
     := l_enemies s; l_projectiles := l_projectiles s; l_particles :=
     l_particles s; l_alive := v; l_bowPulse := l_bowPulse s; l_canShoot :=
     l_canShoot s; l_shootCooldown := l_shootCooldown s; l_rng := l_rng s;
     l_gameOverCalls := l_gameOverCalls s |}.
Definition lset_bowPulse (v : Z) (s : LS) : LS :=
  {| l_hp := l_hp s; l_score := l_score s; l_wave := l_wave s; l_arrows :=
     l_arrows s; l_maxArrows := l_maxArrows s; l_reloading := l_reloading s;
     l_reloadProgress := l_reloadProgress s; l_reloadTimer := l_reloadTimer s;
     l_spawnTimer := l_spawnTimer s; l_waveTimer := l_waveTimer s; l_enemies
     := l_enemies s; l_projectiles := l_projectiles s; l_particles :=
     l_particles s; l_alive := l_alive s; l_bowPulse := v; l_canShoot :=
     l_canShoot s; l_shootCooldown := l_shootCooldown s; l_rng := l_rng s;
     l_gameOverCalls := l_gameOverCalls s |}.
Definition lset_shootCooldown (v : Z) (s : LS) : LS :=
  {| l_hp := l_hp s; l_score := l_score s; l_wave := l_wave s; l_arrows :=
     l_arrows s; l_maxArrows := l_maxArrows s; l_reloading := l_reloading s;
     l_reloadProgress := l_reloadProgress s; l_reloadTimer := l_reloadTimer s;
     l_spawnTimer := l_spawnTimer s; l_waveTimer := l_waveTimer s; l_enemies
     := l_enemies s; l_projectiles := l_projectiles s; l_particles :=
     l_particles s; l_alive := l_alive s; l_bowPulse := l_bowPulse s;
     l_canShoot := l_canShoot s; l_shootCooldown := v; l_rng := l_rng s;
     l_gameOverCalls := l_gameOverCalls s |}.
Definition lset_rng (v : nat) (s : LS) : LS :=
  {| l_hp := l_hp s; l_score := l_score s; l_wave := l_wave s; l_arrows :=
     l_arrows s; l_maxArrows := l_maxArrows s; l_reloading := l_reloading s;
     l_reloadProgress := l_reloadProgress s; l_reloadTimer := l_reloadTimer s;
     l_spawnTimer := l_spawnTimer s; l_waveTimer := l_waveTimer s; l_enemies
     := l_enemies s; l_projectiles := l_projectiles s; l_particles :=
     l_particles s; l_alive := l_alive s; l_bowPulse := l_bowPulse s;
     l_canShoot := l_canShoot s; l_shootCooldown := l_shootCooldown s; l_rng
     := v; l_gameOverCalls := l_gameOverCalls s |}.
Definition lset_gameOverCalls (v : list Z) (s : LS) : LS :=
  {| l_hp := l_hp s; l_score := l_score s; l_wave := l_wave s; l_arrows :=
     l_arrows s; l_maxArrows := l_maxArrows s; l_reloading := l_reloading s;
     l_reloadProgress := l_reloadProgress s; l_reloadTimer := l_reloadTimer s;
     l_spawnTimer := l_spawnTimer s; l_waveTimer := l_waveTimer s; l_enemies
     := l_enemies s; l_projectiles := l_projectiles s; l_particles :=
     l_particles s; l_alive := l_alive s; l_bowPulse := l_bowPulse s;
     l_canShoot := l_canShoot s; l_shootCooldown := l_shootCooldown s; l_rng
     := l_rng s; l_gameOverCalls := v |}.

Section Engine.

Variable M : MathObj.
Variable diff : DiffCfg.

Definition pushParticle (x y : Q) (color : string) (count : nat)
    (s : LS) (i : nat) : LS :=
  let n := l_rng s in
  let angle := (PI M * 2 * inject_Z (Z.of_nat i)) / inject_Z (Z.of_nat count)
               + random M n * 0.5 in
  let speed := 1.5 + random M (n + 1) * 3 in
  let p := {| pt_x := x; pt_y := y;
              pt_vx := cos M angle * speed;
              pt_vy := sin M angle * speed;
              pt_life := 40 + random M (n + 2) * 20;
              pt_maxLife := 60;
              pt_color := color;
              pt_radius := 2 + random M (n + 3) * 3 |} in
  lset_rng (n + 4)%nat (lset_particles (l_particles s ++ [p]) s).

Definition spawnParticles (x y : Q) (color : string) (count : nat)
    (s : LS) : LS :=
  foldl (pushParticle x y color count) s (seq 0 count).

(** [shoot()]. *)
Definition shoot (canvas : option (Q * Q)) (mouse : Q * Q) (s : LS) : LS :=
  if negb (l_alive s) || l_reloading s || (l_arrows s <=? 0)%Z
     || (0 <? l_shootCooldown s)%Z then s else
  match canvas with
  | None => s
  | Some (W, H) =>
      let cx := W / 2 in
      let cy := H / 2 in
      let dx := fst mouse - cx in
      let dy := snd mouse - cy in
      let dist := len M dx dy in
      if Qeq_bool dist 0 then s else
      let speed : Q := 14 in
      let s := lset_projectiles
                 (l_projectiles s ++
                   [{| p_x := cx; p_y := cy;
                       p_vx := dx / dist * speed;
                       p_vy := dy / dist * speed;
                       p_radius := 4; p_trail := [];
                       p_piercing := false |}]) s in
      let s := lset_arrows (l_arrows s - 1)%Z s in
      let s := lset_shootCooldown 12%Z s in
      let s := lset_bowPulse 15%Z s in
      if (l_arrows s <=? 0)%Z then
        let s := lset_reloading true s in
        let s := lset_reloadTimer 180%Z s in
        lset_reloadProgress 0 s
      else s
  end.

(** [// Spawn enemies]. *)
Definition spawnPhase (W H : Q) (s : LS) : LS :=
  let s := lset_spawnTimer (l_spawnTimer s + 1)%Z s in
  let s := lset_waveTimer (l_waveTimer s + 1)%Z s in
  let s := if (600 <? l_waveTimer s)%Z
           then lset_waveTimer 0%Z (lset_wave (l_wave s + 1)%Z s) else s in
  let rate := Z.max 40 (spawnRate diff - l_wave s * 5) in
  if (rate <=? l_spawnTimer s)%Z then
    let s := lset_spawnTimer 0%Z s in
    let pool :=
      if (5 <=? l_wave s)%Z then ENEMY_TYPES
      else take (Z.to_nat (Z.min (l_wave s + 1)
                             (Z.of_nat (length ENEMY_TYPES)))) ENEMY_TYPES in
    let n := l_rng s in
    let k := Qfloor (random M n * inject_Z (Z.of_nat (length pool))) in
    let s := lset_rng (S n) s in
    match pool !! Z.to_nat k with
    | None => s
    | Some type =>
        let '(e, n) := createEnemy M type W H None (l_rng s) in
        let s := lset_rng n s in
        let e := eset_speed (e_speed e * enemySpeedMult diff) e in
        let e := eset_vx (e_vx e * enemySpeedMult diff) e in
        let e := eset_vy (e_vy e * enemySpeedMult diff) e in
        lset_enemies (l_enemies s ++ [e]) s
    end
  else s.

(** [// Reload]. *)
Definition reloadPhase (cx cy : Q) (s : LS) : LS :=
  if l_reloading s then
    let s := lset_reloadTimer (l_reloadTimer s - 1)%Z s in
    let s := lset_reloadProgress (1 - inject_Z (l_reloadTimer s) / 180) s in
    if (l_reloadTimer s <=? 0)%Z then
      let s := lset_reloading false s in
      let s := lset_arrows (l_maxArrows s) s in
      let s := lset_reloadProgress 0 s in
      spawnParticles cx cy "#00ffff" 6 s
    else s
  else s.

Definition cooldownPhase (s : LS) : LS :=
  let s := if (0 <? l_shootCooldown s)%Z
           then lset_shootCooldown (l_shootCooldown s - 1)%Z s else s in
  if (0 <? l_bowPulse s)%Z then lset_bowPulse (l_bowPulse s - 1)%Z s else s.

(** The [switch (e.pattern)] of this revision. *)
Definition moveEnemy (W H : Q) (e : Enemy) (s : LS) : Enemy * LS :=
  let cx := W / 2 in
  let cy := H / 2 in
  match e_pattern e with
  | straight | split =>
      let e := eset_x (e_x e + e_vx e) e in
      let e := eset_y (e_y e + e_vy e) e in
      (e, s)
  | zigzag =>
      let e := eset_zigzagTimer (e_zigzagTimer e + 1)%Z e in
      let e := eset_x (e_x e + e_vx e) e in
      let e := eset_y (e_y e + e_vy e) e in
      if (Z.rem (e_zigzagTimer e) 40 =? 0)%Z then
        let perpx := - e_vy e / e_speed e in
        let perpy := e_vx e / e_speed e in
        let flip : Q := if Qgtb (random M (l_rng s)) 0.5 then 1 else - (1) in
        let s := lset_rng (S (l_rng s)) s in
        let e := eset_vx ((e_vx e / e_speed e + perpx * flip * 1.5)
                          * e_speed e * 0.7) e in
        let e := eset_vy ((e_vy e / e_speed e + perpy * flip * 1.5)
                          * e_speed e * 0.7) e in
        let spd := len M (e_vx e) (e_vy e) in
        let e := eset_vx (e_vx e / spd * e_speed e) e in
        let e := eset_vy (e_vy e / spd * e_speed e) e in
        (e, s)
      else (e, s)
  | chase =>
      let dx := cx - e_x e in
      let dy := cy - e_y e in
      let d := len M dx dy in
      let e := eset_vx (dx / d * e_speed e) e in
      let e := eset_vy (dy / d * e_speed e) e in
      let e := eset_x (e_x e + e_vx e) e in
      let e := eset_y (e_y e + e_vy e) e in
      (e, s)
  | teleport =>
      let e := eset_x (e_x e + e_vx e) e in
      let e := eset_y (e_y e + e_vy e) e in
      let e := eset_teleportTimer (e_teleportTimer e - 1) e in
      if Qleb (e_teleportTimer e) 0 then
        let e := eset_teleportTimer (120 + random M (l_rng s) * 120) e in
        let s := lset_rng (S (l_rng s)) s in
        let '(newE, n) := createEnemy M (typeOf e) W H None (l_rng s) in
        let s := lset_rng n s in
        let e := eset_x (e_x newE) e in
        let e := eset_y (e_y newE) e in
        let s := spawnParticles (e_x e) (e_y e) (e_color e) 5 s in
        (e, s)
      else (e, s)
  | bounce =>
      let e := eset_x (e_x e + e_vx e) e in
      let e := eset_y (e_y e + e_vy e) e in
      let e := if Qltb (e_x e - e_radius e) 0 || Qgtb (e_x e + e_radius e) W
               then eset_vx (e_vx e * - (1)) e else e in
      let e := if Qltb (e_y e - e_radius e) 0 || Qgtb (e_y e + e_radius e) H
               then eset_vy (e_vy e * - (1)) e else e in
      (e, s)
  | spiral =>
      let dx := cx - e_x e in
      let dy := cy - e_y e in
      let d := len M dx dy in
      let e := eset_angle (e_angle e + 0.04) e in
      let e := eset_vx (cos M (e_angle e) * e_speed e + dx / d * 0.5) e in
      let e := eset_vy (sin M (e_angle e) * e_speed e + dy / d * 0.5) e in
      let e := eset_x (e_x e + e_vx e) e in
      let e := eset_y (e_y e + e_vy e) e in
      (e, s)
  end.

Definition pulseEnemy (e : Enemy) : Enemy :=
  if e_pulseGrowing e then
    let e := eset_pulseRadius (e_pulseRadius e + 0.15) e in
    if Qgtb (e_pulseRadius e) (e_radius e + 4)
    then eset_pulseGrowing false e else e
  else
    let e := eset_pulseRadius (e_pulseRadius e - 0.15) e in
    if Qltb (e_pulseRadius e) (e_radius e)
    then eset_pulseGrowing true e else e.

(** The callback of [s.enemies.forEach] in [// Update enemies]. *)
Definition enemyCallback (W H : Q) (e : Enemy) (i : nat)
    (st : LS * list nat) : LS * list nat :=
  let '(s, dead) := st in
  let cx := W / 2 in
  let cy := H / 2 in
  let e := if (0 <? e_flashTimer e)%Z
           then eset_flashTimer (e_flashTimer e - 1)%Z e else e in
  let '(e, s) := moveEnemy W H e s in
  let e := pulseEnemy e in
  let e := eset_angle (e_angle e + 0.01) e in
  let s := lset_enemies (<[i := e]> (l_enemies s)) s in
  let dx := e_x e - cx in
  let dy := e_y e - cy in
  let dist := len M dx dy in
  let '(s, dead) :=
    if Qltb dist (e_radius e + 20) then
      let s := lset_hp (Qmax 0 (l_hp s - e_damage e * playerDamageMult diff
                                         * 0.016)) s in
      let s := spawnParticles cx cy "#ff0000" 3 s in
      let dead := dead ++ [i] in
      if Qleb (l_hp s) 0 then
        let s := lset_alive false s in
        (lset_gameOverCalls (l_gameOverCalls s ++ [l_score s]) s, dead)
      else (s, dead)
    else (s, dead) in
  if Pattern_eqb (e_pattern e) bounce then (s, dead)
  else
    let margin : Q := 200 in
    if Qltb (e_x e) (- margin) || Qgtb (e_x e) (W + margin)
       || Qltb (e_y e) (- margin) || Qgtb (e_y e) (H + margin)
    then (s, dead ++ [i]) else (s, dead).

Definition enemyPhase (W H : Q) (s : LS) : LS * list nat :=
  forEach (enemyCallback W H) (l_enemies s) (s, []).

(** The callback of the inner [s.enemies.forEach] of [// Check projectile
    hits], for the projectile [p] the outer loop found at index [pi]. *)
Definition hitCallback (W H : Q) (p : Projectile) (pi : nat)
    (e : Enemy) (ei : nat) (st : LS * list nat) : LS * list nat :=
  let '(s, dead) := st in
  let dx := p_x p - e_x e in
  let dy := p_y p - e_y e in
  let dist := len M dx dy in
  if Qltb dist (p_radius p + e_radius e) then
    let e := eset_hp (e_hp e - 1)%Z e in
    let e := eset_flashTimer 8%Z e in
    let s := lset_enemies (<[ei := e]> (l_enemies s)) s in
    let s := spawnParticles (e_x e) (e_y e) (e_color e) 5 s in
    let '(s, dead) :=
      if (e_hp e <=? 0)%Z then
        let s := lset_score (l_score s + e_points e * l_wave s)%Z s in
        let s := spawnParticles (e_x e) (e_y e) (e_color e) 15 s in
        let s :=
          if String.eqb (e_id e) "splitter" && negb (e_splitDone e) then
            let s := lset_enemies
                       (<[ei := eset_splitDone true e]> (l_enemies s)) s in
            match List.find (fun t => String.eqb (t_id t) "scout")
                    ENEMY_TYPES with
            | Some scout =>
                foldl
                  (fun s (_ : nat) =>
                     let n := l_rng s in
                     let ox := e_x e + (random M n - 0.5) * 40 in
                     let oy := e_y e + (random M (S n) - 0.5) * 40 in
                     let '(sp, n) :=
                       createEnemy M scout W H (Some (ox, oy)) (S (S n)) in
                     lset_rng n (lset_enemies (l_enemies s ++ [sp]) s))
                  s (seq 0 2)
            | None => s
            end
          else s in
        (s, if includes dead ei then dead else dead ++ [ei])
      else (s, dead) in
    if p_piercing p then (s, dead)
    else (lset_projectiles (delete pi (l_projectiles s)) s, dead)
  else (s, dead).

(** The callback of the outer [s.projectiles.forEach], called for index
    [pi].  The inner callback splices the array being iterated, so the
    element is read when its index is reached, and an index that has fallen
    off the end is skipped, as [forEach] does. *)
Definition projectileCallback (W H : Q) (st : LS * list nat) (pi : nat)
    : LS * list nat :=
  match l_projectiles (fst st) !! pi with
  | None => st
  | Some p => forEach (hitCallback W H p pi) (l_enemies (fst st)) st
  end.

Definition projectilePhase (W H : Q) (st : LS * list nat) : LS * list nat :=
  foldl (projectileCallback W H) st (seq 0 (length (l_projectiles (fst st)))).

Definition removeDead (st : LS * list nat) : LS :=
  lset_enemies (spliceAll (remove_dups (snd st)) (l_enemies (fst st))) (fst st).

Definition moveProjectile (p : Projectile) : Projectile :=
  let trail := p_trail p ++ [(p_x p, p_y p)] in
  let trail := if (10 <? length trail)%nat then tail trail else trail in
  {| p_x := p_x p + p_vx p; p_y := p_y p + p_vy p;
     p_vx := p_vx p; p_vy := p_vy p; p_radius := p_radius p;
     p_trail := trail; p_piercing := p_piercing p |}.

Definition onBoard (W H : Q) (p : Projectile) : bool :=
  Qgtb (p_x p) (- (50)) && Qltb (p_x p) (W + 50)
  && Qgtb (p_y p) (- (50)) && Qltb (p_y p) (H + 50).

Definition ageParticle (p : Particle) : Particle :=
  {| pt_x := pt_x p + pt_vx p; pt_y := pt_y p + pt_vy p;
     pt_vx := pt_vx p * 0.95; pt_vy := pt_vy p * 0.95;
     pt_life := pt_life p - 1; pt_maxLife := pt_maxLife p;
     pt_color := pt_color p; pt_radius := pt_radius p |}.

(** The frame up to the projectile hits, before [// Remove dead enemies]. *)
Definition hitsOfFrame (W H : Q) (s : LS) : LS * list nat :=
  let s := spawnPhase W H s in
  let s := reloadPhase (W / 2) (H / 2) s in
  let s := cooldownPhase s in
  projectilePhase W H (enemyPhase W H s).

(** [loop()], one animation frame. *)
Definition loop (W H : Q) (s : LS) : LS :=
  if negb (l_alive s) then s
  else
    let s := removeDead (hitsOfFrame W H s) in
    let s := lset_projectiles
               (List.filter (onBoard W H) (map moveProjectile (l_projectiles s))) s in
    lset_particles
      (List.filter (fun p => Qltb 0 (pt_life p)) (map ageParticle (l_particles s))) s.

Definition initialState : LS :=
  {| l_hp := 100; l_score := 0; l_wave := 1;
     l_arrows := maxArrows diff; l_maxArrows := maxArrows diff;
     l_reloading := false; l_reloadProgress := 0; l_reloadTimer := 0;
     l_spawnTimer := 0; l_waveTimer := 0;
     l_enemies := []; l_projectiles := []; l_particles := [];
     l_alive := true; l_bowPulse := 0; l_canShoot := true;
     l_shootCooldown := 0; l_rng := 0; l_gameOverCalls := [] |}.

End Engine.

(** A session of the earlier revision: the frames, each with the size the
    canvas has when [loop] reads it, and the clicks. *)
Definition step (M : MathObj) (diff : DiffCfg) (i : Input) (s : LS) : LS :=
  match i with
  | Frame W H _ => loop M diff W H s
  | Click canvas mouse => shoot M canvas mouse s
  end.

Definition run (M : MathObj) (diff : DiffCfg) (inputs : list Input)
    (s : LS) : LS :=
  foldl (fun s i => step M diff i s) s inputs.

End Legacy.

(** ** The renormalisations on IEEE-754 doubles

    The three movement branches that divide by the length of a vector,
    embedded on Rocq's primitive binary64 floats, which are the numbers
    JavaScript computes with ([0 / 0] is [NaN], and every comparison with
    [NaN] is false).  Only the kinematic fields of an enemy are kept. *)
Set Warnings "-inexact-float".

Module Float64.

Local Open Scope float_scope.

Record Body : Type := mkBody {
  b_x : float;
  b_y : float;
  b_vx : float;
  b_vy : float;
  b_speed : float;
  b_angle : float
}.

Definition len (dx dy : float) : float := PrimFloat.sqrt (dx * dx + dy * dy).

(** [case 'chase'], for the board centre [(cx, cy)]. *)
Definition chase (cx cy : float) (e : Body) : Body :=
  let dx := cx - b_x e in
  let dy := cy - b_y e in
  let d := len dx dy in
  let accel := 0.08 in
  let vx := b_vx e + dx / d * b_speed e * accel in
  let vy := b_vy e + dy / d * b_speed e * accel in
  let curSpd := len vx vy in
  let '(vx, vy) :=
    if PrimFloat.ltb (b_speed e) curSpd
    then (vx / curSpd * b_speed e, vy / curSpd * b_speed e)
    else (vx, vy) in
  mkBody (b_x e + vx) (b_y e + vy) vx vy (b_speed e) (b_angle e).

(** The body of [if (e.zigzagTimer % 35 === 0)] in [case 'zigzag'], after
    the move; [flip] is [1] or [-1]. *)
Definition zigzagKick (flip : float) (e : Body) : Body :=
  let perpx := - b_vy e / b_speed e in
  let perpy := b_vx e / b_speed e in
  let vx := (b_vx e / b_speed e + perpx * flip * 1.8) * b_speed e * 0.65 in
  let vy := (b_vy e / b_speed e + perpy * flip * 1.8) * b_speed e * 0.65 in
  let spd := len vx vy in
  mkBody (b_x e) (b_y e) (vx / spd * b_speed e) (vy / spd * b_speed e)
    (b_speed e) (b_angle e).

(** [case 'spiral']; [cosf] and [sinf] stand for [Math.cos] and
    [Math.sin]. *)
Definition spiralMove (cosf sinf : float -> float) (cx cy : float)
    (e : Body) : Body :=
  let dx := cx - b_x e in
  let dy := cy - b_y e in
  let d := len dx dy in
  let angle := b_angle e + 0.05 in
  let vx := cosf angle * b_speed e * 0.8 + dx / d * b_speed e * 0.6 in
  let vy := sinf angle * b_speed e * 0.8 + dy / d * b_speed e * 0.6 in
  let spd := len vx vy in
  let vx := vx / spd * b_speed e in
  let vy := vy / spd * b_speed e in
  mkBody (b_x e + vx) (b_y e + vy) vx vy (b_speed e) angle.

(** The bow-contact and off-board tests of the enemy update, which are the
    only ways an enemy leaves the board without being shot. *)
Definition touchesBow (cx cy radius : float) (e : Body) : bool :=
  PrimFloat.ltb (len (b_x e - cx) (b_y e - cy)) (radius + 22).

Definition offBoard (W H : float) (e : Body) : bool :=
  let margin := 220 in
  PrimFloat.ltb (b_x e) (- margin) || PrimFloat.ltb (W + margin) (b_x e)
  || PrimFloat.ltb (b_y e) (- margin) || PrimFloat.ltb (H + margin) (b_y e).

End Float64.

(** ** A concrete [Math] object, to run the engine on examples

    [sqrt] is exact on squares of rationals and rounds down elsewhere; [cos],
    [sin] and [atan2] are short rational approximations; [random] is a fixed
    sequence in [0, 1). *)
Module Eval.

Definition sqrt (q : Q) : Q :=
  Qred (Qmake (Z.sqrt (Qnum q * Zpos (Qden q))) (Qden q)).

Definition PI : Q := 3.14159265.

Definition cos (x : Q) : Q :=
  let x2 := x * x in
  Qred (1 - x2 / 2 + x2 * x2 / 24 - x2 * x2 * x2 / 720).

Definition sin (x : Q) : Q :=
  let x2 := x * x in
  Qred (x - x * x2 / 6 + x * x2 * x2 / 120 - x * x2 * x2 * x2 / 5040).

Definition atan (z : Q) : Q := z / (1 + 0.28 * z * z).

Definition atan2 (y x : Q) : Q :=
  if Qeq_bool x 0 && Qeq_bool y 0 then 0
  else if Qle_bool (Qabs y) (Qabs x) then
    if Qle_bool 0 x then Qred (atan (y / x))
    else if Qle_bool 0 y then Qred (atan (y / x) + PI)
    else Qred (atan (y / x) - PI)
  else
    if Qle_bool 0 y then Qred (PI / 2 - atan (x / y))
    else Qred (- PI / 2 - atan (x / y)).

Definition random (n : nat) : Q :=
  Qred (Qmake ((Z.of_nat n * 7919 + 4001) mod 10007) 10007).

Definition math : MathObj := mkMath sqrt cos sin atan2 PI random.

End Eval.

(** * The leaderboard of the start screen ([Index.tsx]) *)

Module Index.

(** A JavaScript string is a sequence of UTF-16 code units. *)
Definition JsString : Type := list N.

Inductive Screen : Type :=
  | menu | game | gameover | leaderboard | settings | help.

Record LeaderEntry : Type := mkEntry {
  name : JsString;
  score : Z;
  wave : Z;
  date : JsString
}.

(** What the browser supplies to [saveScore]: [String.prototype.trim] and
    [toUpperCase], and today's date as [toLocaleDateString('ru-RU')] prints
    it. *)
Record Host : Type := mkHost {
  trim : JsString -> JsString;
  toUpperCase : JsString -> JsString;
  today : JsString
}.

(** The React state of the page that [saveScore] reads or writes, and the
    two keys of [localStorage]; a stored board is kept as the list that
    [JSON.stringify] was given. *)
Record App : Type := mkApp {
  a_screen : Screen;
  a_leaderboard : list LeaderEntry;
  a_lastScore : Z;
  a_lastWave : Z;
  a_playerName : JsString;
  a_nameInput : JsString;
  a_showNameInput : bool;
  neon_archer_lb : option (list LeaderEntry);
  neon_archer_name : option JsString
}.

(** [Array.prototype.sort] with a comparator.  The sort is stable, and for a
    comparator that is a total preorder every stable sort gives the same
    array: [x], which came before the elements of [l], goes in front of the
    first [y] that the comparator does not put before it. *)
Fixpoint insertBefore {A} (cmp : A -> A -> Z) (x : A) (l : list A) : list A :=
  match l with
  | [] => [x]
  | y :: r =>
      if (cmp x y <=? 0)%Z then x :: y :: r else y :: insertBefore cmp x r
  end.

Definition sort {A} (cmp : A -> A -> Z) (l : list A) : list A :=
  foldr (insertBefore cmp) [] l.

(** [(a, b) => b.score - a.score] *)
Definition byScore (a b : LeaderEntry) : Z := (score b - score a)%Z.

(** [saveScore] *)
Definition saveScore (h : Host) (a : App) : App :=
  let typed := trim h (a_nameInput a) in
  let name :=
    take 10 (toUpperCase h
               (match typed with [] => a_playerName a | _ => typed end)) in
  let newEntry := mkEntry name (a_lastScore a) (a_lastWave a) (today h) in
  let updated := take 10 (sort byScore (a_leaderboard a ++ [newEntry])) in
  mkApp leaderboard updated (a_lastScore a) (a_lastWave a) name
    (a_nameInput a) false (Some updated) (Some name).

(** The mount effect: the stored board and name replace the initial ones.
    An empty string is falsy, so an empty stored name is not taken. *)
Definition loadSaved (a : App) : App :=
  let a :=
    match neon_archer_lb a with
    | Some saved =>
        mkApp (a_screen a) saved (a_lastScore a) (a_lastWave a)
          (a_playerName a) (a_nameInput a) (a_showNameInput a)
          (neon_archer_lb a) (neon_archer_name a)
    | None => a
    end in
  match neon_archer_name a with
  | Some (c :: savedName) =>
      mkApp (a_screen a) (a_leaderboard a) (a_lastScore a) (a_lastWave a)
        (c :: savedName) (a_nameInput a) (a_showNameInput a)
        (neon_archer_lb a) (neon_archer_name a)
  | _ => a
  end.

(** The entry that [saveScore] adds. *)
Definition newEntry (h : Host) (a : App) : LeaderEntry :=
  let typed := trim h (a_nameInput a) in
  mkEntry
    (take 10 (toUpperCase h
                (match typed with [] => a_playerName a | _ => typed end)))
    (a_lastScore a) (a_lastWave a) (today h).

(** Highest score first. *)
Definition ranked (l : list LeaderEntry) : Prop :=
  StronglySorted (fun x y => (score y <= score x)%Z) l.

(** The number of entries of [l] that score at least [v]. *)
Definition atLeast (v : Z) (l : list LeaderEntry) : nat :=
  length (List.filter (fun e => (v <=? score e)%Z) l).

(** The place of an entry among ranked ones: behind those that score as
    much or more. *)
Fixpoint insertBehind (x : LeaderEntry) (l : list LeaderEntry) :
    list LeaderEntry :=
  match l with
  | [] => [x]
  | y :: r =>
      if (score y <? score x)%Z then x :: y :: r else y :: insertBehind x r
  end.

End Index.

(** A host for plain ASCII text: [trim] strips spaces, [toUpperCase] maps
    the letters a-z. *)
Module EvalIndex.

Fixpoint trimStart (l : Index.JsString) : Index.JsString :=
  match l with
  | c :: r => if (c =? 32)%N then trimStart r else l
  | [] => []
  end.

Definition trim (l : Index.JsString) : Index.JsString :=
  rev (trimStart (rev (trimStart l))).

Definition toUpperCase (l : Index.JsString) : Index.JsString :=
  map (fun c => if ((97 <=? c) && (c <=? 122))%N then (c - 32)%N else c) l.

(** The date 03.11.2026. *)
Definition host : Index.Host :=
  Index.mkHost trim toUpperCase [48; 51; 46; 49; 49; 46; 50; 48; 50; 54]%N.

End EvalIndex.

(** * Vocabulary of the properties *)

(** The fields that only [shoot], [wavePhase] and [reloadPhase] write. *)
Definition timers (s : GS) : Z * Z * bool * Z * Q * Z * Z * Z :=
  (s_arrows s, s_maxArrows s, s_reloading s, s_reloadTimer s,
   s_reloadProgress s, s_wave s, s_waveTimer s, s_waveAnnounce s).

(** The part of [timers] that [shoot] leaves alone. *)
Definition waves (s : GS) : Z * Z * Z :=
  (s_wave s, s_waveTimer s, s_waveAnnounce s).

(** The score and the combo counter with its decay window. *)
Definition scoring (s : GS) : Z * Z * Z :=
  (s_score s, s_combo s, s_comboTimer s).

(** The effect of [wavePhase] and [reloadPhase] on the timers, as functions
    of the timers alone. *)
Definition waveTimers (t : Z * Z * bool * Z * Q * Z * Z * Z) :
    Z * Z * bool * Z * Q * Z * Z * Z :=
  let '(a, m, r, rt, rp, w, wt, wa) := t in
  let wt := (wt + 1)%Z in
  let '(w, wt, wa) := if (700 <? wt)%Z then ((w + 1)%Z, 0%Z, 150%Z)
                      else (w, wt, wa) in
  let wa := if (0 <? wa)%Z then (wa - 1)%Z else wa in
  (a, m, r, rt, rp, w, wt, wa).

Definition reloadTimers (D : Z) (t : Z * Z * bool * Z * Q * Z * Z * Z) :
    Z * Z * bool * Z * Q * Z * Z * Z :=
  let '(a, m, r, rt, rp, w, wt, wa) := t in
  if r then
    let rt := (rt - 1)%Z in
    if (rt <=? 0)%Z then (m, m, false, rt, 0, w, wt, wa)
    else (a, m, true, rt, 1 - inject_Z rt / inject_Z D, w, wt, wa)
  else t.

(** The state in which [shoot] leaves the ammunition fields when the last
    arrow is fired. *)
Definition reloadStarted (diff : DiffCfg) (s : GS) : Prop :=
  s_reloading s = true /\ s_reloadTimer s = reloadTime diff
  /\ s_arrows s = 0%Z /\ s_reloadProgress s == 0.

(** The ammunition fields [k] simulation steps into a reload that was
    started with [m] as [maxArrows]. *)
Definition reloadingFor (diff : DiffCfg) (m k : Z) (s : GS) : Prop :=
  s_reloading s = true /\ s_reloadTimer s = (reloadTime diff - k)%Z
  /\ s_arrows s = 0%Z /\ s_maxArrows s = m
  /\ s_reloadProgress s == inject_Z k / inject_Z (reloadTime diff).

(** [Math.sqrt(0)] is [0]. *)
Definition sqrtZero (M : MathObj) : Prop :=
  forall q : Q, q == 0 -> sqrt M q == 0.

(** The health fields of an enemy, and the ranges they stay in: [healthy]
    between frames, [inRange] while the hits of a frame are being applied. *)
Definition health (e : Enemy) : Z * Z := (e_hp e, e_maxHp e).

Definition healthy (e : Enemy) : Prop := (1 <= e_hp e <= e_maxHp e)%Z.

Definition inRange (e : Enemy) : Prop := (0 <= e_hp e <= e_maxHp e)%Z.

(** Every enemy is in range, and one whose health is 0 is in the array
    [deadEnemies] of the frame. *)
Definition marked (fr : Locals) : Prop :=
  forall i e, s_enemies (fr_s fr) !! i = Some e ->
    inRange e /\ ((e_hp e <= 0)%Z -> includes (fr_deadEnemies fr) i = true).

(** [c] is an offspring of the splitter [e]: a scout at full health, one
    health point, placed within the 50 x 50 square around [e] by two random
    draws. *)
Definition offspringOf (M : MathObj) (e c : Enemy) : Prop :=
  e_id c = "scout"%string /\ e_hp c = 1%Z /\ e_maxHp c = 1%Z
  /\ exists n : nat,
       e_x c = e_x e + (random M n - 0.5) * 50
       /\ e_y c = e_y e + (random M (S n) - 0.5) * 50.

(** The guards of [shoot] read as one test: the click is accepted. *)
Definition accepts (M : MathObj) (canvas : option (Q * Q)) (mouse : Q * Q)
    (s : GS) : bool :=
  s_alive s && negb (s_reloading s) && (0 <? s_arrows s)%Z
  && (s_shootCooldown s <=? 0)%Z
  && match canvas with
     | Some (W, H) =>
         negb (Qeq_bool (len M (fst mouse - W / 2) (snd mouse - H / 2)) 0)
     | None => false
     end.

(** What an accepted click fires: the bomb, or one or three projectiles. *)
Definition fired (M : MathObj) (W H : Q) (mouse : Q * Q) (s : GS) : GS :=
  if isPowerup bomb (s_activePowerup s)
  then set_powerupTimer 0
         (set_activePowerup None
            (spawnBombExplosion M (fst mouse) (snd mouse) s))
  else foldl (pushProjectile M (W / 2) (H / 2) (fst mouse - W / 2)
                (snd mouse - H / 2) 15
                (isPowerup pierce (s_activePowerup s))) s
         (if isPowerup multi (s_activePowerup s)
          then [- 0.18; 0; 0.18] else [0]).

(** The ammunition fields between two events: a full or partly used quiver
    and no reload, or an empty quiver and a reload with time left. *)
Definition ammoOK (diff : DiffCfg) (s : GS) : Prop :=
  s_maxArrows s = maxArrows diff
  /\ if s_reloading s
     then s_arrows s = 0%Z /\ (1 <= s_reloadTimer s <= reloadTime diff)%Z
     else (1 <= s_arrows s <= s_maxArrows s)%Z.

(** The fields of an enemy that its archetype fixes, and the archetype's
    own. *)
Definition statics (e : Enemy) : string * string * Z * Q * Q * Z * Pattern :=
  (e_id e, e_color e, e_maxHp e, e_damage e, e_radius e, e_points e,
   e_pattern e).

Definition staticsOf (t : EnemyType)
    : string * string * Z * Q * Q * Z * Pattern :=
  (t_id t, t_color t, t_maxHp t, t_damage t, t_radius t, t_points t,
   t_pattern t).

(** [e] is an instance of one of the seven archetypes. *)
Definition archetypal (e : Enemy) : Prop :=
  Exists (fun t => statics e = staticsOf t) ENEMY_TYPES.

(** The gauges of a session: health, life, the [onGameOver] calls, score,
    wave, combo and power-up. *)
Record Meters : Type := mkMeters {
  m_hp : Q;
  m_alive : bool;
  m_calls : list Z;
  m_score : Z;
  m_wave : Z;
  m_combo : Z;
  m_comboTimer : Z;
  m_power : option PowerType;
  m_powerTimer : Z
}.

Definition meters (s : GS) : Meters :=
  {| m_hp := s_hp s; m_alive := s_alive s; m_calls := s_gameOverCalls s;
     m_score := s_score s; m_wave := s_wave s; m_combo := s_combo s;
     m_comboTimer := s_comboTimer s; m_power := s_activePowerup s;
     m_powerTimer := s_powerupTimer s |}.

(** The gauges are consistent. *)
Definition sound (m : Meters) : Prop :=
  (0 <= m_hp m /\ m_hp m <= 100)
  /\ (m_alive m = true -> 0 < m_hp m /\ m_calls m = [])
  /\ (m_alive m = false -> m_hp m <= 0 /\ m_calls m <> [])
  /\ (0 <= m_score m)%Z /\ (1 <= m_wave m)%Z
  /\ (0 <= m_combo m)%Z /\ (0 <= m_comboTimer m <= 90)%Z
  /\ (m_comboTimer m = 0%Z -> m_combo m = 0%Z)
  /\ (m_power m = None <-> m_powerTimer m = 0%Z)
  /\ (0 <= m_powerTimer m <= 360)%Z
  /\ (m_power m = Some bomb -> m_powerTimer m = 1%Z).

(** From [m] to [m'] the health has not grown, the score and the wave have
    not shrunk, a dead player has stayed dead and no [onGameOver] call has
    been forgotten. *)
Definition grows (m m' : Meters) : Prop :=
  m_hp m' <= m_hp m
  /\ (m_score m <= m_score m')%Z /\ (m_wave m <= m_wave m')%Z
  /\ (m_alive m = false -> m_alive m' = false)
  /\ exists more, m_calls m' = m_calls m ++ more.

(** The state between two events of a session. *)
Definition wellFormed (s : GS) : Prop :=
  sound (meters s) /\ Forall archetypal (s_enemies s).

Definition advances (s s' : GS) : Prop := grows (meters s) (meters s').

(** The gauges after an enemy has touched the bow for [dmg]. *)
Definition contacted (dmg : Q) (m : Meters) : Meters :=
  let hp := Qmax 0 (m_hp m - dmg) in
  {| m_hp := hp;
     m_alive := if Qleb hp 0 then false else m_alive m;
     m_calls := if Qleb hp 0 then m_calls m ++ [m_score m] else m_calls m;
     m_score := m_score m; m_wave := m_wave m;
     m_combo := 0; m_comboTimer := 0;
     m_power := m_power m; m_powerTimer := m_powerTimer m |}.

(** The gauges after a kill worth [gain]. *)
Definition killed (gain : Z) (m : Meters) : Meters :=
  {| m_hp := m_hp m; m_alive := m_alive m; m_calls := m_calls m;
     m_score := m_score m + gain; m_wave := m_wave m;
     m_combo := m_combo m + 1; m_comboTimer := 90;
     m_power := m_power m; m_powerTimer := m_powerTimer m |}.

(** The projectile [shoot] creates at the centre [(cx, cy)], aimed along
    [(dx, dy)] turned by [offset]. *)
Definition arrowOf (M : MathObj) (cx cy dx dy : Q) (isPierce : bool)
    (offset : Q) : Projectile :=
  {| p_x := cx; p_y := cy;
     p_vx := cos M (atan2 M dy dx + offset) * 15;
     p_vy := sin M (atan2 M dy dx + offset) * 15;
     p_radius := if isPierce then 5 else 4;
     p_trail := [];
     p_piercing := isPierce |}.

(** A projectile in flight: a trail of at most 12 points, and the radius of
    its kind. *)
Definition projOK (p : Projectile) : Prop :=
  (length (p_trail p) <= 12)%nat
  /\ p_radius p = (if p_piercing p then 5 else 4).

(** The blast of a bomb at [(cx, cy)] reaches [e]. *)
Definition inBlast (M : MathObj) (cx cy : Q) (e : Enemy) : bool :=
  Qltb (len M (e_x e - cx) (e_y e - cy)) 180.

(** The indices, counted from [i], of the elements of [l] that satisfy
    [P]. *)
Fixpoint positionsFrom {A : Type} (P : A -> bool) (i : nat) (l : list A)
    : list nat :=
  match l with
  | [] => []
  | a :: l' =>
      (if P a then [i] else []) ++ positionsFrom P (S i) l'
  end.

(** The sum of the points of a list of enemies. *)
Definition pointsOf (l : list Enemy) : Z :=
  foldr (fun e acc => (e_points e + acc)%Z) 0%Z l.

(** [Math.random()] returns numbers in [0, 1). *)
Definition unitRandom (M : MathObj) : Prop :=
  forall n, 0 <= random M n /\ random M n < 1.

(** The four edges, 60 px outside a [W] x [H] canvas, on which the factory
    places an enemy. *)
Definition onSpawnFrame (W H : Q) (e : Enemy) : Prop :=
  (e_y e = - (60) /\ 0 <= e_x e /\ e_x e < W)
  \/ (e_x e = W + 60 /\ 0 <= e_y e /\ e_y e < H)
  \/ (e_y e = H + 60 /\ 0 <= e_x e /\ e_x e < W)
  \/ (e_x e = - (60) /\ 0 <= e_y e /\ e_y e < H).




(** The hit test of [// ---- PROJECTILE HIT ----]: [p] touches [e]. *)
Definition touches (M : MathObj) (p : Projectile) (e : Enemy) : bool :=
  Qltb (len M (p_x p - e_x e) (p_y p - e_y e)) (p_radius p + e_radius e).

(** The number of the projectiles [ps] that touch [e]. *)
Definition hitsOn (M : MathObj) (ps : list Projectile) (e : Enemy) : Z :=
  Z.of_nat (length (List.filter (fun p => touches M p e) ps)).

(** The enemy that was [e], at index [i], when the hits of the frame began
    with [dead0] as [deadEnemies], after [k] projectiles that touch it have
    been tested: it is where it was, it has lost one health point for each of
    them until none was left unless the enemy update had marked it already,
    and it is in [deadEnemies] exactly if it was or has no health left. *)
Definition struck (dead0 : list nat) (fr : Locals) (i : nat) (e : Enemy)
    (k : Z) : Prop :=
  exists e',
    s_enemies (fr_s fr) !! i = Some e'
    /\ e_x e' = e_x e /\ e_y e' = e_y e /\ e_radius e' = e_radius e
    /\ e_maxHp e' = e_maxHp e
    /\ e_hp e' = (if includes dead0 i then e_hp e
                  else Z.max 0 (e_hp e - k))
    /\ includes (fr_deadEnemies fr) i
       = includes dead0 i || (e_hp e' <=? 0)%Z.

(** * Scenarios

    Concrete states and inputs on which the engine is run below, with
    [Eval.math] as the [Math] object, on an 800 x 600 canvas. *)

(** The start of a session with one arrow left. *)
Definition lastArrow (d : Difficulty) : GS :=
  set_arrows 1%Z (initialState (DIFFICULTY d)).

(** A click with the pointer 100 px to the right of the bow. *)
Definition aimRight : Input := Click (Some (800, 600)) (500, 300).

(** A frame with the pointer at the same place. *)
Definition idleFrame : Input := Frame 800 600 (500, 300).

(** The state right after the click that fires the last arrow. *)
Definition reloadJustStarted (d : Difficulty) : GS :=
  step Eval.math (DIFFICULTY d) aimRight (lastArrow d).

(** An enemy of archetype [t] placed at [(x, y)] by the factory, as a split
    offspring is; [n] is the index of the first random draw it uses. *)
Definition enemyAt (t : EnemyType) (x y : Q) (n : nat) : Enemy :=
  fst (createEnemy Eval.math t 800 600 (Some (x, y)) n).

(** A ghost whose teleport countdown expires on its next move. *)
Definition ghostAboutToTeleport : Enemy :=
  eset_teleportTimer 0.5 (enemyAt ghostType 200 200 0).

(** A projectile at [(x, y)] flying to the right, as [shoot] makes them. *)
Definition arrowAt (x y : Q) : Projectile :=
  {| p_x := x; p_y := y; p_vx := 15; p_vy := 0; p_radius := 4;
     p_trail := []; p_piercing := false |}.

(** A session on normal with a single scout 200 px to the right of the bow. *)
Definition oneScout : GS :=
  set_enemies [enemyAt scoutType 600 300 0] (initialState (DIFFICULTY normal)).

(** The same session with a tank in the place of the scout. *)
Definition oneTank : GS :=
  set_enemies [enemyAt tankType 600 300 0] (initialState (DIFFICULTY normal)).

(** A player with 0.04 health left and two scouts on the bow. *)
Definition twoScoutsOnTheBow : GS :=
  set_enemies [enemyAt scoutType 400 300 0; enemyAt scoutType 400 300 4]
    (set_hp 0.04 (initialState (DIFFICULTY normal))).

Definition legacyTwoScoutsOnTheBow : Legacy.LS :=
  Legacy.lset_enemies
    [enemyAt scoutType 400 300 0; enemyAt scoutType 400 300 4]
    (Legacy.lset_hp 0.04 (Legacy.initialState (Legacy.DIFFICULTY normal))).

(** A [Math] object for a session in which the first enemy is a scout that
    enters from the right edge at half height: [Math.random()] returns 0.1
    (the first archetype of the pool), 0.3 (the right edge) and then 0.5 (half
    way down the edge, speed factor 1); the cosine and the sine of pi, the
    direction of that scout, are -1 and 0. *)
Definition axisRandom (n : nat) : Q :=
  match n with 0%nat => 0.1 | 1%nat => 0.3 | _ => 0.5 end.

Definition axisMath : MathObj :=
  mkMath Eval.sqrt
    (fun x => if Qeq_bool x Eval.PI then - 1 else Eval.cos x)
    (fun x => if Qeq_bool x Eval.PI then 0 else Eval.sin x)
    Eval.atan2 Eval.PI axisRandom.

(** A session of the earlier revision on an 800 x 600 canvas.  After 91
    frames the player shoots to the right; 12 frames later, the cooldown
    over, straight up; after 12 more frames, in the last of which the first
    scout has entered, the window is made 672 px wider, which moves the bow
    336 px to the right, onto the first arrow, and the player shoots to the
    right again.  The first and the third arrow now fly together; 7 frames
    later they are 3.5 px from the scout's next position. *)
Definition doubleHitInputs : list Input :=
  repeat (Frame 800 600 (0, 0)) 91 ++ [Click (Some (800, 600)) (700, 300)]
  ++ repeat (Frame 800 600 (0, 0)) 12 ++ [Click (Some (800, 600)) (400, 0)]
  ++ repeat (Frame 800 600 (0, 0)) 12
  ++ [Click (Some (1472, 600)) (1036, 300)]
  ++ repeat (Frame 1472 600 (0, 0)) 7.

Definition beforeDoubleHit : Legacy.LS :=
  Legacy.run axisMath (Legacy.DIFFICULTY normal) doubleHitInputs
    (Legacy.initialState (Legacy.DIFFICULTY normal)).

(** The enemies and projectiles of [beforeDoubleHit] in a session of the
    current revision. *)
Definition beforeDoubleHitNow : GS :=
  set_projectiles (Legacy.l_projectiles beforeDoubleHit)
    (set_enemies (Legacy.l_enemies beforeDoubleHit)
       (initialState (DIFFICULTY normal))).

(** A bomb power-up is active and a splitter stands under the pointer. *)
Definition splitterUnderBomb : GS :=
  set_activePowerup (Some bomb)
    (set_powerupTimer 1%Z
       (set_enemies [enemyAt splitterType 500 300 0]
          (initialState (DIFFICULTY normal)))).

(** A splitter with one health point left and a projectile on it. *)
Definition weakSplitter : Enemy := eset_hp 1%Z (enemyAt splitterType 500 300 0).

Definition arrowOnSplitter : GS :=
  set_projectiles [arrowAt 500 300]
    (set_enemies [weakSplitter] (initialState (DIFFICULTY normal))).

(** A bomb pickup lies under the pointer and a tank stands 60 px from it. *)
Definition bombPickupNearTank : GS :=
  set_powerups
    [{| pu_x := 500; pu_y := 300; pu_type := bomb; pu_radius := 16;
        pu_angle := 0; pu_life := 360; pu_pulsePhase := 0 |}]
    (set_enemies [enemyAt tankType 560 300 0]
       (initialState (DIFFICULTY normal))).

(** A berserker whose position is the centre of an 800 x 600 canvas. *)
Definition berserkerOnCentre : Float64.Body :=
  Float64.mkBody 400 300 0.5 0.25 3.5 0.

(** A session on normal whose spawn timer has reached the interval of
    wave 1. *)
Definition spawnDue : GS :=
  set_spawnTimer 104%Z (initialState (DIFFICULTY normal)).

(** The page after a game that ended in wave 3 with 500 points, the score
    of the leader of a board of two; the player typed the name "bo". *)
Definition tiedScore : Index.App :=
  Index.mkApp Index.gameover
    [Index.mkEntry [65; 78; 78]%N 500 4 []; Index.mkEntry [67; 89]%N 300 2 []]
    500 3 [65; 82; 67; 72; 69; 82]%N [32; 98; 111]%N true None None.

(** The state that the fatal frame of [twoScoutsOnTheBow] leaves. *)
Definition afterFatalFrame : GS :=
  loop Eval.math (DIFFICULTY normal) 800 600 (0, 0) twoScoutsOnTheBow.

(** * Properties *)

(** ** Reasoning helpers *)

Lemma forEachFrom_inv {A St : Type} (P : St -> Prop) (f : A -> nat -> St -> St) :
  (forall a i st, P st -> P (f a i st)) ->
  forall l i st, P st -> P (forEachFrom f i l st).
Proof.
  intros Hf l; induction l as [|a l IH]; intros i st Hst; simpl; auto.
Qed.

Lemma foldl_inv {A St : Type} (P : St -> Prop) (f : St -> A -> St) :
  (forall st a, P st -> P (f st a)) ->
  forall l st, P st -> P (foldl f st l).
Proof.
  intros Hf l; induction l as [|a l IH]; intros st Hst; simpl; auto.
Qed.

(** Names the value bound by a [let] of the goal, keeping its equation. *)
Lemma let_intro {A B : Type} (a : A) (b : A -> B) (P : B -> Prop) :
  (forall y, y = a -> P (b y)) -> P (let x := a in b x).
Proof. intros H. exact (H a eq_refl). Qed.

Ltac pull_let y Hy :=
  match goal with
  | |- context C [let x := ?a in @?b x] =>
      let P := constr:(fun z => ltac:(let g := context C [z] in exact g)) in
      refine (let_intro a b P _); intros y Hy; cbv beta
  end.

(** Names and forgets the next [let]. *)
Ltac skip_let :=
  let y := fresh "v" in
  let Hy := fresh "Hv" in
  pull_let y Hy; clear Hy.

Ltac split_cond :=
  match goal with
  | |- context [if ?c then _ else _] => destruct c; cbv iota
  | |- context [let '(_, _) := ?p in _] => destruct p; cbv iota
  | |- context [match ?o with Some _ => _ | None => _ end] =>
      destruct o; cbv iota
  end.

Ltac is_setter f :=
  lazymatch f with
  | set_hp => idtac | set_score => idtac | set_wave => idtac
  | set_arrows => idtac | set_reloading => idtac | set_reloadProgress => idtac
  | set_reloadTimer => idtac | set_spawnTimer => idtac | set_waveTimer => idtac
  | set_enemies => idtac | set_projectiles => idtac | set_particles => idtac
  | set_floats => idtac | set_powerups => idtac | set_alive => idtac
  | set_bowPulse => idtac | set_shootCooldown => idtac | set_combo => idtac
  | set_comboTimer => idtac | set_killStreak => idtac | set_shakeX => idtac
  | set_shakeY => idtac | set_shakePower => idtac | set_activePowerup => idtac
  | set_powerupTimer => idtac | set_waveAnnounce => idtac | set_totalKills => idtac
  | set_nextPowerupKill => idtac | set_rng => idtac | set_gameOverCalls => idtac
  end.

(** Reduces the projections of updated states. *)
Ltac proj_simpl :=
  cbn [
       s_hp s_score s_wave s_arrows s_maxArrows s_reloading
       s_reloadProgress s_reloadTimer s_spawnTimer s_waveTimer
       s_enemies s_projectiles s_particles s_floats s_powerups s_alive
       s_bowPulse s_shootCooldown s_combo s_comboTimer s_killStreak
       s_shakeX s_shakeY s_shakePower s_activePowerup s_powerupTimer
       s_rapidFire s_waveAnnounce s_totalKills s_nextPowerupKill s_rng
       s_gameOverCalls set_hp set_score set_wave set_arrows
       set_reloading set_reloadProgress set_reloadTimer set_spawnTimer
       set_waveTimer set_enemies set_projectiles set_particles
       set_floats set_powerups set_alive set_bowPulse
       set_shootCooldown set_combo set_comboTimer set_killStreak
       set_shakeX set_shakeY set_shakePower set_activePowerup
       set_powerupTimer set_waveAnnounce set_totalKills
       set_nextPowerupKill set_rng set_gameOverCalls ] in *.

(** Rewrites [V (set_f v s)] to [V s] when the view [V] does not read [f].
    The state is named first, so that the conversion never looks into it. *)
Ltac view_change V f s :=
  let x := fresh "x" in
  set (x := s); change (V (f x)) with (V x); subst x.

Ltac view_setter V :=
  match goal with
  | |- context [V (?f ?v ?s)] =>
      is_setter f;
      let w := fresh "w" in
      set (w := v); view_change V (f w) s; subst w
  end.

Section Frames.

Variable M : MathObj.
Variable diff : DiffCfg.

(** ** Helpers write only the fields they are about *)

Lemma spawnParticles_shape x y color count speedMult s :
  exists ps n,
    spawnParticles M x y color count speedMult s
    = set_rng n (set_particles ps s).
Proof.
  unfold spawnParticles.
  apply (foldl_inv
           (fun st => exists ps n, st = set_rng n (set_particles ps s))).
  - intros st i (ps & n & ->). eexists _, _. reflexivity.
  - exists (s_particles s), (s_rng s). destruct s; reflexivity.
Qed.

Lemma pushOffspring_shape W H e scout s k :
  exists es n, pushOffspring M W H e scout s k = set_rng n (set_enemies es s).
Proof.
  unfold pushOffspring.
  destruct (createEnemy M scout W H _ _) as [child n].
  eexists _, _. reflexivity.
Qed.

Lemma offspring_shape W H e scout l s :
  exists es n,
    foldl (pushOffspring M W H e scout) s l = set_rng n (set_enemies es s).
Proof.
  apply (foldl_inv
           (fun st => exists es n, st = set_rng n (set_enemies es s))).
  - intros st k (es & n & ->).
    destruct (pushOffspring_shape W H e scout
                (set_rng n (set_enemies es s)) k) as (es' & n' & ->).
    eexists _, _. reflexivity.
  - exists (s_enemies s), (s_rng s). destruct s; reflexivity.
Qed.

(** A view that reads neither the particles nor the random index is blind
    to [spawnParticles]; one that reads neither the enemies nor the random
    index is blind to the offspring of a splitter. *)
Lemma view_spawnParticles {T : Type} (V : GS -> T) :
  (forall ps n s, V (set_rng n (set_particles ps s)) = V s) ->
  forall x y color count speedMult s,
    V (spawnParticles M x y color count speedMult s) = V s.
Proof.
  intros HV x y color count speedMult s.
  destruct (spawnParticles_shape x y color count speedMult s) as (ps & n & ->).
  apply HV.
Qed.

Lemma view_offspring {T : Type} (V : GS -> T) :
  (forall es n s, V (set_rng n (set_enemies es s)) = V s) ->
  forall W H e scout l s,
    V (foldl (pushOffspring M W H e scout) s l) = V s.
Proof.
  intros HV W H e scout l s.
  destruct (offspring_shape W H e scout l s) as (es & n & ->).
  apply HV.
Qed.

(** Proves or simplifies a goal about the view [V] of an updated state.
    [view_hook] is extended as facts about larger functions are proved. *)
Ltac view_hook V := fail.

Ltac view_simpl V :=
  repeat match goal with
    | |- _ => view_setter V
    | |- context [V (spawnParticles _ _ _ _ _ _ _)] =>
        rewrite (view_spawnParticles V (fun _ _ _ => eq_refl))
    | |- context [V (foldl (pushOffspring _ _ _ _ _) _ _)] =>
        rewrite (view_offspring V (fun _ _ _ => eq_refl))
    | |- context [V (addFloat ?x ?y ?t ?c ?b ?s)] =>
        view_change V (addFloat x y t c b) s
    | |- context [V (addShake ?p ?s)] =>
        view_change V (addShake p) s
    | |- _ => view_hook V
    end.

Ltac view_close V := view_simpl V; first [ assumption | reflexivity ].

(** Symbolic execution of the [let]s and conditionals of the goal: a
    state-valued binding is replaced by the fact that it has the view of
    [s0]. *)
Ltac exec_let V s0 :=
  let y := fresh "v" in
  let Hy := fresh "Hv" in
  pull_let y Hy;
  first
    [ lazymatch type of y with
      | GS =>
          let H := fresh "Ht" in
          assert (H : V y = V s0)
            by (rewrite Hy; exec V s0; view_close V);
          clear Hy
      | Locals =>
          let H := fresh "Ht" in
          assert (H : V (fr_s y) = V s0)
            by (rewrite Hy; exec V s0; cbn [fr_s]; view_close V);
          clear Hy
      end
    | clear Hy ]
with exec V s0 := repeat first [ exec_let V s0 | split_cond ].

(** Destructures the result of a call about which [lem] is known. *)
Ltac split_call lem call :=
  generalize lem; destruct call as [? ?];
  let H := fresh "Ht" in intros H; cbn [fst snd] in H; cbv iota.

(** ** The timers are private to [shoot], [wavePhase] and [reloadPhase] *)

Lemma timers_waves s s' : timers s' = timers s -> waves s' = waves s.
Proof.
  unfold timers, waves. intros E. injection E as _ _ _ _ _ -> -> ->.
  reflexivity.
Qed.

Lemma timers_fields s a m r rt rp w wt wa :
  timers s = (a, m, r, rt, rp, w, wt, wa) ->
  s_arrows s = a /\ s_maxArrows s = m /\ s_reloading s = r
  /\ s_reloadTimer s = rt /\ s_reloadProgress s = rp
  /\ s_wave s = w /\ s_waveTimer s = wt /\ s_waveAnnounce s = wa.
Proof. unfold timers. intros E. injection E. intuition. Qed.

Lemma timers_moveEnemy W H e s :
  timers (snd (moveEnemy M W H e s)) = timers s.
Proof.
  cbv beta delta [moveEnemy].
  destruct (e_pattern e); exec timers s; cbn [snd]; view_close timers.
Qed.

Lemma timers_enemyCallback W H e i s dead :
  timers (fst (enemyCallback M diff W H e i (s, dead))) = timers s.
Proof.
  cbv beta delta [enemyCallback]. cbv iota.
  do 3 skip_let.
  match goal with
  | |- context [moveEnemy M W H ?e0 s] =>
      split_call (timers_moveEnemy W H e0 s) (moveEnemy M W H e0 s)
  end.
  exec timers s; cbn [fst]; view_close timers.
Qed.

Lemma timers_enemyPhase W H s :
  timers (fst (enemyPhase M diff W H s)) = timers s.
Proof.
  unfold enemyPhase, forEach.
  apply (forEachFrom_inv (fun st => timers (fst st) = timers s)); [|reflexivity].
  intros a i [s' dead] Hst. rewrite timers_enemyCallback. exact Hst.
Qed.

Lemma timers_killEnemy W H e ei fr :
  timers (fr_s (killEnemy M W H e ei fr)) = timers (fr_s fr).
Proof.
  cbv beta delta [killEnemy].
  exec timers (fr_s fr); cbn [fr_s]; view_close timers.
Qed.

Ltac view_hook V ::=
  lazymatch V with
  | timers =>
      match goal with
      | |- context [timers (fr_s (killEnemy _ _ _ _ _ _))] =>
          rewrite timers_killEnemy; cbn [fr_s]
      end
  end.

Lemma timers_hitCallback W H p pi e ei fr :
  timers (fr_s (hitCallback M W H p pi e ei fr)) = timers (fr_s fr).
Proof.
  cbv beta delta [hitCallback].
  destruct (includes (fr_deadEnemies fr) ei); [reflexivity|].
  do 2 skip_let.
  match goal with
  | |- context [if ?c then _ else _] => destruct c; [|reflexivity]
  end.
  exec timers (fr_s fr); cbn [fr_s]; view_close timers.
Qed.

Lemma timers_projectilePhase W H fr :
  timers (fr_s (projectilePhase M W H fr)) = timers (fr_s fr).
Proof.
  unfold projectilePhase, forEach.
  apply (forEachFrom_inv (fun st => timers (fr_s st) = timers (fr_s fr)));
    [|reflexivity].
  intros p pi fr1 Hfr1. unfold projectileCallback, forEach.
  apply (forEachFrom_inv (fun st => timers (fr_s st) = timers (fr_s fr)));
    [|exact Hfr1].
  intros e ei fr2 Hfr2. rewrite timers_hitCallback. exact Hfr2.
Qed.

Lemma timers_pickupPhase mouse s :
  timers (pickupPhase M mouse s) = timers s.
Proof.
  unfold pickupPhase.
  generalize (foldl_inv (fun st => timers (fst st) = timers s)
                (pickupCallback M mouse)).
  intros Hinv.
  destruct (foldl (pickupCallback M mouse) (s, []) (s_powerups s))
    as [s' kept] eqn:E.
  change (timers s' = timers s).
  change s' with (fst (s', kept)). rewrite <- E. apply Hinv; [|reflexivity].
  intros [s1 kept1] pu Hs1. cbv beta delta [pickupCallback]. cbv iota.
  exec timers s; cbn [fst]; view_close timers.
Qed.

Lemma timers_entityPhases W H mouse s :
  timers (entityPhases M diff W H mouse s) = timers s.
Proof.
  cbv beta delta [entityPhases].
  split_call (timers_enemyPhase W H s) (enemyPhase M diff W H s).
  pull_let fr Hfr.
  assert (Hf : timers (fr_s fr) = timers s)
    by (rewrite Hfr, timers_projectilePhase; assumption).
  clear Hfr.
  pull_let s2 H2.
  assert (Hs2 : timers s2 = timers s) by (rewrite H2; exact Hf).
  clear H2.
  pull_let s3 H3.
  assert (Hs3 : timers s3 = timers s)
    by (rewrite H3, timers_pickupPhase; exact Hs2).
  clear H3.
  pull_let s4 H4. pull_let s5 H5.
  unfold floatPhase. view_setter timers.
  rewrite H5. unfold particlePhase. view_setter timers.
  rewrite H4. unfold moveProjectiles. view_setter timers.
  exact Hs3.
Qed.

(** ** What a frame does to the timers *)

Lemma timers_wavePhase s : timers (wavePhase s) = waveTimers (timers s).
Proof.
  unfold wavePhase, waveTimers, timers. cbn.
  destruct (700 <? s_waveTimer s + 1)%Z; cbn.
  - reflexivity.
  - destruct (0 <? s_waveAnnounce s)%Z; reflexivity.
Qed.

Lemma timers_spawnPhase W H s : timers (spawnPhase M diff W H s) = timers s.
Proof. cbv beta delta [spawnPhase]. exec timers s; view_close timers. Qed.

Lemma timers_reloadPhase cx cy s :
  timers (reloadPhase M diff cx cy s) = reloadTimers (reloadTime diff) (timers s).
Proof.
  unfold reloadPhase.
  destruct (s_reloading s) eqn:Er.
  - proj_simpl.
    destruct (s_reloadTimer s - 1 <=? 0)%Z eqn:Et.
    + view_simpl timers.
      unfold reloadTimers, timers. proj_simpl. rewrite Er, Et. reflexivity.
    + unfold reloadTimers, timers. proj_simpl. rewrite Er, Et. reflexivity.
  - unfold reloadTimers, timers. rewrite Er. reflexivity.
Qed.

Lemma timers_cooldownPhase s : timers (cooldownPhase s) = timers s.
Proof. cbv beta delta [cooldownPhase]. exec timers s; view_close timers. Qed.

Lemma timers_comboPhase s : timers (comboPhase s) = timers s.
Proof. cbv beta delta [comboPhase]. exec timers s; view_close timers. Qed.

Lemma timers_powerupTimerPhase s : timers (powerupTimerPhase s) = timers s.
Proof. cbv beta delta [powerupTimerPhase]. exec timers s; view_close timers. Qed.

Lemma timers_shakePhase s : timers (shakePhase M s) = timers s.
Proof. cbv beta delta [shakePhase]. exec timers s; view_close timers. Qed.

Lemma timers_timerPhases W H s :
  timers (timerPhases M diff W H s)
  = reloadTimers (reloadTime diff) (waveTimers (timers s)).
Proof.
  cbv beta delta [timerPhases].
  pull_let s1 H1. pull_let s2 H2. pull_let s3 H3. pull_let s4 H4.
  pull_let s5 H5. pull_let s6 H6. pull_let s7 H7.
  change (timers s7 = reloadTimers (reloadTime diff) (waveTimers (timers s))).
  rewrite H7, timers_shakePhase, H6, timers_powerupTimerPhase, H5,
    timers_comboPhase, H4, timers_cooldownPhase, H3, timers_reloadPhase, H2,
    timers_spawnPhase, H1, timers_wavePhase.
  reflexivity.
Qed.

(** A frame changes the timers as [wavePhase] and [reloadPhase] do, and only
    while the player is alive. *)
Lemma timers_loop W H mouse s :
  timers (loop M diff W H mouse s)
  = if s_alive s
    then reloadTimers (reloadTime diff) (waveTimers (timers s))
    else timers s.
Proof.
  unfold loop. destruct (s_alive s); cbn [negb].
  - rewrite timers_entityPhases. apply timers_timerPhases.
  - reflexivity.
Qed.

(** ** Reload (claim C1) *)

Lemma shoot_while_reloading canvas mouse s :
  s_reloading s = true -> shoot M diff canvas mouse s = s.
Proof.
  intros Hr. unfold shoot. rewrite Hr.
  destruct (s_alive s); reflexivity.
Qed.

Lemma progress_step (D j : Z) :
  (0 < D)%Z ->
  1 - inject_Z (D - j - 1) / inject_Z D == inject_Z (j + 1) / inject_Z D.
Proof.
  intros HD.
  assert (HD' : ~ inject_Z D == 0).
  { intros E. apply (inject_Z_injective D 0) in E. lia. }
  unfold Z.sub. rewrite !inject_Z_plus, !inject_Z_opp. field. exact HD'.
Qed.

Lemma reloading_frame W H mouse m j s :
  (0 <= j)%Z -> (j + 1 < reloadTime diff)%Z ->
  s_alive s = true -> reloadingFor diff m j s ->
  reloadingFor diff m (j + 1) (loop M diff W H mouse s).
Proof.
  intros Hj Hlt Ha (Hr & Ht & Har & Hm & Hp).
  pose proof (timers_loop W H mouse s) as E. rewrite Ha in E.
  unfold timers at 2 in E. rewrite Hr, Ht in E.
  unfold waveTimers, reloadTimers in E.
  destruct (700 <? s_waveTimer s + 1)%Z;
    destruct (reloadTime diff - j - 1 <=? 0)%Z eqn:Ez;
    try (apply Z.leb_le in Ez; lia);
    apply timers_fields in E;
    destruct E as (E1 & E2 & E3 & E4 & E5 & _);
    (repeat split; [exact E3 | rewrite E4; lia | congruence | congruence
                   | rewrite E5; apply progress_step; lia ]).
Qed.

Lemma reloading_done W H mouse m s :
  s_alive s = true -> reloadingFor diff m (reloadTime diff - 1) s ->
  let s' := loop M diff W H mouse s in
  s_reloading s' = false /\ s_arrows s' = m /\ s_reloadProgress s' = 0.
Proof.
  intros Ha (Hr & Ht & Har & Hm & Hp) s'. subst s'.
  pose proof (timers_loop W H mouse s) as E. rewrite Ha in E.
  unfold timers at 2 in E. rewrite Hr, Ht in E.
  unfold waveTimers, reloadTimers in E.
  destruct (700 <? s_waveTimer s + 1)%Z;
    destruct (reloadTime diff - (reloadTime diff - 1) - 1 <=? 0)%Z eqn:Ez;
    try (apply Z.leb_gt in Ez; lia);
    apply timers_fields in E;
    destruct E as (E1 & E2 & E3 & E4 & E5 & _);
    (repeat split; [exact E3 | congruence | exact E5]).
Qed.

Lemma reloading_run m inputs : forall j s,
  (0 <= j)%Z ->
  (j + Z.of_nat (simSteps M diff inputs s) < reloadTime diff)%Z ->
  reloadingFor diff m j s ->
  reloadingFor diff m (j + Z.of_nat (simSteps M diff inputs s))
    (run M diff inputs s).
Proof.
  induction inputs as [|i rest IH]; intros j s Hj Hlt Hinv.
  - cbn. rewrite Z.add_0_r. exact Hinv.
  - cbn [simSteps run foldl] in *.
    change (foldl (fun s0 i0 => step M diff i0 s0) (step M diff i s) rest)
      with (run M diff rest (step M diff i s)).
    destruct i as [W H mouse | canvas mouse]; cbn [step] in *.
    + destruct (s_alive s) eqn:Ha.
      * rewrite Nat2Z.inj_add in *. change (Z.of_nat 1) with 1%Z in *.
        rewrite Z.add_assoc in *.
        apply IH; [lia | exact Hlt |].
        apply reloading_frame; [exact Hj | lia | exact Ha | exact Hinv].
      * assert (E : loop M diff W H mouse s = s)
          by (unfold loop; rewrite Ha; reflexivity).
        rewrite E in *. cbn [Nat.add] in *. apply IH; assumption.
    + destruct Hinv as (Hr & Hrest).
      rewrite (shoot_while_reloading canvas mouse s Hr) in *.
      cbn [Nat.add] in *. apply IH; [assumption | assumption |].
      split; assumption.
Qed.

Lemma progress_range (D k : Z) (p : Q) :
  (0 <= k < D)%Z -> p == inject_Z k / inject_Z D -> 0 <= p /\ p < 1.
Proof.
  intros [Hk HD] ->.
  assert (HD' : 0 < inject_Z D)
    by (change 0 with (inject_Z 0); rewrite <- Zlt_Qlt; lia).
  split.
  - apply Qle_shift_div_l; [exact HD'|]. rewrite Qmult_0_l.
    change 0 with (inject_Z 0). rewrite <- Zle_Qle. exact Hk.
  - apply Qlt_shift_div_r; [exact HD'|]. rewrite Qmult_1_l.
    rewrite <- Zlt_Qlt. exact HD.
Qed.

Lemma reloadStarted_reloadingFor s :
  (0 < reloadTime diff)%Z -> reloadStarted diff s ->
  reloadingFor diff (s_maxArrows s) 0 s.
Proof.
  intros HD (Hr & Ht & Ha & Hp).
  repeat split; [exact Hr | lia | exact Ha |].
  rewrite Hp. unfold Qdiv. rewrite Qmult_0_l. reflexivity.
Qed.

(** The reload of any difficulty profile with a positive reload time. *)
Lemma reload_general inputs W H mouse s :
  (0 < reloadTime diff)%Z ->
  reloadStarted diff s ->
  let D := reloadTime diff in
  let k := Z.of_nat (simSteps M diff inputs s) in
  let s' := run M diff inputs s in
  ((k < D)%Z ->
     s_reloading s' = true /\ s_arrows s' = 0%Z
     /\ s_reloadProgress s' == inject_Z k / inject_Z D
     /\ 0 <= s_reloadProgress s' /\ s_reloadProgress s' < 1)
  /\ (k = (D - 1)%Z -> s_alive s' = true ->
      let s'' := loop M diff W H mouse s' in
      s_reloading s'' = false /\ s_arrows s'' = s_maxArrows s
      /\ s_reloadProgress s'' = 0).
Proof.
  intros HD Hs D k s'.
  pose proof (reloadStarted_reloadingFor s HD Hs) as H0.
  assert (Hrun : (k < D)%Z -> reloadingFor diff (s_maxArrows s) k s').
  { intros Hk.
    pose proof (reloading_run (s_maxArrows s) inputs 0 s) as R.
    cbn [Z.add] in R. apply R; [lia | exact Hk | exact H0]. }
  split.
  - intros Hk. destruct (Hrun Hk) as (Hr & Ht & Ha & Hm & Hp).
    destruct (progress_range D k (s_reloadProgress s')) as [P0 P1];
      [subst k; lia | exact Hp |].
    repeat split; assumption.
  - intros Hk Ha.
    assert (Hk' : (k < D)%Z) by lia.
    pose proof (Hrun Hk') as R. rewrite Hk in R.
    apply (reloading_done W H mouse (s_maxArrows s) s' Ha R).
Qed.



(** ** Waves (claim C9) *)

Lemma timers_bombCallback cx cy e i s killed :
  timers (fst (bombCallback M cx cy e i (s, killed))) = timers s.
Proof.
  cbv beta delta [bombCallback]. cbv iota.
  exec timers s; cbn [fst]; view_close timers.
Qed.

Lemma timers_rings cx cy l s :
  timers (foldl (pushRing M cx cy) s l) = timers s.
Proof.
  apply (foldl_inv (fun st => timers st = timers s)); [|reflexivity].
  intros st i Hst. rewrite <- Hst. reflexivity.
Qed.

Lemma timers_bombLoop cx cy l s killed :
  timers (fst (forEach (bombCallback M cx cy) l (s, killed))) = timers s.
Proof.
  unfold forEach.
  apply (forEachFrom_inv (fun st => timers (fst st) = timers s));
    [|reflexivity].
  intros e i [s2 k2] H2. rewrite timers_bombCallback. exact H2.
Qed.

Lemma timers_spawnBombExplosion cx cy s :
  timers (spawnBombExplosion M cx cy s) = timers s.
Proof.
  cbv beta delta [spawnBombExplosion].
  split_call (timers_bombLoop cx cy (s_enemies s) s [])
             (forEach (bombCallback M cx cy) (s_enemies s) (s, [])).
  pull_let s1 H1.
  assert (Hs1 : timers s1 = timers s) by (rewrite H1; assumption).
  clear H1.
  pull_let s2 H2.
  assert (Hs2 : timers s2 = timers s)
    by (rewrite H2, timers_rings; exact Hs1).
  clear H2.
  view_close timers.
Qed.

Lemma waves_projectiles cx cy dx dy speed isPierce l s :
  waves (foldl (pushProjectile M cx cy dx dy speed isPierce) s l) = waves s.
Proof.
  apply (foldl_inv (fun st => waves st = waves s)); [|reflexivity].
  intros st a Hst. rewrite <- Hst. reflexivity.
Qed.

Ltac view_hook V ::=
  lazymatch V with
  | timers =>
      match goal with
      | |- context [timers (fr_s (killEnemy _ _ _ _ _ _))] =>
          rewrite timers_killEnemy; cbn [fr_s]
      end
  | waves =>
      match goal with
      | |- context [waves (spawnBombExplosion _ ?cx ?cy ?s)] =>
          rewrite (timers_waves _ _ (timers_spawnBombExplosion cx cy s))
      | |- context [waves (foldl (pushProjectile _ _ _ _ _ _ _) _ _)] =>
          rewrite waves_projectiles
      end
  end.

(** [shoot] never touches the wave counters. *)
Lemma waves_shoot canvas mouse s :
  waves (shoot M diff canvas mouse s) = waves s.
Proof.
  cbv beta delta [shoot].
  exec waves s; view_close waves.
Qed.

Lemma waves_loop W H mouse s :
  waves (loop M diff W H mouse s)
  = if s_alive s
    then (let '(_, _, _, _, _, w, wt, wa) := waveTimers (timers s) in
          (w, wt, wa))
    else waves s.
Proof.
  pose proof (timers_loop W H mouse s) as E.
  destruct (s_alive s); [|apply timers_waves; exact E].
  unfold waves. unfold timers at 1 in E.
  destruct (waveTimers (timers s)) as [[[[[[[a m] r] rt] rp] w] wt] wa] eqn:Ew.
  unfold reloadTimers in E.
  destruct r; [destruct (rt - 1 <=? 0)%Z|]; injection E as _ _ _ _ _ -> -> ->;
    reflexivity.
Qed.

Lemma wave_frame_before W H mouse s :
  s_alive s = true -> (s_waveTimer s < 700)%Z ->
  s_wave (loop M diff W H mouse s) = s_wave s
  /\ s_waveTimer (loop M diff W H mouse s) = (s_waveTimer s + 1)%Z.
Proof.
  intros Ha Hlt. pose proof (waves_loop W H mouse s) as E.
  rewrite Ha in E. unfold waveTimers, timers, waves in E.
  destruct (700 <? s_waveTimer s + 1)%Z eqn:Ez;
    [apply Z.ltb_lt in Ez; lia|].
  injection E as -> -> _. split; reflexivity.
Qed.

Lemma wave_frame_at_700 W H mouse s :
  s_alive s = true -> s_waveTimer s = 700%Z ->
  s_wave (loop M diff W H mouse s) = (s_wave s + 1)%Z
  /\ s_waveTimer (loop M diff W H mouse s) = 0%Z
  /\ s_waveAnnounce (loop M diff W H mouse s) = 149%Z.
Proof.
  intros Ha Hwt. pose proof (waves_loop W H mouse s) as E.
  rewrite Ha in E. unfold waveTimers, timers, waves in E. rewrite Hwt in E.
  cbn in E. injection E as -> -> ->. repeat split; reflexivity.
Qed.

Lemma wave_run w inputs : forall j s,
  (0 <= j)%Z ->
  (j + Z.of_nat (simSteps M diff inputs s) <= 700)%Z ->
  s_wave s = w -> s_waveTimer s = j ->
  s_wave (run M diff inputs s) = w
  /\ s_waveTimer (run M diff inputs s)
     = (j + Z.of_nat (simSteps M diff inputs s))%Z.
Proof.
  induction inputs as [|i rest IH]; intros j s Hj Hle Hw Ht.
  - cbn. rewrite Z.add_0_r. split; assumption.
  - cbn [simSteps run foldl] in *.
    change (foldl (fun s0 i0 => step M diff i0 s0) (step M diff i s) rest)
      with (run M diff rest (step M diff i s)).
    destruct i as [W H mouse | canvas mouse]; cbn [step] in *.
    + destruct (s_alive s) eqn:Ha.
      * rewrite Nat2Z.inj_add in *. change (Z.of_nat 1) with 1%Z in *.
        rewrite Z.add_assoc in *.
        destruct (wave_frame_before W H mouse s Ha) as [E1 E2]; [lia|].
        apply IH; [lia | exact Hle | congruence | congruence].
      * assert (E : loop M diff W H mouse s = s)
          by (unfold loop; rewrite Ha; reflexivity).
        rewrite E in *. cbn [Nat.add] in *. apply IH; assumption.
    + pose proof (waves_shoot canvas mouse s) as E. unfold waves in E.
      injection E as E1 E2 _.
      cbn [Nat.add] in *. apply IH; [assumption | assumption | congruence
                                    | congruence].
Qed.

(** ** Scoring (claim C5) *)

Lemma scoring_killEnemy W H e ei fr :
  scoring (fr_s (killEnemy M W H e ei fr))
  = ((s_score (fr_s fr) + Math_round (earned e (fr_s fr)))%Z,
     (s_combo (fr_s fr) + 1)%Z, 90%Z).
Proof.
  cbv beta delta [killEnemy].
  pull_let s0 H0. pull_let dead Hd. pull_let gain Hg.
  pull_let s1 H1. pull_let s2 H2. pull_let s3 H3. pull_let s4 H4.
  pull_let s5 H5.
  assert (E5 : scoring s5
               = ((s_score (fr_s fr) + Math_round (earned e (fr_s fr)))%Z,
                  (s_combo (fr_s fr) + 1)%Z, 90%Z))
    by (subst; reflexivity).
  clear H0 Hd Hg H1 H2 H3 H4 H5.
  exec scoring s5; cbn [fr_s]; rewrite <- E5; view_close scoring.
Qed.

Lemma round_integer (z : Z) : Math_round (inject_Z z) = z.
Proof.
  unfold Math_round, Qfloor, Qplus, inject_Z. cbn [Qnum Qden].
  symmetry. apply (Z.div_unique _ _ z 5); lia.
Qed.

Lemma earned_without_combo e s :
  s_combo s = 0%Z -> Math_round (earned e s) = (e_points e * s_wave s)%Z.
Proof.
  intros Hc. unfold earned, Math_round. rewrite Hc.
  rewrite <- (round_integer (e_points e * s_wave s)). unfold Math_round.
  apply Qfloor_comp. rewrite inject_Z_mult.
  change (Qfloor (inject_Z 0 / 3)) with 0%Z. ring.
Qed.

Lemma scoring_hit_kill W H p pi e ei fr :
  includes (fr_deadEnemies fr) ei = false ->
  Qltb (len M (p_x p - e_x e) (p_y p - e_y e)) (p_radius p + e_radius e)
  = true ->
  (e_hp e - 1 <= 0)%Z ->
  scoring (fr_s (hitCallback M W H p pi e ei fr))
  = ((s_score (fr_s fr)
      + Math_round
          (inject_Z (e_points e) * inject_Z (s_wave (fr_s fr))
           * (1 + inject_Z (Qfloor (inject_Z (s_combo (fr_s fr)) / 3)) * 0.5)))%Z,
     (s_combo (fr_s fr) + 1)%Z, 90%Z).
Proof.
  intros Hd Hhit Hhp.
  cbv beta delta [hitCallback]. rewrite Hd.
  pull_let dx Hdx. pull_let dy Hdy. subst dx dy. rewrite Hhit.
  pull_let s0 H0. pull_let e1 He1. pull_let e2 He2.
  pull_let s1 H1. pull_let s2 H2. pull_let fr1 Hf1.
  assert (Hk : (e_hp e2 <=? 0)%Z = true).
  { subst e2 e1. cbn [e_hp eset_hp eset_flashTimer]. apply Z.leb_le. exact Hhp. }
  rewrite Hk.
  pull_let fr2 Hf2.
  assert (E2 : scoring (fr_s fr2)
     = ((s_score (fr_s fr)
      + Math_round
          (inject_Z (e_points e) * inject_Z (s_wave (fr_s fr))
           * (1 + inject_Z (Qfloor (inject_Z (s_combo (fr_s fr)) / 3)) * 0.5)))%Z,
     (s_combo (fr_s fr) + 1)%Z, 90%Z)).
  { rewrite Hf2, scoring_killEnemy, Hf1. cbn [fr_s].
    rewrite H2. unfold earned, scoring.
    rewrite (view_spawnParticles s_score (fun _ _ _ => eq_refl)).
    rewrite (view_spawnParticles s_combo (fun _ _ _ => eq_refl)).
    rewrite (view_spawnParticles s_wave (fun _ _ _ => eq_refl)).
    rewrite H1, H0, He2, He1. reflexivity. }
  destruct (p_piercing p); cbn [fr_s]; exact E2.
Qed.
(** ** Enemy health (claim C4) *)

Lemma health_moveEnemy W H e s :
  health (fst (moveEnemy M W H e s)) = health e.
Proof.
  cbv beta delta [moveEnemy].
  destruct (e_pattern e); cbv zeta;
    repeat match goal with
      | |- context [if ?c then _ else _] => destruct c
      | |- context [let '(_, _) := ?p in _] => destruct p
      end; reflexivity.
Qed.

Lemma enemies_moveEnemy W H e s :
  s_enemies (snd (moveEnemy M W H e s)) = s_enemies s.
Proof.
  cbv beta delta [moveEnemy].
  destruct (e_pattern e); exec s_enemies s; cbn [snd]; view_close s_enemies.
Qed.

Lemma health_pulseEnemy e : health (pulseEnemy e) = health e.
Proof.
  unfold pulseEnemy. cbv zeta.
  repeat match goal with
    | |- context [if ?c then _ else _] => destruct c
    end; reflexivity.
Qed.

(** The enemy update writes the enemy it is called on, and leaves its
    health alone. *)
Lemma enemies_enemyCallback W H e i s dead :
  exists e',
    health e' = health e
    /\ s_enemies (fst (enemyCallback M diff W H e i (s, dead)))
       = <[i := e']> (s_enemies s).
Proof.
  cbv beta delta [enemyCallback]. cbv iota.
  do 2 skip_let.
  pull_let e0 He0.
  assert (Hh0 : health e0 = health e)
    by (rewrite He0; destruct (0 <? e_flashTimer e)%Z; reflexivity).
  clear He0.
  generalize (health_moveEnemy W H e0 s) (enemies_moveEnemy W H e0 s).
  destruct (moveEnemy M W H e0 s) as [e1 s1].
  intros Hh1 Hs1. cbn [fst snd] in Hh1, Hs1. cbv iota.
  pull_let e2 He2. pull_let e3 He3.
  assert (Hh3 : health e3 = health e).
  { rewrite He3.
    destruct (Pattern_eqb (e_pattern e2) chase);
      [|change (health (eset_angle ?a ?b)) with (health b)];
      rewrite He2, health_pulseEnemy; congruence. }
  clear He2 He3.
  exists e3. split; [exact Hh3|].
  pull_let s2 Hs2.
  assert (E2 : s_enemies s2 = <[i := e3]> (s_enemies s))
    by (rewrite Hs2; cbn [s_enemies set_enemies]; rewrite Hs1; reflexivity).
  clear Hs2.
  exec s_enemies s2; cbn [fst]; rewrite <- E2; view_close s_enemies.
Qed.

Lemma forEachFrom_inv_Forall {A St : Type} (Q : A -> Prop) (P : St -> Prop)
    (f : A -> nat -> St -> St) :
  (forall a i st, Q a -> P st -> P (f a i st)) ->
  forall l i st, Forall Q l -> P st -> P (forEachFrom f i l st).
Proof.
  intros Hf l; induction l as [|a l IH]; intros i st Hl Hst; simpl; auto.
  inversion Hl; subst. apply IH; auto.
Qed.

Lemma healthy_health e e' : health e' = health e -> healthy e -> healthy e'.
Proof.
  unfold health, healthy. intros E. injection E as -> ->. auto.
Qed.

(** The enemy update of a frame keeps every enemy healthy. *)
Lemma healthy_enemyPhase W H s :
  Forall healthy (s_enemies s) ->
  Forall healthy (s_enemies (fst (enemyPhase M diff W H s))).
Proof.
  intros Hs. unfold enemyPhase, forEach.
  apply (forEachFrom_inv_Forall healthy
           (fun st => Forall healthy (s_enemies (fst st))));
    [|exact Hs|exact Hs].
  intros a i [s1 dead] Ha H1.
  destruct (enemies_enemyCallback W H a i s1 dead) as (e' & Hh & ->).
  apply Forall_insert; [exact H1|].
  exact (healthy_health _ _ Hh Ha).
Qed.

(** *** The hits of a frame *)

Lemma health_createEnemy t W H o n :
  health (fst (createEnemy M t W H o n)) = (t_maxHp t, t_maxHp t).
Proof.
  cbv beta delta [createEnemy]. cbv zeta.
  destruct (Qfloor (random M n * 4)) as [|p|p];
    [reflexivity | | reflexivity].
  destruct p as [[p|p|]|[p|p|]|]; reflexivity.
Qed.

Lemma placed_createEnemy t W H x y n :
  e_id (fst (createEnemy M t W H (Some (x, y)) n)) = t_id t
  /\ e_x (fst (createEnemy M t W H (Some (x, y)) n)) = x
  /\ e_y (fst (createEnemy M t W H (Some (x, y)) n)) = y.
Proof.
  cbv beta delta [createEnemy]. cbv zeta.
  destruct (Qfloor (random M n * 4)) as [|p|p];
    [repeat split | | repeat split].
  destruct p as [[p|p|]|[p|p|]|]; repeat split.
Qed.

Lemma enemies_pushOffspring W H e s k :
  exists child,
    offspringOf M e child
    /\ s_enemies (pushOffspring M W H e scoutType s k) = s_enemies s ++ [child].
Proof.
  cbv beta delta [pushOffspring]. cbv zeta.
  match goal with
  | |- context [createEnemy M scoutType W H (Some (?x, ?y)) ?n] =>
      generalize (health_createEnemy scoutType W H (Some (x, y)) n)
                 (placed_createEnemy scoutType W H x y n);
      destruct (createEnemy M scoutType W H (Some (x, y)) n) as [child n']
  end.
  intros Hh (Hid & Hx & Hy). cbn [fst] in *.
  exists child. split; [|reflexivity].
  unfold health in Hh. injection Hh as Hhp Hmax.
  repeat split; try assumption.
  exists (s_rng s). split; assumption.
Qed.

Lemma offspring_healthy e c : offspringOf M e c -> healthy c.
Proof. intros (_ & Hhp & Hmax & _). unfold healthy. lia. Qed.

Lemma dead_killEnemy W H e ei fr :
  fr_deadEnemies (killEnemy M W H e ei fr)
  = if includes (fr_deadEnemies fr) ei then fr_deadEnemies fr
    else fr_deadEnemies fr ++ [ei].
Proof. reflexivity. Qed.

(** A kill leaves the enemies as they were, but for a splitter that has not
    split yet: it is marked [splitDone] and two offspring are appended. *)
Lemma enemies_killEnemy W H e ei fr :
  exists kids,
    Forall (offspringOf M e) kids
    /\ length kids
       = (if String.eqb (e_id e) "splitter" && negb (e_splitDone e)
          then 2%nat else 0%nat)
    /\ s_enemies (fr_s (killEnemy M W H e ei fr))
       = (if String.eqb (e_id e) "splitter" && negb (e_splitDone e)
          then <[ei := eset_splitDone true e]> (s_enemies (fr_s fr))
          else s_enemies (fr_s fr)) ++ kids.
Proof.
  cbv beta delta [killEnemy].
  do 12 (exec_let s_enemies (fr_s fr)).
  pull_let s1 H1.
  assert (E1 : exists kids,
             Forall (offspringOf M e) kids
             /\ length kids
                = (if String.eqb (e_id e) "splitter" && negb (e_splitDone e)
                   then 2%nat else 0%nat)
             /\ s_enemies s1
                = (if String.eqb (e_id e) "splitter" && negb (e_splitDone e)
                   then <[ei := eset_splitDone true e]> (s_enemies (fr_s fr))
                   else s_enemies (fr_s fr)) ++ kids).
  { rewrite H1.
    destruct (String.eqb (e_id e) "splitter" && negb (e_splitDone e)).
    - change (List.find (fun t => String.eqb (t_id t) "scout") ENEMY_TYPES)
        with (Some scoutType).
      cbv zeta. cbv iota. cbn [seq foldl].
      match goal with
      | |- context [pushOffspring M W H e scoutType ?s0 0] =>
          destruct (enemies_pushOffspring W H e s0 0) as (c0 & Hc0 & E0);
          destruct (enemies_pushOffspring W H e
                      (pushOffspring M W H e scoutType s0 0) 1)
            as (c1 & Hc1 & E1)
      end.
      exists [c0; c1].
      split; [constructor; [exact Hc0|]; constructor; [exact Hc1|constructor]|].
      split; [reflexivity|].
      rewrite E1, E0. cbn [s_enemies set_enemies].
      rewrite <- app_assoc.
      match goal with H : s_enemies _ = s_enemies (fr_s fr) |- _ => rewrite H end.
      reflexivity.
    - exists []. split; [constructor|]. split; [reflexivity|].
      rewrite app_nil_r. assumption. }
  clear H1.
  destruct E1 as (kids & Hkids & Hlen & E1). exists kids.
  split; [exact Hkids|]. split; [exact Hlen|].
  rewrite <- E1.
  exec s_enemies s1; cbn [fr_s]; view_close s_enemies.
Qed.

(** What the hit test of one projectile on one enemy does to the enemies and
    to [deadEnemies]: nothing when the enemy is already marked or is not
    touched; otherwise the enemy loses exactly one health point and is
    marked when none is left. *)
Lemma hitCallback_shape W H p pi e ei fr :
  let fr' := hitCallback M W H p pi e ei fr in
  ((includes (fr_deadEnemies fr) ei = true
    \/ Qltb (len M (p_x p - e_x e) (p_y p - e_y e)) (p_radius p + e_radius e)
       = false)
   /\ s_enemies (fr_s fr') = s_enemies (fr_s fr)
   /\ fr_deadEnemies fr' = fr_deadEnemies fr)
  \/ (includes (fr_deadEnemies fr) ei = false
      /\ exists e' kids,
           e_hp e' = (e_hp e - 1)%Z /\ e_maxHp e' = e_maxHp e
           /\ Forall healthy kids
           /\ s_enemies (fr_s fr') = <[ei := e']> (s_enemies (fr_s fr)) ++ kids
           /\ fr_deadEnemies fr'
              = if (e_hp e - 1 <=? 0)%Z then fr_deadEnemies fr ++ [ei]
                else fr_deadEnemies fr).
Proof.
  cbv beta delta [hitCallback]. cbv zeta beta.
  destruct (includes (fr_deadEnemies fr) ei) eqn:Hd;
    [left; repeat split; left; reflexivity|].
  destruct (Qltb (len M (p_x p - e_x e) (p_y p - e_y e))
              (p_radius p + e_radius e));
    [|left; repeat split; right; reflexivity].
  right. split; [reflexivity|].
  set (e2 := eset_flashTimer 7%Z (eset_hp (e_hp e - 1)%Z e)).
  set (s2 := spawnParticles M (e_x e2) (e_y e2) (e_color e2) 4 1
               (set_enemies (<[ei := e2]> (s_enemies (fr_s fr))) (fr_s fr))).
  set (fr1 := mkLocals s2 (fr_deadEnemies fr) (fr_deadProjectiles fr)).
  assert (E2 : s_enemies (fr_s fr1) = <[ei := e2]> (s_enemies (fr_s fr))).
  { subst fr1 s2. cbn [fr_s].
    rewrite (view_spawnParticles s_enemies (fun _ _ _ => eq_refl)).
    reflexivity. }
  change (e_hp e2) with (e_hp e - 1)%Z.
  assert (Hfin : forall fr2 : Locals,
            (exists e' kids,
               e_hp e' = (e_hp e - 1)%Z /\ e_maxHp e' = e_maxHp e
               /\ Forall healthy kids
               /\ s_enemies (fr_s fr2)
                  = <[ei := e']> (s_enemies (fr_s fr)) ++ kids
               /\ fr_deadEnemies fr2
                  = if (e_hp e - 1 <=? 0)%Z then fr_deadEnemies fr ++ [ei]
                    else fr_deadEnemies fr) ->
            exists e' kids,
               e_hp e' = (e_hp e - 1)%Z /\ e_maxHp e' = e_maxHp e
               /\ Forall healthy kids
               /\ s_enemies
                    (fr_s (if p_piercing p then fr2
                           else mkLocals (fr_s fr2) (fr_deadEnemies fr2)
                                  ({[pi]} ∪ fr_deadProjectiles fr2)))
                  = <[ei := e']> (s_enemies (fr_s fr)) ++ kids
               /\ fr_deadEnemies
                    (if p_piercing p then fr2
                     else mkLocals (fr_s fr2) (fr_deadEnemies fr2)
                            ({[pi]} ∪ fr_deadProjectiles fr2))
                  = if (e_hp e - 1 <=? 0)%Z then fr_deadEnemies fr ++ [ei]
                    else fr_deadEnemies fr).
  { intros fr2 Hfr2. destruct (p_piercing p); exact Hfr2. }
  apply Hfin. clear Hfin.
  destruct (e_hp e - 1 <=? 0)%Z.
  - destruct (enemies_killEnemy W H e2 ei fr1) as (kids & Hoff & _ & Ek).
    assert (Hkids : Forall healthy kids)
      by (eapply Forall_impl; [exact Hoff | apply offspring_healthy]).
    rewrite E2 in Ek.
    exists (if String.eqb (e_id e2) "splitter" && negb (e_splitDone e2)
            then eset_splitDone true e2 else e2), kids.
    rewrite Ek, dead_killEnemy.
    change (fr_deadEnemies fr1) with (fr_deadEnemies fr). rewrite Hd.
    destruct (String.eqb (e_id e2) "splitter" && negb (e_splitDone e2));
      [rewrite list_insert_insert_eq|]; repeat split; assumption.
  - exists e2, []. rewrite app_nil_r, E2.
    repeat split; constructor.
Qed.

Lemma includes_app dead i j :
  includes dead j = true -> includes (dead ++ [i]) j = true.
Proof.
  unfold includes. rewrite existsb_app. intros ->. reflexivity.
Qed.

Lemma includes_last dead i : includes (dead ++ [i]) i = true.
Proof.
  unfold includes. rewrite existsb_app. cbn. rewrite Nat.eqb_refl.
  apply orb_true_iff. right. reflexivity.
Qed.

Lemma healthy_marked e dead i :
  healthy e ->
  inRange e /\ ((e_hp e <= 0)%Z -> includes dead i = true).
Proof. unfold healthy, inRange. intros Hh. split; [lia|]. intros ?. lia. Qed.

(** One step of the inner loop.  [a :: l] is what is left of the array the
    loop was started on; its elements are still in place in the state. *)
Lemma marked_hitCallback W H p pi a l i fr :
  marked fr ->
  (forall k e, (a :: l) !! k = Some e ->
               s_enemies (fr_s fr) !! (i + k)%nat = Some e) ->
  marked (hitCallback M W H p pi a i fr)
  /\ (forall k e, l !! k = Some e ->
        s_enemies (fr_s (hitCallback M W H p pi a i fr)) !! (S i + k)%nat
        = Some e).
Proof.
  intros Hm Hl.
  assert (Ha : s_enemies (fr_s fr) !! i = Some a).
  { specialize (Hl 0%nat a eq_refl). rewrite Nat.add_0_r in Hl. exact Hl. }
  assert (Hrest : forall k e, l !! k = Some e ->
                    s_enemies (fr_s fr) !! (S i + k)%nat = Some e).
  { intros k e Hk. specialize (Hl (S k) e Hk).
    rewrite Nat.add_succ_r in Hl. exact Hl. }
  destruct (hitCallback_shape W H p pi a i fr)
    as [(_ & Ee & Ed) | (Hd & e' & kids & Hhp & Hmax & Hkids & Ee & Ed)].
  - split.
    + intros j x Hj. rewrite Ee in Hj. rewrite Ed. exact (Hm j x Hj).
    + intros k e Hk. rewrite Ee. exact (Hrest k e Hk).
  - destruct (Hm i a Ha) as (Hra & Hza).
    assert (Hpos : (1 <= e_hp a)%Z).
    { destruct (Z_lt_le_dec 0 (e_hp a)) as [?|Hle]; [lia|].
      rewrite (Hza Hle) in Hd. discriminate. }
    split.
    + intros j x Hj. rewrite Ee in Hj. rewrite Ed.
      apply lookup_app_Some in Hj as [Hj | (_ & Hj)].
      * apply list_lookup_insert_Some in Hj
          as [(<- & <- & _) | (Hne & Hj)].
        -- unfold inRange in *. rewrite Hhp, Hmax. split; [lia|].
           intros Hz. destruct (e_hp a - 1 <=? 0)%Z eqn:Hk.
           ++ apply includes_last.
           ++ apply Z.leb_gt in Hk. lia.
        -- destruct (Hm j x Hj) as (Hrx & Hzx). split; [exact Hrx|].
           intros Hz. specialize (Hzx Hz).
           destruct (e_hp a - 1 <=? 0)%Z; [apply includes_app|]; exact Hzx.
      * apply healthy_marked.
        eapply Forall_lookup_1; [exact Hkids | exact Hj].
    + intros k e Hk. rewrite Ee. apply lookup_app_l_Some.
      rewrite list_lookup_insert_ne by lia. exact (Hrest k e Hk).
Qed.

Lemma marked_hitLoop W H p pi l : forall i fr,
  marked fr ->
  (forall k e, l !! k = Some e ->
               s_enemies (fr_s fr) !! (i + k)%nat = Some e) ->
  marked (forEachFrom (hitCallback M W H p pi) i l fr).
Proof.
  induction l as [|a l IH]; intros i fr Hm Hl; [exact Hm|].
  cbn [forEachFrom].
  destruct (marked_hitCallback W H p pi a l i fr Hm Hl) as (Hm' & Hl').
  exact (IH (S i) _ Hm' Hl').
Qed.

(** The hits of a frame keep every enemy in range and mark those left
    without health. *)
Lemma marked_projectilePhase W H fr :
  marked fr -> marked (projectilePhase M W H fr).
Proof.
  intros Hm. unfold projectilePhase, forEach.
  apply (forEachFrom_inv marked); [|exact Hm].
  intros p pi fr1 H1. unfold projectileCallback, forEach.
  apply marked_hitLoop; [exact H1|].
  intros k e Hk. exact Hk.
Qed.

(** *** Removal *)

(** Splicing out indices from the largest down leaves only elements whose
    index was not listed. *)
Lemma deleteAll_lookup {A : Type} (idx : list nat) :
  StronglySorted (flip le) idx ->
  forall (l : list A) j x,
    foldl (fun acc i => delete i acc) l idx !! j = Some x ->
    exists i, l !! i = Some x /\ i ∉ idx.
Proof.
  induction 1 as [|a idx Hs IH Ha]; intros l j x Hj; cbn [foldl] in Hj.
  - exists j. split; [exact Hj|]. apply not_elem_of_nil.
  - destruct (IH _ _ _ Hj) as (i & Hi & Hni).
    rewrite list_lookup_delete in Hi.
    destruct (decide (i < a)%nat) as [Hlt|Hge].
    + exists i. split; [exact Hi|].
      apply not_elem_of_cons. split; [lia|exact Hni].
    + exists (S i). split; [exact Hi|].
      apply not_elem_of_cons. split; [lia|].
      intros Hin.
      rewrite Forall_forall in Ha. specialize (Ha _ Hin).
      unfold flip in Ha. lia.
Qed.

Lemma spliceAll_lookup {A : Type} (idx : list nat) (l : list A) j x :
  spliceAll idx l !! j = Some x -> exists i, l !! i = Some x /\ i ∉ idx.
Proof.
  unfold spliceAll. intros Hj.
  assert (Hs : StronglySorted (flip le) (merge_sort (flip le) idx)).
  { apply @StronglySorted_merge_sort.
    - intros a b c Hab Hbc. unfold flip in *. lia.
    - intros a b. unfold flip. lia. }
  destruct (deleteAll_lookup _ Hs l j x Hj) as (i & Hi & Hni).
  exists i. split; [exact Hi|].
  rewrite <- (merge_sort_Permutation (flip le) idx). exact Hni.
Qed.

Lemma includes_elem_of dead i : includes dead i = true <-> i ∈ dead.
Proof.
  unfold includes. rewrite existsb_exists. split.
  - intros (x & Hx & E). apply Nat.eqb_eq in E. subst x.
    apply list_elem_of_In. exact Hx.
  - intros Hi. exists i. split; [apply list_elem_of_In; exact Hi|].
    apply Nat.eqb_refl.
Qed.

(** [// Remove dead] removes every enemy left without health: the enemies
    that stay are healthy. *)
Lemma healthy_removeDead fr :
  marked fr -> Forall healthy (s_enemies (removeDead fr)).
Proof.
  intros Hm. unfold removeDead. cbv zeta.
  cbn [s_enemies set_enemies set_projectiles].
  apply Forall_lookup. intros j x Hj.
  apply spliceAll_lookup in Hj as (i & Hi & Hni).
  destruct (Hm i x Hi) as (Hr & Hz).
  unfold healthy, inRange in *.
  destruct (Z_lt_le_dec 0 (e_hp x)) as [?|Hle]; [lia|].
  exfalso. apply Hni. apply elem_of_remove_dups.
  apply includes_elem_of. exact (Hz Hle).
Qed.

(** *** A whole frame *)

Lemma archetypes_have_health :
  Forall (fun t => (1 <= t_maxHp t)%Z) ENEMY_TYPES.
Proof. unfold ENEMY_TYPES. repeat constructor; cbn; lia. Qed.

(** A spawned enemy starts with the full health of its archetype. *)
Lemma healthy_spawnPhase W H s :
  Forall healthy (s_enemies s) ->
  Forall healthy (s_enemies (spawnPhase M diff W H s)).
Proof.
  intros Hs. cbv beta delta [spawnPhase]. cbv zeta.
  match goal with
  | |- context [if ?c then _ else _] => destruct c; [|exact Hs]
  end.
  proj_simpl.
  match goal with
  | |- context [match ?o with Some _ => _ | None => _ end] =>
      destruct o as [type|] eqn:Epool; [|exact Hs]
  end.
  apply lookup_take_Some in Epool as (Epool & _).
  pose proof (Forall_lookup_1 _ _ _ _ archetypes_have_health Epool) as Hty.
  cbn beta in Hty.
  match goal with
  | |- context [createEnemy M type W H ?o ?n] =>
      generalize (health_createEnemy type W H o n);
      destruct (createEnemy M type W H o n) as [e n']
  end.
  intros Hh. cbn [fst] in Hh. proj_simpl.
  apply Forall_app_2; [exact Hs|].
  constructor; [|constructor].
  unfold health in Hh. injection Hh as Hhp Hmax.
  unfold healthy. cbn [e_hp e_maxHp eset_speed eset_vx eset_vy].
  rewrite Hhp, Hmax. lia.
Qed.

Lemma enemies_pickupPhase mouse s :
  s_enemies (pickupPhase M mouse s) = s_enemies s.
Proof.
  unfold pickupPhase.
  generalize (foldl_inv (fun st => s_enemies (fst st) = s_enemies s)
                (pickupCallback M mouse)).
  intros Hinv.
  destruct (foldl (pickupCallback M mouse) (s, []) (s_powerups s))
    as [s' kept] eqn:E.
  change (s_enemies s' = s_enemies s).
  change s' with (fst (s', kept)). rewrite <- E. apply Hinv; [|reflexivity].
  intros [s1 kept1] pu Hs1. cbv beta delta [pickupCallback]. cbv iota.
  exec s_enemies s; cbn [fst]; view_close s_enemies.
Qed.

Lemma enemies_timerPhases_but_spawn W H s :
  s_enemies (wavePhase s) = s_enemies s
  /\ s_enemies (reloadPhase M diff (W / 2) (H / 2) s) = s_enemies s
  /\ s_enemies (cooldownPhase s) = s_enemies s
  /\ s_enemies (comboPhase s) = s_enemies s
  /\ s_enemies (powerupTimerPhase s) = s_enemies s
  /\ s_enemies (shakePhase M s) = s_enemies s.
Proof.
  repeat split.
  - cbv beta delta [wavePhase]. exec s_enemies s; view_close s_enemies.
  - cbv beta delta [reloadPhase]. exec s_enemies s; view_close s_enemies.
  - cbv beta delta [cooldownPhase]. exec s_enemies s; view_close s_enemies.
  - cbv beta delta [comboPhase]. exec s_enemies s; view_close s_enemies.
  - cbv beta delta [powerupTimerPhase]. exec s_enemies s; view_close s_enemies.
  - cbv beta delta [shakePhase]. exec s_enemies s; view_close s_enemies.
Qed.

Lemma healthy_timerPhases W H s :
  Forall healthy (s_enemies s) ->
  Forall healthy (s_enemies (timerPhases M diff W H s)).
Proof.
  intros Hs. cbv beta delta [timerPhases].
  pull_let s1 H1. pull_let s2 H2. pull_let s3 H3. pull_let s4 H4.
  pull_let s5 H5. pull_let s6 H6. pull_let s7 H7.
  change (Forall healthy (s_enemies s7)).
  destruct (enemies_timerPhases_but_spawn W H s6) as (_ & _ & _ & _ & _ & E7).
  destruct (enemies_timerPhases_but_spawn W H s5) as (_ & _ & _ & _ & E6 & _).
  destruct (enemies_timerPhases_but_spawn W H s4) as (_ & _ & _ & E5 & _).
  destruct (enemies_timerPhases_but_spawn W H s3) as (_ & _ & E4 & _).
  destruct (enemies_timerPhases_but_spawn W H s2) as (_ & E3 & _).
  destruct (enemies_timerPhases_but_spawn W H s) as (E1 & _).
  rewrite H7, E7, H6, E6, H5, E5, H4, E4, H3, E3, H2.
  apply healthy_spawnPhase. rewrite H1, E1. exact Hs.
Qed.

Lemma healthy_entityPhases W H mouse s :
  Forall healthy (s_enemies s) ->
  Forall healthy (s_enemies (entityPhases M diff W H mouse s)).
Proof.
  intros Hs. cbv beta delta [entityPhases].
  generalize (healthy_enemyPhase W H s Hs).
  destruct (enemyPhase M diff W H s) as [s1 dead].
  intros H1. cbn [fst] in H1. cbv iota.
  pull_let fr Hfr.
  assert (Hm : marked fr).
  { rewrite Hfr. apply marked_projectilePhase.
    intros i e Hi. cbn [fr_s fr_deadEnemies] in *.
    apply healthy_marked. exact (Forall_lookup_1 _ _ _ _ H1 Hi). }
  clear Hfr.
  pull_let s2 H2.
  assert (Hs2 : Forall healthy (s_enemies s2))
    by (rewrite H2; exact (healthy_removeDead fr Hm)).
  clear H2.
  pull_let s3 H3.
  assert (Hs3 : Forall healthy (s_enemies s3))
    by (rewrite H3, enemies_pickupPhase; exact Hs2).
  clear H3.
  pull_let s4 H4. pull_let s5 H5.
  unfold floatPhase. view_setter s_enemies.
  rewrite H5. unfold particlePhase. view_setter s_enemies.
  rewrite H4. unfold moveProjectiles. view_setter s_enemies.
  exact Hs3.
Qed.

(** A frame keeps every enemy healthy. *)
Lemma healthy_loop W H mouse s :
  Forall healthy (s_enemies s) ->
  Forall healthy (s_enemies (loop M diff W H mouse s)).
Proof.
  intros Hs. unfold loop. destruct (s_alive s); cbn [negb]; [|exact Hs].
  apply healthy_entityPhases, healthy_timerPhases, Hs.
Qed.

(** *** A shot, and a whole session *)

Lemma enemies_bombLoop cx cy l s killed :
  s_enemies (fst (forEach (bombCallback M cx cy) l (s, killed)))
  = s_enemies s.
Proof.
  unfold forEach.
  apply (forEachFrom_inv (fun st => s_enemies (fst st) = s_enemies s));
    [|reflexivity].
  intros e i [s2 k2] H2. rewrite <- H2.
  cbv beta delta [bombCallback]. cbv iota.
  exec s_enemies s2; cbn [fst]; view_close s_enemies.
Qed.

Lemma enemies_rings cx cy l s :
  s_enemies (foldl (pushRing M cx cy) s l) = s_enemies s.
Proof.
  apply (foldl_inv (fun st => s_enemies st = s_enemies s)); [|reflexivity].
  intros st i Hst. rewrite <- Hst. reflexivity.
Qed.

Lemma enemies_projectiles cx cy dx dy speed isPierce l s :
  s_enemies (foldl (pushProjectile M cx cy dx dy speed isPierce) s l)
  = s_enemies s.
Proof.
  apply (foldl_inv (fun st => s_enemies st = s_enemies s)); [|reflexivity].
  intros st a Hst. rewrite <- Hst. reflexivity.
Qed.

(** The bomb only removes enemies. *)
Lemma healthy_spawnBombExplosion cx cy s :
  Forall healthy (s_enemies s) ->
  Forall healthy (s_enemies (spawnBombExplosion M cx cy s)).
Proof.
  intros Hs. cbv beta delta [spawnBombExplosion].
  generalize (enemies_bombLoop cx cy (s_enemies s) s []).
  destruct (forEach (bombCallback M cx cy) (s_enemies s) (s, []))
    as [s1 killed].
  intros E1. cbn [fst] in E1. cbv iota.
  pull_let s2 H2. pull_let s3 H3.
  unfold addShake. view_setter s_enemies.
  rewrite H3, enemies_rings, H2. cbn [s_enemies set_enemies].
  apply Forall_lookup. intros j x Hj.
  apply spliceAll_lookup in Hj as (i & Hi & _).
  rewrite E1 in Hi. exact (Forall_lookup_1 _ _ _ _ Hs Hi).
Qed.

Lemma healthy_shoot canvas mouse s :
  Forall healthy (s_enemies s) ->
  Forall healthy (s_enemies (shoot M diff canvas mouse s)).
Proof.
  intros Hs. cbv beta delta [shoot].
  match goal with
  | |- context [if ?c then _ else _] => destruct c; [exact Hs|]
  end.
  skip_let.
  match goal with
  | |- context [if ?c then _ else _] => destruct c; [exact Hs|]
  end.
  destruct canvas as [[W H]|]; [|exact Hs]. cbv iota.
  do 5 skip_let.
  match goal with
  | |- context [if ?c then _ else _] => destruct c; [exact Hs|]
  end.
  do 3 skip_let.
  pull_let s1 H1.
  assert (Hs1 : Forall healthy (s_enemies s1)).
  { rewrite H1. destruct (isPowerup bomb (s_activePowerup s)).
    - cbv zeta. do 2 view_setter s_enemies.
      apply healthy_spawnBombExplosion, Hs.
    - cbv zeta. rewrite enemies_projectiles. exact Hs. }
  clear H1.
  exec s_enemies s1; view_simpl s_enemies;
    match goal with
    | H : s_enemies ?v = s_enemies s1 |- _ => rewrite H; exact Hs1
    end.
Qed.

(** Whatever the player does, every enemy on the board between two events
    has at least one health point and at most its maximum. *)
Lemma healthy_run inputs : forall s,
  Forall healthy (s_enemies s) ->
  Forall healthy (s_enemies (run M diff inputs s)).
Proof.
  induction inputs as [|i inputs IH]; intros s Hs; [exact Hs|].
  cbn [run foldl]. apply IH. destruct i as [W H mouse|canvas mouse]; cbn [step].
  - apply healthy_loop, Hs.
  - apply healthy_shoot, Hs.
Qed.

(** A hit takes exactly one health point. *)
Lemma hit_takes_one W H p pi e ei fr :
  s_enemies (fr_s fr) !! ei = Some e ->
  includes (fr_deadEnemies fr) ei = false ->
  Qltb (len M (p_x p - e_x e) (p_y p - e_y e)) (p_radius p + e_radius e)
  = true ->
  exists e',
    s_enemies (fr_s (hitCallback M W H p pi e ei fr)) !! ei = Some e'
    /\ e_hp e' = (e_hp e - 1)%Z /\ e_maxHp e' = e_maxHp e.
Proof.
  intros He Hd Hhit.
  destruct (hitCallback_shape W H p pi e ei fr)
    as [([Hc|Hc] & _) | (_ & e' & kids & Hhp & Hmax & _ & Ee & _)];
    [congruence | congruence |].
  exists e'. split; [|split; assumption].
  rewrite Ee. apply lookup_app_l_Some, list_lookup_insert_eq.
  apply lookup_lt_Some in He. exact He.
Qed.

(** The hits of a frame that starts with healthy enemies. *)
Lemma marked_hits W H s :
  Forall healthy (s_enemies s) ->
  marked (projectilePhase M W H
            (mkLocals (fst (enemyPhase M diff W H s))
               (snd (enemyPhase M diff W H s)) ∅)).
Proof.
  intros Hs. apply marked_projectilePhase.
  pose proof (healthy_enemyPhase W H s Hs) as H1.
  destruct (enemyPhase M diff W H s) as [s1 dead]. cbn [fst snd] in *.
  intros i e Hi. cbn [fr_s fr_deadEnemies] in *.
  apply healthy_marked. exact (Forall_lookup_1 _ _ _ _ H1 Hi).
Qed.

Lemma healthy_initialState : Forall healthy (s_enemies (initialState diff)).
Proof. constructor. Qed.

Lemma created_at_full_health t W H o n :
  e_hp (fst (createEnemy M t W H o n))
  = e_maxHp (fst (createEnemy M t W H o n)).
Proof.
  pose proof (health_createEnemy t W H o n) as Hh.
  unfold health in Hh. injection Hh as -> ->. reflexivity.
Qed.

(** *** The offspring of a splitter that is shot *)

(** The kill of a splitter by a projectile appends exactly two offspring the
    first time, and marks the splitter; a splitter already marked leaves
    none. *)
Lemma shot_splitter_splits_once W H e ei fr :
  e_id e = "splitter"%string ->
  (e_splitDone e = false ->
   exists c0 c1,
     offspringOf M e c0 /\ offspringOf M e c1
     /\ s_enemies (fr_s (killEnemy M W H e ei fr))
        = <[ei := eset_splitDone true e]> (s_enemies (fr_s fr)) ++ [c0; c1])
  /\ (e_splitDone e = true ->
      s_enemies (fr_s (killEnemy M W H e ei fr)) = s_enemies (fr_s fr)).
Proof.
  intros Hid.
  destruct (enemies_killEnemy W H e ei fr) as (kids & Hoff & Hlen & E).
  rewrite Hid in Hlen, E. cbn [String.eqb Ascii.eqb Bool.eqb andb] in Hlen, E.
  split; intros Hdone; rewrite Hdone in Hlen, E; cbn [negb] in Hlen, E.
  - destruct kids as [|c0 [|c1 [|c2 kids]]]; try discriminate.
    exists c0, c1.
    apply Forall_cons in Hoff as (H0 & Hoff).
    apply Forall_cons in Hoff as (H1 & _).
    split; [exact H0|]. split; [exact H1|]. exact E.
  - destruct kids; [|discriminate]. rewrite app_nil_r in E. exact E.
Qed.
(** ** What a click does *)

Lemma shoot_refused canvas mouse s :
  accepts M canvas mouse s = false -> shoot M diff canvas mouse s = s.
Proof.
  unfold accepts. intros Hacc. cbv beta delta [shoot].
  destruct (s_alive s); [|reflexivity].
  destruct (s_reloading s); [reflexivity|].
  destruct (s_arrows s <=? 0)%Z eqn:Ea; [reflexivity|].
  cbn [negb orb andb] in Hacc. cbv beta iota delta [negb orb].
  apply Z.leb_gt in Ea. apply Z.ltb_lt in Ea. rewrite Ea in Hacc.
  cbn [andb] in Hacc. skip_let.
  destruct (0 <? s_shootCooldown s)%Z eqn:Ec; [reflexivity|].
  apply Z.ltb_ge in Ec. apply Z.leb_le in Ec. rewrite Ec in Hacc.
  cbn [andb] in Hacc.
  destruct canvas as [[W H]|]; [|reflexivity]. cbv iota.
  apply negb_false_iff in Hacc.
  pull_let cx Hcx. pull_let cy Hcy. pull_let dx Hdx. pull_let dy Hdy.
  pull_let dist Hdist. subst. rewrite Hacc. reflexivity.
Qed.

Lemma accepts_true canvas mouse s :
  accepts M canvas mouse s = true ->
  s_alive s = true /\ s_reloading s = false /\ (1 <= s_arrows s)%Z
  /\ (s_shootCooldown s <= 0)%Z
  /\ exists W H,
       canvas = Some (W, H)
       /\ Qeq_bool (len M (fst mouse - W / 2) (snd mouse - H / 2)) 0 = false.
Proof.
  unfold accepts. intros Hacc.
  apply andb_true_iff in Hacc as [Hacc Hc].
  apply andb_true_iff in Hacc as [Hacc Hcd].
  apply andb_true_iff in Hacc as [Hacc Harr].
  apply andb_true_iff in Hacc as [Ha Hr].
  apply negb_true_iff in Hr. apply Z.ltb_lt in Harr. apply Z.leb_le in Hcd.
  destruct canvas as [[W H]|]; [|discriminate].
  apply negb_true_iff in Hc.
  split; [exact Ha|]. split; [exact Hr|]. split; [lia|]. split; [exact Hcd|].
  exists W, H. split; [reflexivity | exact Hc].
Qed.

(** An accepted click: the bomb or the projectiles first, then the arrow,
    the cooldown and the bow, then the start of a reload. *)
Lemma shoot_accepted W H mouse s :
  accepts M (Some (W, H)) mouse s = true ->
  shoot M diff (Some (W, H)) mouse s
  = (let s1 := fired M W H mouse s in
     let s2 :=
       set_bowPulse 12
         (set_shootCooldown
            (if isPowerup rapid (s_activePowerup s) then 4 else 12)%Z
            (set_arrows (s_arrows s1 - 1)%Z s1)) in
     if (s_arrows s2 <=? 0)%Z
     then set_reloadProgress 0
            (set_reloadTimer (reloadTime diff) (set_reloading true s2))
     else s2).
Proof.
  intros Hacc.
  destruct (accepts_true _ _ _ Hacc)
    as (Ha & Hr & Harr & Hcd & W' & H' & E & Hd).
  injection E as <- <-.
  cbv beta delta [shoot]. rewrite Ha, Hr.
  replace (s_arrows s <=? 0)%Z with false by (symmetry; apply Z.leb_gt; lia).
  replace (0 <? s_shootCooldown s)%Z with false
    by (symmetry; apply Z.ltb_ge; lia).
  cbv beta iota delta [negb orb].
  pull_let cd Hcd'. pull_let cx Hcx. pull_let cy Hcy. pull_let dx Hdx.
  pull_let dy Hdy. pull_let dist Hdist. subst. rewrite Hd.
  reflexivity.
Qed.

Lemma timers_fired W H mouse s : timers (fired M W H mouse s) = timers s.
Proof.
  unfold fired. destruct (isPowerup bomb (s_activePowerup s)).
  - do 2 view_setter timers. apply timers_spawnBombExplosion.
  - apply (foldl_inv (fun st => timers st = timers s)); [|reflexivity].
    intros st a Hst. rewrite <- Hst. reflexivity.
Qed.

(** ** The quiver *)

Lemma timers_fields_eq s s' :
  timers s' = timers s ->
  s_arrows s' = s_arrows s /\ s_maxArrows s' = s_maxArrows s
  /\ s_reloading s' = s_reloading s /\ s_reloadTimer s' = s_reloadTimer s.
Proof. unfold timers. intros E. injection E. intuition. Qed.

Lemma ammo_timers s s' :
  timers s' = timers s -> ammoOK diff s -> ammoOK diff s'.
Proof.
  unfold timers, ammoOK. intros E. injection E as -> -> -> -> _ _ _ _.
  auto.
Qed.

Lemma ammo_shoot canvas mouse s :
  (1 <= reloadTime diff)%Z ->
  ammoOK diff s -> ammoOK diff (shoot M diff canvas mouse s).
Proof.
  intros HD Hs.
  destruct (accepts M canvas mouse s) eqn:Hacc;
    [|rewrite shoot_refused by exact Hacc; exact Hs].
  destruct (accepts_true _ _ _ Hacc) as (_ & Hr & _ & _ & W & H & -> & _).
  rewrite (shoot_accepted W H mouse s Hacc).
  pose proof (timers_fired W H mouse s) as E.
  set (s1 := fired M W H mouse s) in *. cbv zeta.
  apply timers_fields_eq in E as (Ea & Em & Er & _).
  unfold ammoOK in Hs. rewrite Hr in Hs. destruct Hs as (Hm & Harr).
  cbn [s_arrows set_bowPulse set_shootCooldown set_arrows].
  rewrite Ea.
  destruct (s_arrows s - 1 <=? 0)%Z eqn:Ez.
  - apply Z.leb_le in Ez. unfold ammoOK. proj_simpl.
    rewrite Em. split; [exact Hm|]. split; lia.
  - apply Z.leb_gt in Ez. unfold ammoOK. proj_simpl.
    rewrite Em, Er, Hr. split; [exact Hm|]. lia.
Qed.

Lemma ammo_loop W H mouse s :
  (1 <= maxArrows diff)%Z ->
  ammoOK diff s -> ammoOK diff (loop M diff W H mouse s).
Proof.
  intros Hmax Hs. pose proof (timers_loop W H mouse s) as E.
  destruct (s_alive s); [|exact (ammo_timers _ _ E Hs)].
  unfold timers at 2 in E. unfold waveTimers, reloadTimers in E.
  unfold ammoOK in *. destruct Hs as (Hm & Hs).
  destruct (700 <? s_waveTimer s + 1)%Z;
    destruct (s_reloading s);
    try destruct (s_reloadTimer s - 1 <=? 0)%Z eqn:Ez;
    try apply Z.leb_le in Ez; try apply Z.leb_gt in Ez;
    apply timers_fields in E;
    destruct E as (E1 & E2 & E3 & E4 & _);
    rewrite E1, E2, E3, ?E4; (split; [exact Hm|]); lia.
Qed.

Lemma ammo_run inputs : forall s,
  (1 <= maxArrows diff)%Z -> (1 <= reloadTime diff)%Z ->
  ammoOK diff s -> ammoOK diff (run M diff inputs s).
Proof.
  induction inputs as [|i inputs IH]; intros s Hmax HD Hs; [exact Hs|].
  cbn [run foldl]. apply IH; [exact Hmax | exact HD |].
  destruct i as [W H mouse|canvas mouse]; cbn [step].
  - apply ammo_loop; assumption.
  - apply ammo_shoot; assumption.
Qed.

(** ** The wave counter *)

Lemma wave_count inputs : forall s,
  (0 <= s_waveTimer s <= 700)%Z ->
  let k := Z.of_nat (simSteps M diff inputs s) in
  s_wave (run M diff inputs s) = (s_wave s + (s_waveTimer s + k) / 701)%Z
  /\ s_waveTimer (run M diff inputs s) = ((s_waveTimer s + k) mod 701)%Z.
Proof.
  induction inputs as [|i rest IH]; intros s Hwt k; subst k.
  - cbn [simSteps run foldl Z.of_nat]. rewrite Z.add_0_r.
    rewrite Z.div_small, Z.mod_small by lia. split; lia.
  - cbn [simSteps run foldl].
    change (foldl (fun s0 i0 => step M diff i0 s0) (step M diff i s) rest)
      with (run M diff rest (step M diff i s)).
    destruct i as [W H mouse | canvas mouse]; cbn [step].
    + pose proof (waves_loop W H mouse s) as E.
      destruct (s_alive s) eqn:Ha.
      * unfold waveTimers, timers, waves in E.
        rewrite Nat2Z.inj_add. change (Z.of_nat 1) with 1%Z.
        destruct (700 <? s_waveTimer s + 1)%Z eqn:Ez.
        -- apply Z.ltb_lt in Ez. injection E as Ew Et _.
           destruct (IH (loop M diff W H mouse s)) as [IH1 IH2];
             [rewrite Et; lia|].
           rewrite IH1, IH2, Ew, Et.
           replace (s_waveTimer s
                    + (1 + Z.of_nat (simSteps M diff rest
                                       (loop M diff W H mouse s))))%Z
             with (Z.of_nat (simSteps M diff rest (loop M diff W H mouse s))
                   + 1 * 701)%Z by lia.
           rewrite Z.div_add, Z.mod_add, !Z.add_0_l by lia.
           split; [lia | reflexivity].
        -- apply Z.ltb_ge in Ez. injection E as Ew Et _.
           destruct (IH (loop M diff W H mouse s)) as [IH1 IH2];
             [rewrite Et; lia|].
           rewrite IH1, IH2, Ew, Et.
           replace (s_waveTimer s + 1
                    + Z.of_nat (simSteps M diff rest
                                  (loop M diff W H mouse s)))%Z
             with (s_waveTimer s
                   + (1 + Z.of_nat (simSteps M diff rest
                                      (loop M diff W H mouse s))))%Z by lia.
           split; reflexivity.
      * assert (El : loop M diff W H mouse s = s)
          by (unfold loop; rewrite Ha; reflexivity).
        rewrite El. cbn [Nat.add]. apply IH. exact Hwt.
    + pose proof (waves_shoot canvas mouse s) as E. unfold waves in E.
      injection E as Ew Et _. cbn [Nat.add].
      destruct (IH (shoot M diff canvas mouse s)) as [IH1 IH2];
        [rewrite Et; exact Hwt|].
      rewrite IH1, IH2, Ew, Et. split; reflexivity.
Qed.

(** ** The gauges *)

Lemma grows_refl m : grows m m.
Proof.
  unfold grows. repeat split; try lia; try apply Qle_refl; auto.
  exists []. rewrite app_nil_r. reflexivity.
Qed.

Lemma grows_trans m1 m2 m3 : grows m1 m2 -> grows m2 m3 -> grows m1 m3.
Proof.
  unfold grows.
  intros (Hh & Hs & Hw & Ha & more & Hc) (Hh' & Hs' & Hw' & Ha' & more' & Hc').
  repeat split; try lia; auto.
  - eapply Qle_trans; eassumption.
  - exists (more ++ more'). rewrite Hc', Hc, app_assoc. reflexivity.
Qed.

Lemma grows_eq m m' : m' = m -> grows m m'.
Proof. intros ->. apply grows_refl. Qed.

(** A loop keeps what each of its steps keeps. *)
Lemma forEachFrom_steps {A St : Type} (Q : A -> Prop) (I : St -> Prop)
    (R : St -> St -> Prop) (f : A -> nat -> St -> St) :
  (forall st, R st st) ->
  (forall a b c, R a b -> R b c -> R a c) ->
  (forall a i st, Q a -> I st -> I (f a i st) /\ R st (f a i st)) ->
  forall l i st, Forall Q l -> I st ->
    I (forEachFrom f i l st) /\ R st (forEachFrom f i l st).
Proof.
  intros Hrefl Htrans Hf l.
  induction l as [|a l IH]; intros i st Hl Hst; cbn [forEachFrom].
  - split; [exact Hst | apply Hrefl].
  - apply Forall_cons in Hl as [Ha Hl].
    destruct (Hf a i st Ha Hst) as [Hi Hr].
    destruct (IH (S i) (f a i st) Hl Hi) as [Hi' Hr'].
    split; [exact Hi' | exact (Htrans _ _ _ Hr Hr')].
Qed.

Lemma foldl_steps {A St : Type} (I : St -> Prop) (R : St -> St -> Prop)
    (f : St -> A -> St) :
  (forall st, R st st) ->
  (forall a b c, R a b -> R b c -> R a c) ->
  (forall st a, I st -> I (f st a) /\ R st (f st a)) ->
  forall l st, I st -> I (foldl f st l) /\ R st (foldl f st l).
Proof.
  intros Hrefl Htrans Hf l.
  induction l as [|a l IH]; intros st Hst; cbn [foldl].
  - split; [exact Hst | apply Hrefl].
  - destruct (Hf st a Hst) as [H1 H2].
    destruct (IH (f st a) H1) as [H3 H4].
    split; [exact H3 | exact (Htrans _ _ _ H2 H4)].
Qed.

(** *** The timer steps *)

Lemma meters_blind_timers W H s :
  meters (spawnPhase M diff W H s) = meters s
  /\ meters (reloadPhase M diff (W / 2) (H / 2) s) = meters s
  /\ meters (cooldownPhase s) = meters s
  /\ meters (shakePhase M s) = meters s.
Proof.
  repeat split.
  - cbv beta delta [spawnPhase]. exec meters s; view_close meters.
  - cbv beta delta [reloadPhase]. exec meters s; view_close meters.
  - cbv beta delta [cooldownPhase]. exec meters s; view_close meters.
  - cbv beta delta [shakePhase]. exec meters s; view_close meters.
Qed.

(** Rewrites [V (f v s)] to [V s] for a field update [f] that [V] does not
    read, whatever [v] and [s] are. *)
Ltac blind V f :=
  let Hb := fresh "Hb" in
  assert (Hb : forall v y, V (f v y) = V y) by (intros; reflexivity);
  rewrite !Hb; clear Hb.

(** Closes a goal about [sound] and [grows] of explicit gauges. *)
Ltac meter_solve :=
  unfold sound, grows, meters in *; cbn in *;
  intuition (try lia; try discriminate; try congruence;
             try apply Qle_refl;
             try (exists []; rewrite app_nil_r; reflexivity)).

Lemma sound_wavePhase s :
  sound (meters s) ->
  sound (meters (wavePhase s)) /\ grows (meters s) (meters (wavePhase s)).
Proof.
  intros Hs. unfold wavePhase. cbv zeta. proj_simpl.
  destruct (Z.ltb_spec 700 (s_waveTimer s + 1)); proj_simpl;
    match goal with
    | |- context [if ?c then _ else _] => destruct c
    end; meter_solve.
Qed.

Lemma sound_comboPhase s :
  sound (meters s) ->
  sound (meters (comboPhase s)) /\ grows (meters s) (meters (comboPhase s)).
Proof.
  intros Hs. unfold comboPhase. cbv zeta. proj_simpl.
  destruct (Z.ltb_spec 0 (s_comboTimer s)) as [E0|E0];
    [destruct (Z.eqb_spec (s_comboTimer s - 1) 0) as [E1|E1]|];
    meter_solve.
Qed.

Lemma sound_powerupTimerPhase s :
  sound (meters s) ->
  sound (meters (powerupTimerPhase s))
  /\ grows (meters s) (meters (powerupTimerPhase s)).
Proof.
  intros Hs. unfold powerupTimerPhase. cbv zeta. proj_simpl.
  destruct (Z.ltb_spec 0 (s_powerupTimer s)) as [E0|E0];
    [destruct (Z.eqb_spec (s_powerupTimer s - 1) 0) as [E1|E1]|];
    meter_solve.
Qed.

Lemma wf_step s s' :
  (sound (meters s) ->
   sound (meters s') /\ grows (meters s) (meters s')) ->
  (Forall archetypal (s_enemies s) -> Forall archetypal (s_enemies s')) ->
  wellFormed s -> wellFormed s' /\ advances s s'.
Proof.
  intros Hm He (Hs & Ha). destruct (Hm Hs) as [Hs' Hg].
  split; [split; [exact Hs' | exact (He Ha)] | exact Hg].
Qed.

Lemma wf_blind s s' :
  meters s' = meters s -> s_enemies s' = s_enemies s ->
  wellFormed s -> wellFormed s' /\ advances s s'.
Proof.
  intros Em Ee. apply wf_step.
  - rewrite Em. intros Hs. split; [exact Hs | apply grows_refl].
  - rewrite Ee. auto.
Qed.

Lemma wf_chain s s' s'' :
  (wellFormed s -> wellFormed s' /\ advances s s') ->
  (wellFormed s' -> wellFormed s'' /\ advances s' s'') ->
  wellFormed s -> wellFormed s'' /\ advances s s''.
Proof.
  intros H1 H2 Hs. destruct (H1 Hs) as [Hs' Hg]. destruct (H2 Hs') as [Hs'' Hg'].
  split; [exact Hs'' | exact (grows_trans _ _ _ Hg Hg')].
Qed.

Lemma statics_createEnemy t W H o n :
  statics (fst (createEnemy M t W H o n)) = staticsOf t.
Proof.
  cbv beta delta [createEnemy]. cbv zeta.
  destruct (Qfloor (random M n * 4)) as [|p|p];
    [reflexivity | | reflexivity].
  destruct p as [[p|p|]|[p|p|]|]; reflexivity.
Qed.

Lemma archetypal_statics e e' :
  statics e' = statics e -> archetypal e -> archetypal e'.
Proof. unfold archetypal. intros ->. auto. Qed.

Lemma archetypal_spawnPhase W H s :
  Forall archetypal (s_enemies s) ->
  Forall archetypal (s_enemies (spawnPhase M diff W H s)).
Proof.
  intros Hs. cbv beta delta [spawnPhase]. cbv zeta.
  match goal with
  | |- context [if ?c then _ else _] => destruct c; [|exact Hs]
  end.
  proj_simpl.
  match goal with
  | |- context [match ?o with Some _ => _ | None => _ end] =>
      destruct o as [type|] eqn:Epool; [|exact Hs]
  end.
  apply lookup_take_Some in Epool as (Epool & _).
  match goal with
  | |- context [createEnemy M type W H ?o ?n] =>
      generalize (statics_createEnemy type W H o n);
      destruct (createEnemy M type W H o n) as [e n']
  end.
  intros Hst. cbn [fst] in Hst. proj_simpl.
  apply Forall_app_2; [exact Hs|].
  constructor; [|constructor].
  unfold archetypal. apply Exists_exists. exists type.
  split; [exact (list_elem_of_lookup_2 _ _ _ Epool)|].
  rewrite <- Hst. reflexivity.
Qed.

Lemma wf_timerPhases W H s :
  wellFormed s ->
  wellFormed (timerPhases M diff W H s)
  /\ advances s (timerPhases M diff W H s).
Proof.
  remember (timerPhases M diff W H s) as r eqn:Hr. revert Hr.
  cbv beta delta [timerPhases].
  pull_let s1 H1. pull_let s2 H2. pull_let s3 H3. pull_let s4 H4.
  pull_let s5 H5. pull_let s6 H6. pull_let s7 H7. intros ->.
  destruct (meters_blind_timers W H s1) as (B2 & _).
  destruct (meters_blind_timers W H s2) as (_ & B3 & _).
  destruct (meters_blind_timers W H s3) as (_ & _ & B4 & _).
  destruct (meters_blind_timers W H s6) as (_ & _ & _ & B7).
  destruct (enemies_timerPhases_but_spawn W H s) as (E1 & _).
  destruct (enemies_timerPhases_but_spawn W H s2) as (_ & E3 & _).
  destruct (enemies_timerPhases_but_spawn W H s3) as (_ & _ & E4 & _).
  destruct (enemies_timerPhases_but_spawn W H s4) as (_ & _ & _ & E5 & _).
  destruct (enemies_timerPhases_but_spawn W H s5) as (_ & _ & _ & _ & E6 & _).
  destruct (enemies_timerPhases_but_spawn W H s6) as (_ & _ & _ & _ & _ & E7).
  rewrite <- H1 in E1. rewrite <- H2 in B2. rewrite <- H3 in B3, E3.
  rewrite <- H4 in B4, E4. rewrite <- H5 in E5. rewrite <- H6 in E6.
  rewrite <- H7 in B7, E7.
  apply (wf_chain s s7); [|apply wf_blind; reflexivity].
  apply (wf_chain s s6); [|apply wf_blind; assumption].
  apply (wf_chain s s5);
    [|apply wf_step; [rewrite H6; apply sound_powerupTimerPhase
                     |rewrite E6; auto]].
  apply (wf_chain s s4);
    [|apply wf_step; [rewrite H5; apply sound_comboPhase|rewrite E5; auto]].
  apply (wf_chain s s3); [|apply wf_blind; assumption].
  apply (wf_chain s s2); [|apply wf_blind; assumption].
  apply (wf_chain s s1);
    [|apply wf_step; [rewrite B2; intros Hs; split; [exact Hs|apply grows_refl]
                     |rewrite H2; apply archetypal_spawnPhase]].
  apply wf_step; [rewrite H1; apply sound_wavePhase | rewrite E1; auto].
Qed.

(** *** The enemy update *)

Lemma archetypal_facts e :
  archetypal e ->
  0 < e_damage e /\ (0 < e_points e)%Z /\ 0 < e_radius e
  /\ (1 <= e_maxHp e <= 5)%Z
  /\ e_pattern e <> spiral /\ e_pattern e <> split.
Proof.
  unfold archetypal, ENEMY_TYPES. intros Hex.
  repeat (apply Exists_cons in Hex as [Hex|Hex]);
    [..|apply Exists_nil in Hex; contradiction];
    unfold statics, staticsOf in Hex;
    injection Hex as _ _ Hmax Hdmg Hrad Hpts Hpat;
    rewrite Hmax, Hdmg, Hrad, Hpts, Hpat; cbn;
    repeat split; try lia; try discriminate.
Qed.

Lemma statics_moveEnemy W H e s :
  statics (fst (moveEnemy M W H e s)) = statics e.
Proof.
  cbv beta delta [moveEnemy].
  destruct (e_pattern e) eqn:Ep; cbv zeta;
    repeat match goal with
      | |- context [if ?c then _ else _] => destruct c
      | |- context [let '(_, _) := ?p in _] => destruct p
      end; unfold statics; cbn; rewrite ?Ep; reflexivity.
Qed.

Lemma statics_pulseEnemy e : statics (pulseEnemy e) = statics e.
Proof.
  unfold pulseEnemy. cbv zeta.
  repeat match goal with
    | |- context [if ?c then _ else _] => destruct c
    end; reflexivity.
Qed.

Lemma meters_moveEnemy W H e s :
  meters (snd (moveEnemy M W H e s)) = meters s.
Proof.
  cbv beta delta [moveEnemy].
  destruct (e_pattern e); exec meters s; cbn [snd]; view_close meters.
Qed.

Lemma sound_contacted dmg m :
  0 <= dmg -> sound m ->
  sound (contacted dmg m) /\ grows m (contacted dmg m).
Proof.
  intros Hd Hs. unfold contacted. cbv zeta.
  assert (H0 : 0 <= Qmax 0 (m_hp m - dmg)) by apply Q.le_max_l.
  assert (H1 : Qmax 0 (m_hp m - dmg) <= m_hp m).
  { apply Q.max_lub; [apply Hs | lra]. }
  unfold Qleb.
  destruct (Qle_bool (Qmax 0 (m_hp m - dmg)) 0) eqn:Ez.
  - apply Qle_bool_iff in Ez.
    unfold sound, grows in *; cbn in *.
    destruct Hs as ((Hh0 & Hh1) & Ha & Hd' & Hrest).
    split; [split; [split; [exact H0 | lra]|]|].
    + split; [discriminate|]. split.
      * intros _. split; [exact Ez|]. intros E.
        apply app_eq_nil in E as [_ E]. discriminate.
      * intuition lia.
    + split; [exact H1|]. split; [lia|]. split; [lia|].
      split; [reflexivity|]. eexists. reflexivity.
  - assert (Hpos : 0 < Qmax 0 (m_hp m - dmg)).
    { apply Qnot_le_lt. intros Hle. apply Qle_bool_iff in Hle. congruence. }
    unfold sound, grows in *; cbn in *.
    destruct Hs as ((Hh0 & Hh1) & Ha & Hd' & Hrest).
    split; [split; [split; [exact H0 | lra]|]|].
    + split; [intros E; split; [exact Hpos | exact (proj2 (Ha E))]|].
      split; [|intuition lia].
      intros E. destruct (Hd' E) as [Hle _]. lra.
    + split; [exact H1|]. split; [lia|]. split; [lia|].
      split; [auto|]. exists []. rewrite app_nil_r. reflexivity.
Qed.

Section Gauges.

Hypothesis mult_nonneg : 0 <= playerDamageMult diff.

(** The enemy update writes the enemy it is called on, keeps its archetype,
    and changes the gauges only by a contact with the bow. *)
Lemma meters_enemyCallback W H a i s dead :
  exists e',
    statics e' = statics a
    /\ s_enemies (fst (enemyCallback M diff W H a i (s, dead)))
       = <[i := e']> (s_enemies s)
    /\ (meters (fst (enemyCallback M diff W H a i (s, dead))) = meters s
        \/ meters (fst (enemyCallback M diff W H a i (s, dead)))
           = contacted (e_damage a * playerDamageMult diff * 0.017) (meters s)).
Proof.
  remember (enemyCallback M diff W H a i (s, dead)) as r eqn:Hr. revert Hr.
  cbv beta delta [enemyCallback]. cbv iota.
  do 2 skip_let.
  pull_let e0 He0.
  assert (Hs0 : statics e0 = statics a)
    by (rewrite He0; destruct (0 <? e_flashTimer a)%Z; reflexivity).
  clear He0.
  generalize (statics_moveEnemy W H e0 s) (enemies_moveEnemy W H e0 s)
             (meters_moveEnemy W H e0 s).
  destruct (moveEnemy M W H e0 s) as [e1 s1].
  intros Hs1 He1 Hm1. cbn [fst snd] in Hs1, He1, Hm1. cbv iota.
  pull_let e2 He2. pull_let e3 He3.
  assert (Hs3 : statics e3 = statics a).
  { rewrite He3.
    destruct (Pattern_eqb (e_pattern e2) chase);
      [|change (statics (eset_angle ?x ?y)) with (statics y)];
      rewrite He2, statics_pulseEnemy; congruence. }
  clear He2 He3.
  assert (Hdmg : e_damage e3 = e_damage a).
  { unfold statics in Hs3. injection Hs3. auto. }
  pull_let s2 Hs2. pull_let dx Hdx. pull_let dy Hdy.
  unfold meters in Hm1. injection Hm1 as Eh Ea Ec Esc Ew Eco Ect Ep Ept.
  match goal with
  | |- context [if Qltb ?x ?y then _ else _] => destruct (Qltb x y)
  end.
  - pull_let dmg Hd. pull_let s3 H3. pull_let s4 H4.
    match type of H4 with
    | _ = spawnParticles _ ?cx ?cy ?c ?k ?m ?s0 =>
        destruct (spawnParticles_shape cx cy c k m s0) as (ps & n & E4)
    end.
    rewrite E4 in H4. clear E4.
    pull_let s5 H5. pull_let s6 H6. pull_let s7 H7. pull_let s8 H8.
    pull_let dead' Hdead.
    subst s8 s7 s6 s5 s4 s3 s2 dmg.
    unfold addShake. proj_simpl.
    rewrite Hdmg. unfold Qleb.
    destruct (Qle_bool
                (Qmax 0 (s_hp s1
                         - e_damage a * playerDamageMult diff * 0.017)) 0)
      eqn:Ez;
      intros ->; exists e3; (split; [exact Hs3|]);
      cbn [fst]; proj_simpl;
      (split; [rewrite He1; reflexivity|]); right;
      unfold contacted, meters, Qleb; cbv zeta;
      cbn [m_hp m_alive m_calls m_score m_wave m_combo m_comboTimer
           m_power m_powerTimer];
      rewrite <- Eh, <- Ea, <- Ec, <- Esc, <- Ew, <- Ep, <- Ept, Ez;
      reflexivity.
  - intros ->. exists e3. split; [exact Hs3|].
    subst s2. cbn [fst]. proj_simpl.
    split; [rewrite He1; reflexivity|]. left.
    unfold meters. proj_simpl. congruence.
Qed.

Lemma wf_enemyCallback W H a i st :
  archetypal a -> wellFormed (fst st) ->
  wellFormed (fst (enemyCallback M diff W H a i st))
  /\ advances (fst st) (fst (enemyCallback M diff W H a i st)).
Proof.
  destruct st as [s dead]. cbn [fst]. intros Ha (Hs & He).
  destruct (meters_enemyCallback W H a i s dead) as (e' & Hst & Een & Hm).
  assert (He' : Forall archetypal
                  (s_enemies (fst (enemyCallback M diff W H a i (s, dead))))).
  { rewrite Een. apply Forall_insert; [exact He|].
    exact (archetypal_statics _ _ Hst Ha). }
  unfold wellFormed, advances.
  destruct Hm as [Hm|Hm]; rewrite Hm.
  - split; [split; [exact Hs | exact He'] | apply grows_refl].
  - destruct (sound_contacted
                (e_damage a * playerDamageMult diff * 0.017) (meters s))
      as [Hs' Hg]; [|exact Hs|].
    + destruct (archetypal_facts a Ha) as (Hd & _).
      apply Qmult_le_0_compat; [|discriminate].
      apply Qmult_le_0_compat; [apply Qlt_le_weak; exact Hd | exact mult_nonneg].
    + split; [split; [exact Hs' | exact He'] | exact Hg].
Qed.

Lemma wf_enemyPhase W H s :
  wellFormed s ->
  wellFormed (fst (enemyPhase M diff W H s))
  /\ advances s (fst (enemyPhase M diff W H s)).
Proof.
  intros Hs. unfold enemyPhase, forEach.
  apply (forEachFrom_steps archetypal
           (fun st => wellFormed (fst st))
           (fun st st' => advances (fst st) (fst st'))).
  - intros st. apply grows_refl.
  - intros a b c. apply grows_trans.
  - intros a i st. apply wf_enemyCallback.
  - apply Hs.
  - exact Hs.
Qed.

(** *** The hits *)

Lemma meters_killEnemy W H e ei fr :
  meters (fr_s (killEnemy M W H e ei fr))
  = killed (Math_round (earned e (fr_s fr))) (meters (fr_s fr)).
Proof.
  cbv beta delta [killEnemy].
  pull_let s0 H0. pull_let dead Hd. pull_let gain Hg.
  pull_let s1 H1. pull_let s2 H2. pull_let s3 H3. pull_let s4 H4.
  pull_let s5 H5.
  assert (E5 : meters s5
               = killed (Math_round (earned e (fr_s fr))) (meters (fr_s fr)))
    by (subst; reflexivity).
  clear H0 Hd Hg H1 H2 H3 H4 H5.
  exec meters s5; cbn [fr_s]; rewrite <- E5; view_close meters.
Qed.

Lemma statics_pushOffspring W H e s k :
  exists child,
    statics child = staticsOf scoutType
    /\ s_enemies (pushOffspring M W H e scoutType s k) = s_enemies s ++ [child].
Proof.
  cbv beta delta [pushOffspring]. cbv zeta.
  match goal with
  | |- context [createEnemy M scoutType W H ?o ?n] =>
      generalize (statics_createEnemy scoutType W H o n);
      destruct (createEnemy M scoutType W H o n) as [child n']
  end.
  intros Hst. cbn [fst] in Hst. exists child. split; [exact Hst|reflexivity].
Qed.

Lemma archetypal_killEnemy W H e ei fr :
  archetypal e ->
  Forall archetypal (s_enemies (fr_s fr)) ->
  Forall archetypal (s_enemies (fr_s (killEnemy M W H e ei fr))).
Proof.
  intros He Hfr.
  remember (killEnemy M W H e ei fr) as r eqn:Hr. revert Hr.
  cbv beta delta [killEnemy].
  do 12 (exec_let s_enemies (fr_s fr)).
  pull_let s1 H1.
  assert (E1 : Forall archetypal (s_enemies s1)).
  { rewrite H1.
    destruct (String.eqb (e_id e) "splitter" && negb (e_splitDone e)).
    - change (List.find (fun t => String.eqb (t_id t) "scout") ENEMY_TYPES)
        with (Some scoutType).
      cbv zeta. cbv iota. cbn [seq foldl].
      match goal with
      | |- context [pushOffspring M W H e scoutType ?s0 0] =>
          destruct (statics_pushOffspring W H e s0 0) as (c0 & Hc0 & E0);
          destruct (statics_pushOffspring W H e
                      (pushOffspring M W H e scoutType s0 0) 1)
            as (c1 & Hc1 & E1)
      end.
      rewrite E1, E0. cbn [s_enemies set_enemies].
      assert (Hscout : forall c, statics c = staticsOf scoutType ->
                                 archetypal c).
      { intros c Hc. unfold archetypal, ENEMY_TYPES.
        apply Exists_cons_hd. exact Hc. }
      repeat apply Forall_app_2.
      + apply Forall_insert.
        * match goal with
          | H : s_enemies _ = s_enemies (fr_s fr) |- _ => rewrite H
          end. exact Hfr.
        * exact (archetypal_statics _ e eq_refl He).
      + constructor; [exact (Hscout c0 Hc0) | constructor].
      + constructor; [exact (Hscout c1 Hc1) | constructor].
    - match goal with
      | H : s_enemies _ = s_enemies (fr_s fr) |- _ => rewrite H
      end. exact Hfr. }
  clear H1.
  pull_let dead' Hd'.
  pull_let s2 H2.
  assert (E2 : s_enemies s2 = s_enemies s1)
    by (rewrite H2; exec s_enemies s1; view_close s_enemies).
  intros ->. cbn [fr_s]. rewrite E2. exact E1.
Qed.

Lemma Math_round_nonneg q : 0 <= q -> (0 <= Math_round q)%Z.
Proof.
  intros Hq. unfold Math_round.
  change 0%Z with (Qfloor 0). apply Qfloor_resp_le. lra.
Qed.

Lemma earned_nonneg e s :
  (0 <= e_points e)%Z -> (0 <= s_wave s)%Z -> (0 <= s_combo s)%Z ->
  (0 <= Math_round (earned e s))%Z.
Proof.
  intros Hp Hw Hc. apply Math_round_nonneg. unfold earned.
  assert (Hf : (0 <= Qfloor (inject_Z (s_combo s) / 3))%Z).
  { change 0%Z with (Qfloor 0). apply Qfloor_resp_le.
    apply Qle_shift_div_l; [reflexivity|]. rewrite Qmult_0_l.
    change 0 with (inject_Z 0). rewrite <- Zle_Qle. exact Hc. }
  apply Qmult_le_0_compat.
  - apply Qmult_le_0_compat; change 0 with (inject_Z 0);
      rewrite <- Zle_Qle; assumption.
  - assert (0 <= inject_Z (Qfloor (inject_Z (s_combo s) / 3)))
      by (change 0 with (inject_Z 0); rewrite <- Zle_Qle; exact Hf).
    lra.
Qed.

Lemma sound_killed gain m :
  (0 <= gain)%Z -> sound m -> sound (killed gain m) /\ grows m (killed gain m).
Proof. intros Hg Hs. unfold killed. meter_solve. Qed.

Lemma sound_counters s :
  sound (meters s) -> (1 <= s_wave s)%Z /\ (0 <= s_combo s)%Z.
Proof. unfold sound, meters. cbn. intuition lia. Qed.

Lemma wf_hitCallback W H p pi a i fr :
  archetypal a -> wellFormed (fr_s fr) ->
  wellFormed (fr_s (hitCallback M W H p pi a i fr))
  /\ advances (fr_s fr) (fr_s (hitCallback M W H p pi a i fr)).
Proof.
  intros Ha Hwf.
  assert (Hsame : wellFormed (fr_s fr) /\ advances (fr_s fr) (fr_s fr))
    by (split; [exact Hwf | apply grows_refl]).
  cbv beta delta [hitCallback]. cbv zeta beta.
  destruct (includes (fr_deadEnemies fr) i); [exact Hsame|].
  destruct (Qltb (len M (p_x p - e_x a) (p_y p - e_y a))
              (p_radius p + e_radius a)); [|exact Hsame].
  set (e2 := eset_flashTimer 7%Z (eset_hp (e_hp a - 1)%Z a)).
  set (s2 := spawnParticles M (e_x e2) (e_y e2) (e_color e2) 4 1
               (set_enemies (<[i := e2]> (s_enemies (fr_s fr))) (fr_s fr))).
  set (fr1 := mkLocals s2 (fr_deadEnemies fr) (fr_deadProjectiles fr)).
  assert (Ha2 : archetypal e2) by exact (archetypal_statics e2 a eq_refl Ha).
  assert (Em : meters (fr_s fr1) = meters (fr_s fr)).
  { subst fr1 s2. cbn [fr_s].
    rewrite (view_spawnParticles meters (fun _ _ _ => eq_refl)).
    reflexivity. }
  assert (Ee : s_enemies (fr_s fr1) = <[i := e2]> (s_enemies (fr_s fr))).
  { subst fr1 s2. cbn [fr_s].
    rewrite (view_spawnParticles s_enemies (fun _ _ _ => eq_refl)).
    reflexivity. }
  assert (H1 : wellFormed (fr_s fr1) /\ advances (fr_s fr) (fr_s fr1)).
  { unfold wellFormed, advances. rewrite Em, Ee.
    split; [split; [apply Hwf|] | apply grows_refl].
    apply Forall_insert; [apply Hwf | exact Ha2]. }
  assert (Hfin : forall fr2 : Locals,
            wellFormed (fr_s fr2) /\ advances (fr_s fr) (fr_s fr2) ->
            wellFormed
              (fr_s (if p_piercing p then fr2
                     else mkLocals (fr_s fr2) (fr_deadEnemies fr2)
                            ({[pi]} ∪ fr_deadProjectiles fr2)))
            /\ advances (fr_s fr)
                 (fr_s (if p_piercing p then fr2
                        else mkLocals (fr_s fr2) (fr_deadEnemies fr2)
                               ({[pi]} ∪ fr_deadProjectiles fr2)))).
  { intros fr2 Hfr2. destruct (p_piercing p); exact Hfr2. }
  apply Hfin. clear Hfin.
  destruct (e_hp e2 <=? 0)%Z; [|exact H1].
  destruct H1 as ((Hs1 & He1) & Hg1).
  destruct (archetypal_facts e2 Ha2) as (_ & Hpts & _).
  destruct (sound_killed (Math_round (earned e2 (fr_s fr1))) (meters (fr_s fr1)))
    as [Hs' Hg']; [|exact Hs1|].
  { destruct (sound_counters _ Hs1) as [Hw Hc].
    apply earned_nonneg; lia. }
  unfold wellFormed, advances. rewrite meters_killEnemy.
  split; [split; [exact Hs'|] | exact (grows_trans _ _ _ Hg1 Hg')].
  apply archetypal_killEnemy; assumption.
Qed.

Lemma wf_projectilePhase W H fr :
  wellFormed (fr_s fr) ->
  wellFormed (fr_s (projectilePhase M W H fr))
  /\ advances (fr_s fr) (fr_s (projectilePhase M W H fr)).
Proof.
  intros Hwf. unfold projectilePhase, forEach.
  apply (forEachFrom_steps (fun _ => True)
           (fun st => wellFormed (fr_s st))
           (fun st st' => advances (fr_s st) (fr_s st'))).
  - intros st. apply grows_refl.
  - intros a b c. apply grows_trans.
  - intros p pi fr1 _ H1. unfold projectileCallback, forEach.
    apply (forEachFrom_steps archetypal
             (fun st => wellFormed (fr_s st))
             (fun st st' => advances (fr_s st) (fr_s st'))).
    + intros st. apply grows_refl.
    + intros a b c. apply grows_trans.
    + intros a i st. apply wf_hitCallback.
    + apply H1.
    + exact H1.
  - apply Forall_forall. auto.
  - exact Hwf.
Qed.

(** *** Removal, pickups and ageing *)

Lemma view_addFloat {T : Type} (V : GS -> T) :
  (forall fl s, V (set_floats fl s) = V s) ->
  forall x y t c b s, V (addFloat x y t c b s) = V s.
Proof. intros HV x y t c b s. unfold addFloat. apply HV. Qed.

Lemma view_addShake {T : Type} (V : GS -> T) :
  (forall p s, V (set_shakePower p s) = V s) ->
  forall p s, V (addShake p s) = V s.
Proof. intros HV p s. unfold addShake. apply HV. Qed.

Lemma archetypal_spliceAll idx (l : list Enemy) :
  Forall archetypal l -> Forall archetypal (spliceAll idx l).
Proof.
  intros Hl. apply Forall_lookup. intros j x Hj.
  apply spliceAll_lookup in Hj as (i & Hi & _).
  exact (Forall_lookup_1 _ _ _ _ Hl Hi).
Qed.

Lemma wf_removeDead fr :
  wellFormed (fr_s fr) ->
  wellFormed (removeDead fr) /\ advances (fr_s fr) (removeDead fr).
Proof.
  apply wf_step.
  - intros Hs. split; [exact Hs | apply grows_refl].
  - apply archetypal_spliceAll.
Qed.

Lemma wf_pickupCallback mouse st pu :
  wellFormed (fst st) ->
  wellFormed (fst (pickupCallback M mouse st pu))
  /\ advances (fst st) (fst (pickupCallback M mouse st pu)).
Proof.
  destruct st as [s kept]. cbn [fst].
  assert (Hsame : wellFormed s -> wellFormed s /\ advances s s)
    by (intros Hs; split; [exact Hs | apply grows_refl]).
  cbv beta delta [pickupCallback]. cbv iota zeta beta.
  match goal with
  | |- context [if Qltb ?x ?y then _ else _] => destruct (Qltb x y)
  end; [|exact Hsame].
  cbn [fst].
  match goal with
  | |- wellFormed s -> wellFormed ?r /\ _ =>
      assert (Em : meters r
                   = meters (set_powerupTimer
                               (if PowerType_eqb (pu_type pu) bomb
                                then 1 else 360)%Z
                               (set_activePowerup (Some (pu_type pu)) s)))
        by (rewrite (view_addFloat meters (fun _ _ => eq_refl)),
              (view_spawnParticles meters (fun _ _ _ => eq_refl));
            reflexivity);
      assert (Ee : s_enemies r = s_enemies s)
        by (rewrite (view_addFloat s_enemies (fun _ _ => eq_refl)),
              (view_spawnParticles s_enemies (fun _ _ _ => eq_refl));
            reflexivity);
      generalize dependent r
  end.
  intros r Em Ee. apply wf_step.
  - rewrite Em. intros Hs. destruct (pu_type pu); meter_solve.
  - rewrite Ee. auto.
Qed.

Lemma wf_pickupPhase mouse s :
  wellFormed s ->
  wellFormed (pickupPhase M mouse s) /\ advances s (pickupPhase M mouse s).
Proof.
  intros Hs. unfold pickupPhase.
  pose proof (foldl_steps (fun st => wellFormed (fst st))
                (fun st st' => advances (fst st) (fst st'))
                (pickupCallback M mouse)
                (fun st => grows_refl _)
                (fun a b c => grows_trans _ _ _)
                (wf_pickupCallback mouse)
                (s_powerups s) (s, []) Hs) as Hfold.
  destruct (foldl (pickupCallback M mouse) (s, []) (s_powerups s))
    as [s' kept].
  cbn [fst] in Hfold. exact Hfold.
Qed.

Lemma wf_entityPhases W H mouse s :
  wellFormed s ->
  wellFormed (entityPhases M diff W H mouse s)
  /\ advances s (entityPhases M diff W H mouse s).
Proof.
  remember (entityPhases M diff W H mouse s) as r eqn:Hr. revert Hr.
  cbv beta delta [entityPhases].
  generalize (wf_enemyPhase W H s).
  destruct (enemyPhase M diff W H s) as [s1 dead].
  intros H1. cbn [fst] in H1. cbv iota.
  pull_let fr Hfr. pull_let s2 H2. pull_let s3 H3. pull_let s4 H4.
  pull_let s5 H5. intros ->.
  apply (wf_chain s s5); [|apply wf_blind; reflexivity].
  apply (wf_chain s s4); [|apply wf_blind; rewrite H5; reflexivity].
  apply (wf_chain s s3); [|apply wf_blind; rewrite H4; reflexivity].
  apply (wf_chain s s2); [|rewrite H3; apply wf_pickupPhase].
  apply (wf_chain s (fr_s fr)); [|rewrite H2; apply wf_removeDead].
  apply (wf_chain s s1); [exact H1|].
  rewrite Hfr.
  exact (wf_projectilePhase W H (mkLocals s1 dead ∅)).
Qed.

(** A frame keeps the session well formed. *)
Lemma wf_loop W H mouse s :
  wellFormed s ->
  wellFormed (loop M diff W H mouse s)
  /\ advances s (loop M diff W H mouse s).
Proof.
  unfold loop. destruct (s_alive s); cbn [negb].
  - apply (wf_chain s (timerPhases M diff W H s)).
    + apply wf_timerPhases.
    + apply wf_entityPhases.
  - intros Hs. split; [exact Hs | apply grows_refl].
Qed.

(** *** A click *)

Lemma wf_bombCallback cx cy a i st :
  archetypal a -> wellFormed (fst st) ->
  wellFormed (fst (bombCallback M cx cy a i st))
  /\ advances (fst st) (fst (bombCallback M cx cy a i st)).
Proof.
  destruct st as [s killed]. cbn [fst]. intros Ha.
  assert (Hsame : wellFormed s -> wellFormed s /\ advances s s)
    by (intros Hs; split; [exact Hs | apply grows_refl]).
  cbv beta delta [bombCallback]. cbv iota zeta beta.
  match goal with
  | |- context [if Qltb ?x ?y then _ else _] => destruct (Qltb x y)
  end; [|exact Hsame].
  cbn [fst].
  match goal with
  | |- wellFormed s -> wellFormed ?r /\ _ =>
      assert (Em : meters r
                   = meters (set_score (s_score s + e_points a * s_wave s)%Z s))
        by (blind meters set_totalKills;
            rewrite (view_addFloat meters (fun _ _ => eq_refl)),
              (view_spawnParticles meters (fun _ _ _ => eq_refl));
            reflexivity);
      assert (Ee : s_enemies r = s_enemies s)
        by (blind s_enemies set_totalKills;
            rewrite (view_addFloat s_enemies (fun _ _ => eq_refl)),
              (view_spawnParticles s_enemies (fun _ _ _ => eq_refl));
            reflexivity);
      generalize dependent r
  end.
  intros r Em Ee. apply wf_step.
  - rewrite Em. intros Hs.
    destruct (archetypal_facts a Ha) as (_ & Hpts & _).
    destruct (sound_counters _ Hs) as [Hw _].
    assert (0 <= e_points a * s_wave s)%Z by nia.
    meter_solve.
  - rewrite Ee. auto.
Qed.

Lemma wf_spawnBombExplosion cx cy s :
  wellFormed s ->
  wellFormed (spawnBombExplosion M cx cy s)
  /\ advances s (spawnBombExplosion M cx cy s).
Proof.
  intros Hs.
  remember (spawnBombExplosion M cx cy s) as r eqn:Hr. revert Hr.
  cbv beta delta [spawnBombExplosion].
  pose proof (forEachFrom_steps archetypal
                (fun st => wellFormed (fst st))
                (fun st st' => advances (fst st) (fst st'))
                (bombCallback M cx cy)
                (fun st => grows_refl _)
                (fun a b c => grows_trans _ _ _)
                (wf_bombCallback cx cy)
                (s_enemies s) 0%nat (s, []) (proj2 Hs) Hs) as Hloop.
  change (forEachFrom (bombCallback M cx cy) 0 (s_enemies s) (s, []))
    with (forEach (bombCallback M cx cy) (s_enemies s) (s, [])) in Hloop.
  destruct (forEach (bombCallback M cx cy) (s_enemies s) (s, []))
    as [s1 killed].
  cbn [fst] in Hloop. cbv iota.
  pull_let s2 H2. pull_let s3 H3. intros ->.
  revert Hs. apply (wf_chain s s1); [intros _; exact Hloop|].
  apply (wf_chain s1 s2).
  - rewrite H2. apply wf_step.
    + intros Hm. split; [exact Hm | apply grows_refl].
    + apply archetypal_spliceAll.
  - apply wf_blind.
    + rewrite (view_addShake meters (fun _ _ => eq_refl)), H3.
      apply (foldl_inv (fun st => meters st = meters s2)); [|reflexivity].
      intros st k Hst. rewrite <- Hst. reflexivity.
    + rewrite (view_addShake s_enemies (fun _ _ => eq_refl)), H3.
      apply enemies_rings.
Qed.

Lemma wf_fired W H mouse s :
  wellFormed s ->
  wellFormed (fired M W H mouse s) /\ advances s (fired M W H mouse s).
Proof.
  unfold fired. destruct (isPowerup bomb (s_activePowerup s)).
  - apply (wf_chain s (spawnBombExplosion M (fst mouse) (snd mouse) s));
      [apply wf_spawnBombExplosion|].
    generalize (spawnBombExplosion M (fst mouse) (snd mouse) s). intros s1.
    apply wf_step; [|auto].
    intros Hs. meter_solve.
  - apply wf_blind.
    + apply (foldl_inv (fun st => meters st = meters s)); [|reflexivity].
      intros st a Hst. rewrite <- Hst. reflexivity.
    + apply enemies_projectiles.
Qed.

Lemma wf_shoot canvas mouse s :
  wellFormed s ->
  wellFormed (shoot M diff canvas mouse s)
  /\ advances s (shoot M diff canvas mouse s).
Proof.
  destruct (accepts M canvas mouse s) eqn:Hacc.
  - destruct (accepts_true _ _ _ Hacc) as (_ & _ & _ & _ & W & H & -> & _).
    rewrite (shoot_accepted W H mouse s Hacc).
    apply (wf_chain s (fired M W H mouse s)); [apply wf_fired|].
    generalize (fired M W H mouse s). intros s1. cbv zeta.
    apply wf_blind;
      match goal with
      | |- context [if ?c then _ else _] => destruct c
      end; reflexivity.
  - rewrite shoot_refused by exact Hacc.
    intros Hs. split; [exact Hs | apply grows_refl].
Qed.

(** Whatever the player does, the session stays well formed. *)
Lemma wf_run inputs : forall s,
  wellFormed s ->
  wellFormed (run M diff inputs s) /\ advances s (run M diff inputs s).
Proof.
  induction inputs as [|i inputs IH]; intros s.
  - intros Hs. split; [exact Hs | apply grows_refl].
  - cbn [run foldl].
    apply (wf_chain s (step M diff i s)); [|apply IH].
    destruct i as [W H mouse|canvas mouse]; cbn [step].
    + apply wf_loop.
    + apply wf_shoot.
Qed.

Lemma wf_initialState : wellFormed (initialState diff).
Proof.
  split; [|constructor].
  unfold sound, meters, initialState; cbn.
  intuition (try lia; try discriminate;
             try (unfold Qle, Qlt; cbn; lia)).
Qed.
End Gauges.

(** ** The footprint of the entity phases

    Whatever reads none of the fields below is left alone by the enemy
    update, the projectile hits and the pickups. *)
Section Blind.

Context {T : Type} (V : GS -> T).

Hypothesis b_hp : forall v s, V (set_hp v s) = V s.
Hypothesis b_score : forall v s, V (set_score v s) = V s.
Hypothesis b_enemies : forall v s, V (set_enemies v s) = V s.
Hypothesis b_particles : forall v s, V (set_particles v s) = V s.
Hypothesis b_floats : forall v s, V (set_floats v s) = V s.
Hypothesis b_powerups : forall v s, V (set_powerups v s) = V s.
Hypothesis b_alive : forall v s, V (set_alive v s) = V s.
Hypothesis b_combo : forall v s, V (set_combo v s) = V s.
Hypothesis b_comboTimer : forall v s, V (set_comboTimer v s) = V s.
Hypothesis b_killStreak : forall v s, V (set_killStreak v s) = V s.
Hypothesis b_shakePower : forall v s, V (set_shakePower v s) = V s.
Hypothesis b_activePowerup : forall v s, V (set_activePowerup v s) = V s.
Hypothesis b_powerupTimer : forall v s, V (set_powerupTimer v s) = V s.
Hypothesis b_totalKills : forall v s, V (set_totalKills v s) = V s.
Hypothesis b_nextPowerupKill :
  forall v s, V (set_nextPowerupKill v s) = V s.
Hypothesis b_rng : forall v s, V (set_rng v s) = V s.
Hypothesis b_gameOverCalls : forall v s, V (set_gameOverCalls v s) = V s.

Lemma b_draws ps n s : V (set_rng n (set_particles ps s)) = V s.
Proof. rewrite b_rng. apply b_particles. Qed.

Lemma b_kids es n s : V (set_rng n (set_enemies es s)) = V s.
Proof. rewrite b_rng. apply b_enemies. Qed.

Ltac bsimpl :=
  repeat first
    [ rewrite b_hp | rewrite b_score | rewrite b_enemies
    | rewrite b_particles | rewrite b_floats | rewrite b_powerups
    | rewrite b_alive | rewrite b_combo | rewrite b_comboTimer
    | rewrite b_killStreak | rewrite b_shakePower
    | rewrite b_activePowerup | rewrite b_powerupTimer
    | rewrite b_totalKills | rewrite b_nextPowerupKill | rewrite b_rng
    | rewrite b_gameOverCalls
    | rewrite (view_spawnParticles V b_draws)
    | rewrite (view_offspring V b_kids)
    | rewrite (view_addFloat V b_floats)
    | rewrite (view_addShake V b_shakePower) ].

Ltac bclose := bsimpl; first [ assumption | reflexivity ].

Ltac bexec_let s0 :=
  let y := fresh "v" in
  let Hy := fresh "Hv" in
  pull_let y Hy;
  first
    [ lazymatch type of y with
      | GS =>
          let H := fresh "Ht" in
          assert (H : V y = V s0) by (rewrite Hy; bexec s0; bclose);
          clear Hy
      | Locals =>
          let H := fresh "Ht" in
          assert (H : V (fr_s y) = V s0)
            by (rewrite Hy; bexec s0; cbn [fr_s]; bclose);
          clear Hy
      end
    | clear Hy ]
with bexec s0 := repeat first [ bexec_let s0 | split_cond ].

Lemma blind_moveEnemy W H e s : V (snd (moveEnemy M W H e s)) = V s.
Proof.
  cbv beta delta [moveEnemy].
  destruct (e_pattern e); bexec s; cbn [snd]; bclose.
Qed.

Lemma blind_enemyCallback W H e i s dead :
  V (fst (enemyCallback M diff W H e i (s, dead))) = V s.
Proof.
  cbv beta delta [enemyCallback]. cbv iota.
  do 3 skip_let.
  match goal with
  | |- context [moveEnemy M W H ?e0 s] =>
      split_call (blind_moveEnemy W H e0 s) (moveEnemy M W H e0 s)
  end.
  bexec s; cbn [fst]; bclose.
Qed.

Lemma blind_enemyPhase W H s :
  V (fst (enemyPhase M diff W H s)) = V s.
Proof.
  unfold enemyPhase, forEach.
  apply (forEachFrom_inv (fun st => V (fst st) = V s)); [|reflexivity].
  intros a i [s' dead] Hst. rewrite blind_enemyCallback. exact Hst.
Qed.

Lemma blind_killEnemy W H e ei fr :
  V (fr_s (killEnemy M W H e ei fr)) = V (fr_s fr).
Proof.
  cbv beta delta [killEnemy].
  bexec (fr_s fr); cbn [fr_s]; bclose.
Qed.

Lemma blind_hitCallback W H p pi e ei fr :
  V (fr_s (hitCallback M W H p pi e ei fr)) = V (fr_s fr).
Proof.
  cbv beta delta [hitCallback].
  destruct (includes (fr_deadEnemies fr) ei); [reflexivity|].
  do 2 skip_let.
  match goal with
  | |- context [if ?c then _ else _] => destruct c; [|reflexivity]
  end.
  pull_let s0 H0. pull_let e1 He1. pull_let e2 He2.
  pull_let s1 H1. pull_let s2 H2. pull_let fr1 Hf1.
  assert (E1 : V (fr_s fr1) = V (fr_s fr)).
  { rewrite Hf1. cbn [fr_s]. rewrite H2. bsimpl. rewrite H1. bsimpl.
    rewrite H0. reflexivity. }
  clear H0 H1 H2 Hf1.
  pull_let fr2 Hf2.
  assert (E2 : V (fr_s fr2) = V (fr_s fr)).
  { rewrite Hf2. destruct (e_hp e2 <=? 0)%Z; [|exact E1].
    rewrite blind_killEnemy. exact E1. }
  destruct (p_piercing p); cbn [fr_s]; exact E2.
Qed.

Lemma blind_projectilePhase W H fr :
  V (fr_s (projectilePhase M W H fr)) = V (fr_s fr).
Proof.
  unfold projectilePhase, forEach.
  apply (forEachFrom_inv (fun st => V (fr_s st) = V (fr_s fr)));
    [|reflexivity].
  intros p pi fr1 Hfr1. unfold projectileCallback, forEach.
  apply (forEachFrom_inv (fun st => V (fr_s st) = V (fr_s fr)));
    [|exact Hfr1].
  intros e ei fr2 Hfr2. rewrite blind_hitCallback. exact Hfr2.
Qed.

Lemma blind_pickupPhase mouse s : V (pickupPhase M mouse s) = V s.
Proof.
  unfold pickupPhase.
  generalize (foldl_inv (fun st => V (fst st) = V s)
                (pickupCallback M mouse)).
  intros Hinv.
  destruct (foldl (pickupCallback M mouse) (s, []) (s_powerups s))
    as [s' kept] eqn:E.
  rewrite b_powerups.
  change s' with (fst (s', kept)). rewrite <- E. apply Hinv; [|reflexivity].
  intros [s1 kept1] pu Hs1. cbv beta delta [pickupCallback]. cbv iota.
  bexec s; cbn [fst]; bclose.
Qed.

Lemma blind_spawnBombExplosion cx cy s :
  V (spawnBombExplosion M cx cy s) = V s.
Proof.
  cbv beta delta [spawnBombExplosion].
  assert (Hloop : V (fst (forEach (bombCallback M cx cy) (s_enemies s)
                            (s, []))) = V s).
  { unfold forEach.
    apply (forEachFrom_inv (fun st => V (fst st) = V s)); [|reflexivity].
    intros e i [s2 k2] H2. rewrite <- H2.
    cbv beta delta [bombCallback]. cbv iota.
    bexec s2; cbn [fst]; bclose. }
  revert Hloop.
  destruct (forEach (bombCallback M cx cy) (s_enemies s) (s, []))
    as [s1 killed].
  intros E1. cbn [fst] in E1. cbv iota.
  pull_let s2 H2. pull_let s3 H3.
  rewrite (view_addShake V b_shakePower), H3.
  assert (E3 : V (foldl (pushRing M cx cy) s2 (seq 0 30)) = V s2).
  { apply (foldl_inv (fun st => V st = V s2)); [|reflexivity].
    intros st k Hst. rewrite <- Hst. unfold pushRing. cbv zeta.
    apply b_draws. }
  rewrite E3, H2, b_enemies. exact E1.
Qed.

Hypothesis b_projectiles : forall v s, V (set_projectiles v s) = V s.

Lemma blind_entityPhases W H mouse s :
  V (entityPhases M diff W H mouse s) = V s.
Proof.
  cbv beta delta [entityPhases].
  split_call (blind_enemyPhase W H s) (enemyPhase M diff W H s).
  pull_let fr Hfr. pull_let s2 H2. pull_let s3 H3. pull_let s4 H4.
  pull_let s5 H5.
  unfold floatPhase. rewrite b_floats, H5.
  unfold particlePhase. rewrite b_particles, H4.
  unfold moveProjectiles. rewrite b_projectiles, H3.
  rewrite blind_pickupPhase, H2.
  unfold removeDead. cbv zeta. rewrite b_projectiles, b_enemies, Hfr.
  rewrite blind_projectilePhase. cbn [fr_s]. assumption.
Qed.


End Blind.

(** ** The shoot cooldown *)

Lemma cooldown_timerPhases W H s :
  s_shootCooldown (timerPhases M diff W H s)
  = if (0 <? s_shootCooldown s)%Z then (s_shootCooldown s - 1)%Z
    else s_shootCooldown s.
Proof.
  cbv beta delta [timerPhases].
  pull_let s1 H1. pull_let s2 H2. pull_let s3 H3. pull_let s4 H4.
  pull_let s5 H5. pull_let s6 H6. pull_let s7 H7.
  assert (E1 : s_shootCooldown s1 = s_shootCooldown s).
  { rewrite H1. cbv beta delta [wavePhase].
    exec s_shootCooldown s; view_close s_shootCooldown. }
  assert (E2 : s_shootCooldown s2 = s_shootCooldown s1).
  { rewrite H2. cbv beta delta [spawnPhase].
    exec s_shootCooldown s1; view_close s_shootCooldown. }
  assert (E3 : s_shootCooldown s3 = s_shootCooldown s2).
  { rewrite H3. cbv beta delta [reloadPhase].
    exec s_shootCooldown s2; view_close s_shootCooldown. }
  assert (E4 : s_shootCooldown s4
               = if (0 <? s_shootCooldown s3)%Z
                 then (s_shootCooldown s3 - 1)%Z else s_shootCooldown s3).
  { rewrite H4. unfold cooldownPhase. cbv zeta.
    destruct (0 <? s_shootCooldown s3)%Z; proj_simpl;
      match goal with
      | |- context [if ?c then _ else _] => destruct c
      end; reflexivity. }
  assert (E5 : s_shootCooldown s5 = s_shootCooldown s4).
  { rewrite H5. cbv beta delta [comboPhase].
    exec s_shootCooldown s4; view_close s_shootCooldown. }
  assert (E6 : s_shootCooldown s6 = s_shootCooldown s5).
  { rewrite H6. cbv beta delta [powerupTimerPhase].
    exec s_shootCooldown s5; view_close s_shootCooldown. }
  assert (E7 : s_shootCooldown s7 = s_shootCooldown s6).
  { rewrite H7. cbv beta delta [shakePhase].
    exec s_shootCooldown s6; view_close s_shootCooldown. }
  change (s_shootCooldown (powerupAgePhase s7)) with (s_shootCooldown s7).
  rewrite E7, E6, E5, E4, E3, E2, E1. reflexivity.
Qed.

Lemma cooldown_loop W H mouse s :
  s_alive s = true ->
  s_shootCooldown (loop M diff W H mouse s)
  = if (0 <? s_shootCooldown s)%Z then (s_shootCooldown s - 1)%Z
    else s_shootCooldown s.
Proof.
  intros Ha. unfold loop. rewrite Ha. cbn [negb].
  rewrite (blind_entityPhases s_shootCooldown) by (intros; reflexivity).
  apply cooldown_timerPhases.
Qed.

Lemma shoot_cooling canvas mouse s :
  (0 < s_shootCooldown s)%Z -> shoot M diff canvas mouse s = s.
Proof.
  intros Hc. apply shoot_refused. unfold accepts.
  replace (s_shootCooldown s <=? 0)%Z with false
    by (symmetry; apply Z.leb_gt; exact Hc).
  rewrite andb_false_r. reflexivity.
Qed.

(** While the cooldown runs it goes down by one per simulation step, and
    clicks change nothing. *)
Lemma cooldown_run inputs : forall s,
  (Z.of_nat (simSteps M diff inputs s) < s_shootCooldown s)%Z ->
  s_shootCooldown (run M diff inputs s)
  = (s_shootCooldown s - Z.of_nat (simSteps M diff inputs s))%Z.
Proof.
  induction inputs as [|i rest IH]; intros s Hlt.
  - cbn. lia.
  - cbn [simSteps run foldl] in *.
    change (foldl (fun s0 i0 => step M diff i0 s0) (step M diff i s) rest)
      with (run M diff rest (step M diff i s)).
    destruct i as [W H mouse | canvas mouse]; cbn [step] in *.
    + destruct (s_alive s) eqn:Ha.
      * rewrite Nat2Z.inj_add in *. change (Z.of_nat 1) with 1%Z in *.
        pose proof (cooldown_loop W H mouse s Ha) as E.
        replace (0 <? s_shootCooldown s)%Z with true in E
          by (symmetry; apply Z.ltb_lt; lia).
        rewrite IH; rewrite E; lia.
      * assert (El : loop M diff W H mouse s = s)
          by (unfold loop; rewrite Ha; reflexivity).
        rewrite El in *. cbn [Nat.add] in *. apply IH. exact Hlt.
    + rewrite shoot_cooling in * by lia.
      cbn [Nat.add] in *. apply IH. exact Hlt.
Qed.

(** ** What an accepted click fires *)

Lemma projectiles_pushed cx cy dx dy isPierce l : forall s,
  s_projectiles (foldl (pushProjectile M cx cy dx dy 15 isPierce) s l)
  = s_projectiles s ++ map (arrowOf M cx cy dx dy isPierce) l.
Proof.
  induction l as [|a l IH]; intros s; cbn [foldl map].
  - rewrite app_nil_r. reflexivity.
  - rewrite IH. unfold pushProjectile. cbv zeta.
    cbn [s_projectiles set_projectiles]. rewrite <- app_assoc. reflexivity.
Qed.

Lemma projectiles_fired W H mouse s :
  s_projectiles (fired M W H mouse s)
  = s_projectiles s
    ++ (if isPowerup bomb (s_activePowerup s) then []
        else map (arrowOf M (W / 2) (H / 2) (fst mouse - W / 2)
                    (snd mouse - H / 2)
                    (isPowerup pierce (s_activePowerup s)))
               (if isPowerup multi (s_activePowerup s)
                then [- 0.18; 0; 0.18] else [0])).
Proof.
  unfold fired. destruct (isPowerup bomb (s_activePowerup s)).
  - rewrite app_nil_r. cbn [s_projectiles set_powerupTimer set_activePowerup].
    apply (blind_spawnBombExplosion s_projectiles); intros; reflexivity.
  - apply projectiles_pushed.
Qed.

Lemma shot_effects W H mouse s :
  accepts M (Some (W, H)) mouse s = true ->
  let s' := shoot M diff (Some (W, H)) mouse s in
  s_arrows s' = (s_arrows s - 1)%Z
  /\ s_shootCooldown s'
     = (if isPowerup rapid (s_activePowerup s) then 4 else 12)%Z
  /\ s_bowPulse s' = 12%Z
  /\ s_projectiles s' = s_projectiles (fired M W H mouse s)
  /\ s_reloading s' = (s_arrows s - 1 <=? 0)%Z
  /\ ((s_arrows s - 1 <= 0)%Z -> s_reloadTimer s' = reloadTime diff).
Proof.
  intros Hacc s'. subst s'.
  destruct (accepts_true _ _ _ Hacc) as (_ & Hr & _).
  rewrite (shoot_accepted W H mouse s Hacc).
  pose proof (timers_fired W H mouse s) as E.
  apply timers_fields_eq in E as (Ea & _ & Er & _).
  generalize dependent (fired M W H mouse s). intros s1 Ea Er.
  cbv zeta. cbn [s_arrows set_bowPulse set_shootCooldown set_arrows].
  rewrite Ea.
  destruct (s_arrows s - 1 <=? 0)%Z eqn:Ez; proj_simpl.
  - repeat split; try reflexivity; try lia.
  - apply Z.leb_gt in Ez. repeat split; try reflexivity; try lia.
    congruence.
Qed.

(** ** Projectiles in flight *)

Lemma projectiles_timerPhases W H s :
  s_projectiles (timerPhases M diff W H s) = s_projectiles s.
Proof.
  cbv beta delta [timerPhases].
  pull_let s1 H1. pull_let s2 H2. pull_let s3 H3. pull_let s4 H4.
  pull_let s5 H5. pull_let s6 H6. pull_let s7 H7.
  assert (E1 : s_projectiles s1 = s_projectiles s).
  { rewrite H1. cbv beta delta [wavePhase].
    exec s_projectiles s; view_close s_projectiles. }
  assert (E2 : s_projectiles s2 = s_projectiles s1).
  { rewrite H2. cbv beta delta [spawnPhase].
    exec s_projectiles s1; view_close s_projectiles. }
  assert (E3 : s_projectiles s3 = s_projectiles s2).
  { rewrite H3. cbv beta delta [reloadPhase].
    exec s_projectiles s2; view_close s_projectiles. }
  assert (E4 : s_projectiles s4 = s_projectiles s3).
  { rewrite H4. cbv beta delta [cooldownPhase].
    exec s_projectiles s3; view_close s_projectiles. }
  assert (E5 : s_projectiles s5 = s_projectiles s4).
  { rewrite H5. cbv beta delta [comboPhase].
    exec s_projectiles s4; view_close s_projectiles. }
  assert (E6 : s_projectiles s6 = s_projectiles s5).
  { rewrite H6. cbv beta delta [powerupTimerPhase].
    exec s_projectiles s5; view_close s_projectiles. }
  assert (E7 : s_projectiles s7 = s_projectiles s6).
  { rewrite H7. cbv beta delta [shakePhase].
    exec s_projectiles s6; view_close s_projectiles. }
  change (s_projectiles (powerupAgePhase s7)) with (s_projectiles s7).
  congruence.
Qed.

(** The projectiles a frame leaves: those of its start that hit nothing (or
    pierce), moved one step, if they are still near the canvas. *)
Lemma projectiles_entityPhases W H mouse s :
  exists keep,
    s_projectiles (entityPhases M diff W H mouse s)
    = List.filter (onBoard W H)
        (map moveProjectile (filterIndexFrom keep 0 (s_projectiles s))).
Proof.
  cbv beta delta [entityPhases].
  split_call (blind_enemyPhase s_projectiles
                (fun _ _ => eq_refl) (fun _ _ => eq_refl)
                (fun _ _ => eq_refl) (fun _ _ => eq_refl)
                (fun _ _ => eq_refl) (fun _ _ => eq_refl)
                (fun _ _ => eq_refl) (fun _ _ => eq_refl)
                (fun _ _ => eq_refl) (fun _ _ => eq_refl) W H s)
             (enemyPhase M diff W H s).
  pull_let fr Hfr.
  assert (Efr : s_projectiles (fr_s fr) = s_projectiles s).
  { rewrite Hfr.
    rewrite (blind_projectilePhase s_projectiles) by (intros; reflexivity).
    cbn [fr_s]. assumption. }
  clear Hfr.
  pull_let s2 H2. pull_let s3 H3. pull_let s4 H4. pull_let s5 H5.
  exists (fun i => negb (bool_decide (i ∈ fr_deadProjectiles fr))).
  change (s_projectiles (floatPhase s5)) with (s_projectiles s5).
  rewrite H5.
  change (s_projectiles (particlePhase s4)) with (s_projectiles s4).
  rewrite H4. unfold moveProjectiles. cbn [s_projectiles set_projectiles].
  rewrite H3.
  rewrite (blind_pickupPhase s_projectiles) by (intros; reflexivity).
  rewrite H2. unfold removeDead. cbv zeta.
  cbn [s_projectiles set_projectiles set_enemies].
  rewrite Efr. reflexivity.
Qed.

Lemma filterIndexFrom_Forall {A : Type} (P : A -> Prop) keep (l : list A) :
  forall i, Forall P l -> Forall P (filterIndexFrom keep i l).
Proof.
  induction l as [|a l IH]; intros i Hl; cbn [filterIndexFrom];
    [constructor|].
  apply Forall_cons in Hl as [Ha Hl].
  destruct (keep i); [constructor; [exact Ha|]|]; apply IH; exact Hl.
Qed.

Lemma projOK_moveProjectile p : projOK p -> projOK (moveProjectile p).
Proof.
  unfold projOK, moveProjectile. cbv zeta. cbn [p_trail p_radius p_piercing].
  intros [Ht Hr]. split; [|exact Hr].
  destruct (Nat.ltb_spec 12 (length (p_trail p ++ [(p_x p, p_y p)]))) as [Hl|Hl].
  - destruct (p_trail p ++ [(p_x p, p_y p)]) eqn:E; cbn [tail length] in *;
      [lia|].
    apply (f_equal length) in E. rewrite length_app in E.
    cbn [length] in E. lia.
  - exact Hl.
Qed.

Lemma projOK_loop W H mouse s :
  Forall projOK (s_projectiles s) ->
  Forall projOK (s_projectiles (loop M diff W H mouse s)).
Proof.
  intros Hs. unfold loop. destruct (s_alive s); cbn [negb]; [|exact Hs].
  destruct (projectiles_entityPhases W H mouse (timerPhases M diff W H s))
    as (keep & ->).
  rewrite projectiles_timerPhases.
  apply Forall_forall. intros p Hp.
  apply list_elem_of_In, filter_In in Hp as [Hp _].
  apply in_map_iff in Hp as (q & <- & Hq).
  apply projOK_moveProjectile.
  pose proof (filterIndexFrom_Forall projOK keep (s_projectiles s) 0 Hs) as F.
  rewrite Forall_forall in F. apply F. apply list_elem_of_In. exact Hq.
Qed.

Lemma projOK_shoot canvas mouse s :
  Forall projOK (s_projectiles s) ->
  Forall projOK (s_projectiles (shoot M diff canvas mouse s)).
Proof.
  intros Hs.
  destruct (accepts M canvas mouse s) eqn:Hacc;
    [|rewrite shoot_refused by exact Hacc; exact Hs].
  destruct (accepts_true _ _ _ Hacc) as (_ & _ & _ & _ & W & H & -> & _).
  destruct (shot_effects W H mouse s Hacc) as (_ & _ & _ & -> & _).
  rewrite projectiles_fired. apply Forall_app_2; [exact Hs|].
  destruct (isPowerup bomb (s_activePowerup s)); [constructor|].
  apply Forall_forall. intros p Hp.
  apply list_elem_of_In, in_map_iff in Hp as (o & <- & _).
  unfold projOK, arrowOf. cbn. split; [lia | reflexivity].
Qed.

Lemma projOK_run inputs : forall s,
  Forall projOK (s_projectiles s) ->
  Forall projOK (s_projectiles (run M diff inputs s)).
Proof.
  induction inputs as [|i inputs IH]; intros s Hs; [exact Hs|].
  cbn [run foldl]. apply IH.
  destruct i as [W H mouse|canvas mouse]; cbn [step].
  - apply projOK_loop, Hs.
  - apply projOK_shoot, Hs.
Qed.

(** At the end of a frame every projectile is within 80 px of the canvas. *)
Lemma onBoard_loop W H mouse s :
  s_alive s = true ->
  Forall (fun p => onBoard W H p = true)
    (s_projectiles (loop M diff W H mouse s)).
Proof.
  intros Ha. unfold loop. rewrite Ha. cbn [negb].
  destruct (projectiles_entityPhases W H mouse (timerPhases M diff W H s))
    as (keep & ->).
  apply Forall_forall. intros p Hp.
  apply list_elem_of_In, filter_In in Hp as [_ Hp]. exact Hp.
Qed.

(** ** Splicing out a set of indices *)

Lemma filterIndexFrom_ext {A : Type} (k1 k2 : nat -> bool) (l : list A) :
  forall i, (forall j, (i <= j)%nat -> k1 j = k2 j) ->
  filterIndexFrom k1 i l = filterIndexFrom k2 i l.
Proof.
  induction l as [|a l IH]; intros i Hk; cbn [filterIndexFrom];
    [reflexivity|].
  rewrite (Hk i) by lia. rewrite (IH (S i)) by (intros j Hj; apply Hk; lia).
  reflexivity.
Qed.

Lemma filterIndexFrom_all {A : Type} (keep : nat -> bool) (l : list A) :
  forall i, (forall j, (i <= j)%nat -> keep j = true) ->
  filterIndexFrom keep i l = l.
Proof.
  induction l as [|a l IH]; intros i Hk; cbn [filterIndexFrom];
    [reflexivity|].
  rewrite (Hk i) by lia. rewrite (IH (S i)) by (intros j Hj; apply Hk; lia).
  reflexivity.
Qed.

(** Deleting position [a] of a list that starts at index [i], when [keep]
    holds from there on. *)
Lemma filterIndexFrom_delete {A : Type} (keep : nat -> bool) (l : list A) :
  forall a i, (forall j, (i + a <= j)%nat -> keep j = true) ->
  filterIndexFrom keep i (delete a l)
  = filterIndexFrom (fun j => keep j && negb (j =? i + a)%nat) i l.
Proof.
  induction l as [|x l IH]; intros a i Hk; [destruct a; reflexivity|].
  destruct a as [|a].
  - change (delete 0%nat (x :: l)) with l. cbn [filterIndexFrom].
    rewrite Nat.add_0_r, Nat.eqb_refl, andb_false_r.
    rewrite filterIndexFrom_all by (intros j Hj; apply Hk; lia).
    symmetry. apply filterIndexFrom_all. intros j Hj.
    rewrite Hk by lia. cbn [andb]. apply negb_true_iff, Nat.eqb_neq. lia.
  - change (delete (S a) (x :: l)) with (x :: delete a l).
    cbn [filterIndexFrom].
    replace (i =? i + S a)%nat with false by (symmetry; apply Nat.eqb_neq; lia).
    rewrite andb_true_r.
    rewrite (IH a (S i)) by (intros j Hj; apply Hk; lia).
    rewrite (filterIndexFrom_ext
               (fun j => keep j && negb (j =? S i + a)%nat)
               (fun j => keep j && negb (j =? i + S a)%nat) l (S i))
      by (intros j _; replace (S i + a)%nat with (i + S a)%nat by lia;
          reflexivity).
    reflexivity.
Qed.

Lemma deleteAll_filter {A : Type} (srt : list nat) :
  StronglySorted (flip lt) srt ->
  forall l : list A,
    foldl (fun acc i => delete i acc) l srt
    = filterIndexFrom (fun j => negb (bool_decide (j ∈ srt))) 0 l.
Proof.
  induction 1 as [|a srt Hs IH Ha]; intros l; cbn [foldl].
  - symmetry. apply filterIndexFrom_all. intros j _.
    apply negb_true_iff, bool_decide_eq_false, not_elem_of_nil.
  - rewrite IH. rewrite filterIndexFrom_delete.
    + apply filterIndexFrom_ext. intros j _. cbn [Nat.add].
      destruct (Nat.eqb_spec j a) as [->|Hne].
      * rewrite andb_false_r. symmetry.
        apply negb_false_iff, bool_decide_eq_true. left.
      * rewrite andb_true_r. f_equal. apply bool_decide_ext.
        rewrite elem_of_cons. intuition congruence.
    + intros j Hj. apply negb_true_iff, bool_decide_eq_false. intros Hin.
      rewrite Forall_forall in Ha. specialize (Ha _ Hin).
      unfold flip in Ha. cbn [Nat.add] in Hj. lia.
Qed.

Lemma strictly_descending (l : list nat) :
  StronglySorted (flip le) l -> NoDup l -> StronglySorted (flip lt) l.
Proof.
  induction 1 as [|a l Hs IH Ha]; intros Hnd; constructor.
  - apply IH. apply NoDup_cons in Hnd as [_ Hnd]. exact Hnd.
  - apply NoDup_cons in Hnd as [Hni _].
    apply Forall_forall. intros x Hx.
    rewrite Forall_forall in Ha. specialize (Ha _ Hx). unfold flip in *.
    assert (x <> a) by (intros ->; contradiction). lia.
Qed.

(** Sorting the indices in descending order and splicing them out one by
    one removes exactly the listed positions. *)
Lemma spliceAll_exact {A : Type} (idx : list nat) (l : list A) :
  NoDup idx ->
  spliceAll idx l
  = filterIndexFrom (fun j => negb (bool_decide (j ∈ idx))) 0 l.
Proof.
  intros Hnd. unfold spliceAll.
  assert (Hp : merge_sort (flip le) idx ≡ₚ idx)
    by apply merge_sort_Permutation.
  rewrite deleteAll_filter.
  - apply filterIndexFrom_ext. intros j _. f_equal.
    apply bool_decide_ext. rewrite Hp. reflexivity.
  - apply strictly_descending.
    + apply @StronglySorted_merge_sort.
      * intros a b c Hab Hbc. unfold flip in *. lia.
      * intros a b. unfold flip. lia.
    + rewrite Hp. exact Hnd.
Qed.

(** ** The bomb *)

Lemma bombCallback_far cx cy e i s killed :
  inBlast M cx cy e = false ->
  bombCallback M cx cy e i (s, killed) = (s, killed).
Proof.
  unfold inBlast. intros Hf. cbv beta delta [bombCallback]. cbv iota zeta.
  rewrite Hf. reflexivity.
Qed.

Lemma bombCallback_near cx cy e i s killed :
  inBlast M cx cy e = true ->
  exists s',
    bombCallback M cx cy e i (s, killed) = (s', killed ++ [i])
    /\ s_score s' = (s_score s + e_points e * s_wave s)%Z
    /\ s_totalKills s' = (s_totalKills s + 1)%Z
    /\ s_wave s' = s_wave s /\ s_enemies s' = s_enemies s.
Proof.
  unfold inBlast. intros Hn. cbv beta delta [bombCallback]. cbv iota zeta.
  rewrite Hn. eexists. split; [reflexivity|].
  assert (Htk : forall v y, s_totalKills (set_totalKills v y) = v)
    by reflexivity.
  rewrite Htk. clear Htk.
  blind s_score set_totalKills. blind s_wave set_totalKills.
  blind s_enemies set_totalKills.
  rewrite (view_addFloat s_score (fun _ _ => eq_refl)).
  rewrite (view_addFloat s_totalKills (fun _ _ => eq_refl)).
  rewrite (view_addFloat s_wave (fun _ _ => eq_refl)).
  rewrite (view_addFloat s_enemies (fun _ _ => eq_refl)).
  rewrite (view_spawnParticles s_score (fun _ _ _ => eq_refl)).
  rewrite (view_spawnParticles s_totalKills (fun _ _ _ => eq_refl)).
  rewrite (view_spawnParticles s_wave (fun _ _ _ => eq_refl)).
  rewrite (view_spawnParticles s_enemies (fun _ _ _ => eq_refl)).
  repeat split; reflexivity.
Qed.

Lemma bombLoop_exact cx cy l : forall i s killed,
  let r := forEachFrom (bombCallback M cx cy) i l (s, killed) in
  snd r = killed ++ positionsFrom (inBlast M cx cy) i l
  /\ s_score (fst r)
     = (s_score s
        + pointsOf (List.filter (inBlast M cx cy) l) * s_wave s)%Z
  /\ s_totalKills (fst r)
     = (s_totalKills s
        + Z.of_nat (length (List.filter (inBlast M cx cy) l)))%Z
  /\ s_wave (fst r) = s_wave s /\ s_enemies (fst r) = s_enemies s.
Proof.
  induction l as [|e l IH]; intros i s killed r; subst r.
  - cbn. rewrite app_nil_r. repeat split; lia.
  - cbn [forEachFrom positionsFrom List.filter].
    destruct (inBlast M cx cy e) eqn:En.
    + destruct (bombCallback_near cx cy e i s killed En)
        as (s' & -> & Esc & Etk & Ew & Een).
      destruct (IH (S i) s' (killed ++ [i])) as (I1 & I2 & I3 & I4 & I5).
      rewrite I1, I2, I3, I4, I5, Esc, Etk, Ew, Een.
      cbn [pointsOf foldr length]. fold (pointsOf (List.filter (inBlast M cx cy) l)).
      rewrite <- app_assoc. repeat split; try reflexivity; lia.
    + rewrite (bombCallback_far cx cy e i s killed En).
      destruct (IH (S i) s killed) as (I1 & I2 & I3 & I4 & I5).
      rewrite I1, I2, I3, I4, I5. repeat split; reflexivity.
Qed.

Lemma positionsFrom_ge {A : Type} (P : A -> bool) (l : list A) :
  forall i j, j ∈ positionsFrom P i l -> (i <= j)%nat.
Proof.
  induction l as [|a l IH]; intros i j Hj; cbn [positionsFrom] in Hj.
  - apply elem_of_nil in Hj. contradiction.
  - apply elem_of_app in Hj as [Hj|Hj].
    + destruct (P a); [|apply elem_of_nil in Hj; contradiction].
      apply list_elem_of_singleton in Hj. lia.
    + specialize (IH _ _ Hj). lia.
Qed.

Lemma positionsFrom_NoDup {A : Type} (P : A -> bool) (l : list A) :
  forall i, NoDup (positionsFrom P i l).
Proof.
  induction l as [|a l IH]; intros i; cbn [positionsFrom]; [constructor|].
  destruct (P a); cbn [app]; [|apply IH].
  constructor; [|apply IH].
  intros Hin. apply positionsFrom_ge in Hin. lia.
Qed.

Lemma filter_positions {A : Type} (P : A -> bool) (l : list A) :
  forall i pre,
    (forall j, j ∈ pre -> (j < i)%nat) ->
    filterIndexFrom
      (fun j => negb (bool_decide (j ∈ pre ++ positionsFrom P i l))) i l
    = List.filter (fun a => negb (P a)) l.
Proof.
  induction l as [|a l IH]; intros i pre Hpre;
    cbn [filterIndexFrom positionsFrom List.filter]; [reflexivity|].
  specialize (IH (S i) (pre ++ (if P a then [i] else []))).
  rewrite <- app_assoc in IH.
  rewrite IH.
  - destruct (P a) eqn:Ea; cbn [negb].
    + rewrite bool_decide_eq_true_2; [reflexivity|].
      apply elem_of_app. right. apply elem_of_app. left.
      apply list_elem_of_singleton. reflexivity.
    + rewrite bool_decide_eq_false_2; [reflexivity|].
      intros Hin. apply elem_of_app in Hin as [Hin|Hin].
      * specialize (Hpre _ Hin). lia.
      * cbn [app] in Hin. apply positionsFrom_ge in Hin. lia.
  - intros j Hj. apply elem_of_app in Hj as [Hj|Hj].
    + specialize (Hpre _ Hj). lia.
    + destruct (P a); [|apply elem_of_nil in Hj; contradiction].
      apply list_elem_of_singleton in Hj. lia.
Qed.

(** The bomb removes exactly the enemies its blast reaches and scores each
    of them. *)
Lemma spawnBombExplosion_exact cx cy s :
  let s' := spawnBombExplosion M cx cy s in
  let hit := List.filter (inBlast M cx cy) (s_enemies s) in
  s_enemies s'
  = List.filter (fun e => negb (inBlast M cx cy e)) (s_enemies s)
  /\ s_score s' = (s_score s + pointsOf hit * s_wave s)%Z
  /\ s_totalKills s' = (s_totalKills s + Z.of_nat (length hit))%Z.
Proof.
  intros s' hit. subst s' hit.
  remember (spawnBombExplosion M cx cy s) as r eqn:Hr. revert Hr.
  cbv beta delta [spawnBombExplosion].
  pose proof (bombLoop_exact cx cy (s_enemies s) 0 s []) as Hloop.
  cbv zeta in Hloop.
  change (forEachFrom (bombCallback M cx cy) 0 (s_enemies s) (s, []))
    with (forEach (bombCallback M cx cy) (s_enemies s) (s, [])) in Hloop.
  destruct (forEach (bombCallback M cx cy) (s_enemies s) (s, []))
    as [s1 killed].
  cbn [fst snd app] in Hloop. destruct Hloop as (Ek & Esc & Etk & _ & Een).
  cbv iota.
  pull_let s2 H2. pull_let s3 H3. intros ->.
  assert (E3 : forall {T : Type} (V : GS -> T),
             (forall ps n x, V (set_rng n (set_particles ps x)) = V x) ->
             (forall p x, V (set_shakePower p x) = V x) ->
             V (addShake 14 s3) = V s2).
  { intros T V Hd Hsh. rewrite (view_addShake V Hsh), H3.
    apply (foldl_inv (fun st => V st = V s2)); [|reflexivity].
    intros st k Hst. rewrite <- Hst. unfold pushRing. cbv zeta. apply Hd. }
  rewrite (E3 _ s_enemies), (E3 _ s_score), (E3 _ s_totalKills)
    by (intros; reflexivity).
  rewrite H2. cbn [s_enemies s_score s_totalKills set_enemies].
  split; [|split; assumption].
  rewrite Een, Ek.
  rewrite spliceAll_exact by apply positionsFrom_NoDup.
  apply (filter_positions (inBlast M cx cy) (s_enemies s) 0 []).
  intros j Hj. apply elem_of_nil in Hj. contradiction.
Qed.

(** ** Pickups on the board *)













(** ** The hits of a frame, counted *)

Lemma forEachFrom_inv_at {A St : Type} (P : St -> Prop)
    (f : A -> nat -> St -> St) (l0 : list A) :
  (forall a i st, l0 !! i = Some a -> P st -> P (f a i st)) ->
  forall l i st,
    (forall k a, l !! k = Some a -> l0 !! (i + k)%nat = Some a) ->
    P st -> P (forEachFrom f i l st).
Proof.
  intros Hf l. induction l as [|a l IH]; intros i st Hl Hst; [exact Hst|].
  cbn [forEachFrom]. apply IH.
  - intros k b Hk. specialize (Hl (S k) b Hk).
    rewrite Nat.add_succ_r in Hl. exact Hl.
  - apply Hf; [|exact Hst]. specialize (Hl 0%nat a eq_refl).
    rewrite Nat.add_0_r in Hl. exact Hl.
Qed.

(** The enemy update keeps every enemy in its place in the array and leaves
    its health alone. *)
Lemma health_enemyPhase W H s i e :
  s_enemies s !! i = Some e ->
  exists e1,
    s_enemies (fst (enemyPhase M diff W H s)) !! i = Some e1
    /\ health e1 = health e.
Proof.
  revert i e. unfold enemyPhase, forEach.
  apply (forEachFrom_inv_at
           (fun st => forall i e, s_enemies s !! i = Some e ->
              exists e1, s_enemies (fst st) !! i = Some e1
                         /\ health e1 = health e)
           (enemyCallback M diff W H) (s_enemies s)).
  - intros a j [s1 dead] Ha Hst i e Hi.
    destruct (enemies_enemyCallback W H a j s1 dead) as (e' & Hh & ->).
    destruct (Hst i e Hi) as (e1 & He1 & Hh1).
    destruct (Nat.eq_dec i j) as [->|Hne].
    + exists e'. split; [|congruence].
      apply list_lookup_insert_eq. apply lookup_lt_Some in He1. exact He1.
    + exists e1. split; [|exact Hh1].
      rewrite list_lookup_insert_ne by congruence. exact He1.
  - intros k a Hk. exact Hk.
  - intros i e Hi. exists e. split; [exact Hi | reflexivity].
Qed.

Lemma includes_app_ne dead i j :
  i <> j -> includes (dead ++ [i]) j = includes dead j.
Proof.
  intros Hne. unfold includes. rewrite existsb_app. cbn.
  destruct (Nat.eqb_spec j i) as [->|_]; [congruence|].
  rewrite !orb_false_r. reflexivity.
Qed.

(** [hitCallback_shape], with the place of the enemy that is hit. *)
Lemma hitCallback_body W H p pi e ei fr :
  let fr' := hitCallback M W H p pi e ei fr in
  ((includes (fr_deadEnemies fr) ei = true \/ touches M p e = false)
   /\ s_enemies (fr_s fr') = s_enemies (fr_s fr)
   /\ fr_deadEnemies fr' = fr_deadEnemies fr)
  \/ (includes (fr_deadEnemies fr) ei = false /\ touches M p e = true
      /\ exists e' kids,
           e_hp e' = (e_hp e - 1)%Z /\ e_maxHp e' = e_maxHp e
           /\ e_x e' = e_x e /\ e_y e' = e_y e /\ e_radius e' = e_radius e
           /\ s_enemies (fr_s fr') = <[ei := e']> (s_enemies (fr_s fr)) ++ kids
           /\ fr_deadEnemies fr'
              = if (e_hp e - 1 <=? 0)%Z then fr_deadEnemies fr ++ [ei]
                else fr_deadEnemies fr).
Proof.
  unfold touches. cbv beta delta [hitCallback]. cbv zeta beta.
  destruct (includes (fr_deadEnemies fr) ei) eqn:Hd;
    [left; repeat split; left; reflexivity|].
  destruct (Qltb (len M (p_x p - e_x e) (p_y p - e_y e))
              (p_radius p + e_radius e));
    [|left; repeat split; right; reflexivity].
  right. split; [reflexivity|]. split; [reflexivity|].
  set (e2 := eset_flashTimer 7%Z (eset_hp (e_hp e - 1)%Z e)).
  set (s2 := spawnParticles M (e_x e2) (e_y e2) (e_color e2) 4 1
               (set_enemies (<[ei := e2]> (s_enemies (fr_s fr))) (fr_s fr))).
  set (fr1 := mkLocals s2 (fr_deadEnemies fr) (fr_deadProjectiles fr)).
  assert (E2 : s_enemies (fr_s fr1) = <[ei := e2]> (s_enemies (fr_s fr))).
  { subst fr1 s2. cbn [fr_s].
    rewrite (view_spawnParticles s_enemies (fun _ _ _ => eq_refl)).
    reflexivity. }
  change (e_hp e2) with (e_hp e - 1)%Z.
  assert (Hfin : forall fr2 : Locals,
            (exists e' kids,
               e_hp e' = (e_hp e - 1)%Z /\ e_maxHp e' = e_maxHp e
               /\ e_x e' = e_x e /\ e_y e' = e_y e
               /\ e_radius e' = e_radius e
               /\ s_enemies (fr_s fr2)
                  = <[ei := e']> (s_enemies (fr_s fr)) ++ kids
               /\ fr_deadEnemies fr2
                  = if (e_hp e - 1 <=? 0)%Z then fr_deadEnemies fr ++ [ei]
                    else fr_deadEnemies fr) ->
            exists e' kids,
               e_hp e' = (e_hp e - 1)%Z /\ e_maxHp e' = e_maxHp e
               /\ e_x e' = e_x e /\ e_y e' = e_y e
               /\ e_radius e' = e_radius e
               /\ s_enemies
                    (fr_s (if p_piercing p then fr2
                           else mkLocals (fr_s fr2) (fr_deadEnemies fr2)
                                  ({[pi]} ∪ fr_deadProjectiles fr2)))
                  = <[ei := e']> (s_enemies (fr_s fr)) ++ kids
               /\ fr_deadEnemies
                    (if p_piercing p then fr2
                     else mkLocals (fr_s fr2) (fr_deadEnemies fr2)
                            ({[pi]} ∪ fr_deadProjectiles fr2))
                  = if (e_hp e - 1 <=? 0)%Z then fr_deadEnemies fr ++ [ei]
                    else fr_deadEnemies fr).
  { intros fr2 Hfr2. destruct (p_piercing p); exact Hfr2. }
  apply Hfin. clear Hfin.
  destruct (e_hp e - 1 <=? 0)%Z.
  - destruct (enemies_killEnemy W H e2 ei fr1) as (kids & _ & _ & Ek).
    rewrite E2 in Ek.
    exists (if String.eqb (e_id e2) "splitter" && negb (e_splitDone e2)
            then eset_splitDone true e2 else e2), kids.
    rewrite Ek, dead_killEnemy.
    change (fr_deadEnemies fr1) with (fr_deadEnemies fr). rewrite Hd.
    destruct (String.eqb (e_id e2) "splitter" && negb (e_splitDone e2));
      [rewrite list_insert_insert_eq|]; repeat split; reflexivity.
  - exists e2, []. rewrite app_nil_r, E2.
    repeat split; reflexivity.
Qed.

Lemma struck_ext dead0 fr i e k k' :
  k = k' -> struck dead0 fr i e k -> struck dead0 fr i e k'.
Proof. intros ->. exact (fun H => H). Qed.

Section Struck.

Variables (W H : Q) (p : Projectile) (pi : nat).
Variables (dead0 : list nat) (l0 : list Enemy).

(** One step of the inner loop: [h t] is 1 if [p] touches the enemy that was
    at index [t], and 0 if not. *)
Lemma struck_hitCallback (h c : nat -> Z) a l i fr :
  (forall t e, l0 !! t = Some e ->
               h t = if touches M p e then 1%Z else 0%Z) ->
  (forall t e, l0 !! t = Some e -> struck dead0 fr t e (c t)) ->
  (forall k e, (a :: l) !! k = Some e ->
               s_enemies (fr_s fr) !! (i + k)%nat = Some e) ->
  (forall t e, l0 !! t = Some e ->
     struck dead0 (hitCallback M W H p pi a i fr) t e
       (if (t =? i)%nat then c t + h t else c t)%Z)
  /\ (forall k e, l !! k = Some e ->
        s_enemies (fr_s (hitCallback M W H p pi a i fr)) !! (S i + k)%nat
        = Some e).
Proof.
  intros Hh Hs Hl.
  assert (Ha : s_enemies (fr_s fr) !! i = Some a).
  { specialize (Hl 0%nat a eq_refl). rewrite Nat.add_0_r in Hl. exact Hl. }
  assert (Hrest : forall k e, l !! k = Some e ->
                    s_enemies (fr_s fr) !! (S i + k)%nat = Some e).
  { intros k e Hk. specialize (Hl (S k) e Hk).
    rewrite Nat.add_succ_r in Hl. exact Hl. }
  assert (Htouch : forall e e', e_x e' = e_x e -> e_y e' = e_y e ->
                     e_radius e' = e_radius e ->
                     touches M p e' = touches M p e).
  { intros e e' Ex Ey Er. unfold touches. rewrite Ex, Ey, Er. reflexivity. }
  destruct (hitCallback_body W H p pi a i fr)
    as [(Hskip & Ee & Ed)
       | (Hd & Hhit & e2 & kids & Hhp & Hmax & Hx & Hy & Hr & Ee & Ed)].
  - split; [|intros k e Hk; rewrite Ee; exact (Hrest k e Hk)].
    intros t e Ht.
    destruct (Hs t e Ht) as (e' & He' & Ex & Ey & Er & Em & Ehp & Efl).
    exists e'. rewrite Ee, Ed.
    split; [exact He'|]. split; [exact Ex|]. split; [exact Ey|].
    split; [exact Er|]. split; [exact Em|]. split; [|exact Efl].
    destruct (Nat.eqb_spec t i) as [->|Hne]; [|exact Ehp].
    assert (a = e') by congruence. subst e'.
    rewrite (Hh i e Ht), <- (Htouch e a Ex Ey Er).
    destruct (includes dead0 i) eqn:Hd0; [exact Ehp|].
    destruct Hskip as [Hin| ->]; [|rewrite Z.add_0_r; exact Ehp].
    rewrite Hin in Efl. cbn [orb] in Efl. symmetry in Efl.
    apply Z.leb_le in Efl. destruct (touches M p a); lia.
  - split.
    + intros t e Ht.
      destruct (Hs t e Ht) as (e' & He' & Ex & Ey & Er & Em & Ehp & Efl).
      destruct (Nat.eqb_spec t i) as [->|Hne].
      * assert (a = e') by congruence. subst e'.
        rewrite Hd in Efl. symmetry in Efl.
        apply orb_false_iff in Efl as (Hd0 & Hpos).
        apply Z.leb_gt in Hpos. rewrite Hd0 in Ehp.
        exists e2. rewrite Ee, Ed.
        split.
        { apply lookup_app_l_Some, list_lookup_insert_eq.
          apply lookup_lt_Some in Ha. exact Ha. }
        split; [congruence|]. split; [congruence|].
        split; [congruence|]. split; [congruence|].
        rewrite (Hh i e Ht), <- (Htouch e a Ex Ey Er), Hhit, Hd0, Hhp.
        split; [lia|]. cbn [orb].
        destruct (Z.leb_spec (e_hp a - 1) 0) as [Hz|Hz].
        -- rewrite includes_last. reflexivity.
        -- rewrite Hd. reflexivity.
      * exists e'. rewrite Ee, Ed.
        split.
        { apply lookup_app_l_Some.
          rewrite list_lookup_insert_ne by congruence. exact He'. }
        split; [exact Ex|]. split; [exact Ey|]. split; [exact Er|].
        split; [exact Em|]. split; [exact Ehp|].
        destruct (e_hp a - 1 <=? 0)%Z; [|exact Efl].
        rewrite includes_app_ne by congruence. exact Efl.
    + intros k e Hk. rewrite Ee. apply lookup_app_l_Some.
      rewrite list_lookup_insert_ne by lia. exact (Hrest k e Hk).
Qed.

(** The inner loop: every enemy whose index the loop passes is tested once. *)
Lemma struck_hitLoop (h : nat -> Z) l : forall i fr (c : nat -> Z),
  (forall t e, l0 !! t = Some e ->
               h t = if touches M p e then 1%Z else 0%Z) ->
  (forall t e, l0 !! t = Some e -> struck dead0 fr t e (c t)) ->
  (forall k e, l !! k = Some e ->
               s_enemies (fr_s fr) !! (i + k)%nat = Some e) ->
  forall t e, l0 !! t = Some e ->
    struck dead0 (forEachFrom (hitCallback M W H p pi) i l fr) t e
      (c t + (if (i <=? t)%nat && (t <? i + length l)%nat
              then h t else 0))%Z.
Proof.
  induction l as [|a l IH]; intros i fr c Hh Hs Hl t e Ht.
  - cbn [forEachFrom length]. apply (struck_ext _ _ _ _ (c t)); [|auto].
    destruct (Nat.leb_spec i t), (Nat.ltb_spec t (i + 0)); cbn [andb]; lia.
  - cbn [forEachFrom length].
    destruct (struck_hitCallback h c a l i fr Hh Hs Hl) as (Hs' & Hl').
    pose proof (IH (S i) _
                  (fun t => if (t =? i)%nat then c t + h t else c t)%Z
                  Hh Hs' Hl' t e Ht) as Hfin.
    cbv beta in Hfin. revert Hfin. apply struck_ext.
    destruct (Nat.eqb_spec t i), (Nat.leb_spec (S i) t),
      (Nat.ltb_spec t (S i + length l)), (Nat.leb_spec i t),
      (Nat.ltb_spec t (i + S (length l))); cbn [andb]; lia.
Qed.

End Struck.

(** The hits of a frame: every projectile is tested against every enemy. *)
Lemma struck_projectileLoop W H dead0 (l0 : list Enemy) ps :
  forall i fr (c : nat -> Z),
  (forall t e, l0 !! t = Some e -> struck dead0 fr t e (c t)) ->
  forall t e, l0 !! t = Some e ->
    struck dead0 (forEachFrom (projectileCallback M W H) i ps fr) t e
      (c t + hitsOn M ps e)%Z.
Proof.
  induction ps as [|p ps IH]; intros i fr c Hs t e Ht.
  - cbn [forEachFrom]. apply (struck_ext _ _ _ _ (c t)); [|auto].
    unfold hitsOn. cbn. lia.
  - cbn [forEachFrom].
    set (h := fun t => match l0 !! t with
                       | Some e => if touches M p e then 1%Z else 0%Z
                       | None => 0%Z
                       end).
    assert (Hh : forall t e, l0 !! t = Some e ->
                   h t = if touches M p e then 1%Z else 0%Z)
      by (intros t' e' Ht'; unfold h; rewrite Ht'; reflexivity).
    assert (Hs' : forall t e, l0 !! t = Some e ->
              struck dead0 (projectileCallback M W H p i fr) t e
                (c t + h t)%Z).
    { intros t' e' Ht'. unfold projectileCallback, forEach.
      pose proof (struck_hitLoop W H p i dead0 l0 h (s_enemies (fr_s fr))
                    0%nat fr c Hh Hs (fun k e Hk => Hk) t' e' Ht') as Hloop.
      revert Hloop. apply struck_ext.
      destruct (Hs t' e' Ht') as (x & Hx & _).
      apply lookup_lt_Some in Hx.
      destruct (Nat.leb_spec 0 t'),
        (Nat.ltb_spec t' (0 + length (s_enemies (fr_s fr))));
        cbn [andb]; lia. }
    pose proof (IH (S i) _ (fun t => c t + h t)%Z Hs' t e Ht) as Hfin.
    cbv beta in Hfin. revert Hfin. apply struck_ext.
    rewrite (Hh t e Ht). unfold hitsOn. cbn [List.filter].
    destruct (touches M p e); cbn [length]; lia.
Qed.

Lemma struck_projectilePhase W H s dead i e :
  Forall healthy (s_enemies s) ->
  s_enemies s !! i = Some e ->
  struck dead (projectilePhase M W H (mkLocals s dead ∅)) i e
    (hitsOn M (s_projectiles s) e).
Proof.
  intros Hs Hi. unfold projectilePhase, forEach. cbn [fr_s].
  pose proof (struck_projectileLoop W H dead (s_enemies s) (s_projectiles s)
                0%nat (mkLocals s dead ∅) (fun _ => 0%Z)) as Hloop.
  cbv beta in Hloop. apply (Hloop); [|exact Hi].
  intros t x Ht. exists x. cbn [fr_s fr_deadEnemies].
  pose proof (Forall_lookup_1 _ _ _ _ Hs Ht) as Hx. unfold healthy in Hx.
  repeat (split; [first [exact Ht | reflexivity]|]).
  split.
  - destruct (includes dead t); lia.
  - destruct (Z.leb_spec (e_hp x) 0); [lia|]. rewrite orb_false_r.
    reflexivity.
Qed.

(** The timer steps of a frame leave the enemies in place and may append
    one, at full health. *)
Lemma enemies_timerPhases W H s :
  exists born,
    s_enemies (timerPhases M diff W H s) = s_enemies s ++ born
    /\ Forall (fun e => e_hp e = e_maxHp e) born.
Proof.
  cbv beta delta [timerPhases].
  pull_let s1 H1. pull_let s2 H2. pull_let s3 H3. pull_let s4 H4.
  pull_let s5 H5. pull_let s6 H6. pull_let s7 H7.
  change (exists born, s_enemies s7 = s_enemies s ++ born
                       /\ Forall (fun e => e_hp e = e_maxHp e) born).
  destruct (enemies_timerPhases_but_spawn W H s6) as (_ & _ & _ & _ & _ & E7).
  destruct (enemies_timerPhases_but_spawn W H s5) as (_ & _ & _ & _ & E6 & _).
  destruct (enemies_timerPhases_but_spawn W H s4) as (_ & _ & _ & E5 & _).
  destruct (enemies_timerPhases_but_spawn W H s3) as (_ & _ & E4 & _).
  destruct (enemies_timerPhases_but_spawn W H s2) as (_ & E3 & _).
  destruct (enemies_timerPhases_but_spawn W H s) as (E1 & _).
  rewrite H7, E7, H6, E6, H5, E5, H4, E4, H3, E3, H2, <- E1, <- H1.
  clear. cbv beta delta [spawnPhase]. cbv zeta.
  assert (Hnone : exists born,
             s_enemies s1 = s_enemies s1 ++ born
             /\ Forall (fun e => e_hp e = e_maxHp e) born)
    by (exists []; rewrite app_nil_r; split; [reflexivity | constructor]).
  match goal with
  | |- context [if ?c then _ else _] => destruct c; [|exact Hnone]
  end.
  proj_simpl.
  match goal with
  | |- context [match ?o with Some _ => _ | None => _ end] =>
      destruct o as [type|]; [|exact Hnone]
  end.
  match goal with
  | |- context [createEnemy M type W H ?o ?n] =>
      generalize (health_createEnemy type W H o n);
      destruct (createEnemy M type W H o n) as [e n']
  end.
  intros Hh. cbn [fst] in Hh. proj_simpl.
  eexists [_]. split; [reflexivity|].
  constructor; [|constructor].
  unfold health in Hh. injection Hh as Hhp Hmax.
  cbn [e_hp e_maxHp eset_speed eset_vx eset_vy]. congruence.
Qed.

(** What is left of a frame after [// Remove dead] leaves the enemies
    alone. *)
Lemma enemies_entityPhases W H mouse s :
  s_enemies (entityPhases M diff W H mouse s)
  = s_enemies
      (removeDead
         (projectilePhase M W H
            (mkLocals (fst (enemyPhase M diff W H s))
               (snd (enemyPhase M diff W H s)) ∅))).
Proof.
  cbv beta delta [entityPhases].
  destruct (enemyPhase M diff W H s) as [s1 dead]. cbv iota.
  change (fst (s1, dead)) with s1. change (snd (s1, dead)) with dead.
  pull_let fr Hfr. pull_let s2 H2. pull_let s3 H3. pull_let s4 H4.
  pull_let s5 H5.
  unfold floatPhase. view_setter s_enemies.
  rewrite H5. unfold particlePhase. view_setter s_enemies.
  rewrite H4. unfold moveProjectiles. view_setter s_enemies.
  rewrite H3, enemies_pickupPhase, H2, Hfr. reflexivity.
Qed.

(** A click leaves the enemies alone or, with the bomb, removes those in
    its blast. *)
Lemma enemies_shoot canvas mouse s :
  s_enemies (shoot M diff canvas mouse s) = s_enemies s
  \/ s_enemies (shoot M diff canvas mouse s)
     = List.filter (fun e => negb (inBlast M (fst mouse) (snd mouse) e))
         (s_enemies s).
Proof.
  destruct (accepts M canvas mouse s) eqn:Hacc;
    [|left; rewrite shoot_refused by exact Hacc; reflexivity].
  destruct (accepts_true _ _ _ Hacc) as (_ & _ & _ & _ & W & H & -> & _).
  rewrite (shoot_accepted W H mouse s Hacc).
  assert (E : s_enemies (fired M W H mouse s) = s_enemies s
              \/ s_enemies (fired M W H mouse s)
                 = List.filter
                     (fun e => negb (inBlast M (fst mouse) (snd mouse) e))
                     (s_enemies s)).
  { unfold fired. destruct (isPowerup bomb (s_activePowerup s)).
    - right. do 2 view_setter s_enemies.
      exact (proj1 (spawnBombExplosion_exact _ _ s)).
    - left. apply enemies_projectiles. }
  generalize dependent (fired M W H mouse s). intros s1 E.
  cbv zeta.
  match goal with
  | |- context [if ?c then _ else _] => destruct c
  end; cbn [s_enemies set_reloadProgress set_reloadTimer set_reloading
            set_bowPulse set_shootCooldown set_arrows]; exact E.
Qed.

End Frames.

(** ** C1: the reload takes exactly the configured number of steps *)

(** C1 (as amended).  Once [shoot] has started a reload, the ammunition stays
    at 0 and [reloading] stays set for every number [k] of simulation steps
    below the difficulty's [reloadTime], with [reloadProgress] equal to
    [k / reloadTime], a value in [0, 1); the step that makes [k] equal to
    [reloadTime] restores [arrows] to [maxArrows], clears [reloading] and
    resets [reloadProgress] to 0.  Clicks in between change nothing, and
    frames after the player died are not simulation steps. *)
Theorem reload_exact_duration (M : MathObj) (d : Difficulty)
    (inputs : list Input) (W H : Q) (mouse : Q * Q) (s : GS) :
  let diff := DIFFICULTY d in
  let D := reloadTime diff in
  let k := Z.of_nat (simSteps M diff inputs s) in
  let s' := run M diff inputs s in
  reloadStarted diff s ->
  ((k < D)%Z ->
     s_reloading s' = true /\ s_arrows s' = 0%Z
     /\ s_reloadProgress s' == inject_Z k / inject_Z D
     /\ 0 <= s_reloadProgress s' /\ s_reloadProgress s' < 1)
  /\ (k = (D - 1)%Z -> s_alive s' = true ->
      let s'' := loop M diff W H mouse s' in
      s_reloading s'' = false /\ s_arrows s'' = s_maxArrows s
      /\ s_reloadProgress s'' = 0).
Proof.
  intros diff D k s' Hs.
  apply (reload_general M diff inputs W H mouse s); [|exact Hs].
  destruct d; reflexivity.
Qed.

(** On easy, 149 idle frames into the reload, the next frame refills the
    quiver. *)
Lemma reload_exact_duration_witness :
  reloadStarted (DIFFICULTY easy) (reloadJustStarted easy)
  /\ s_arrows
       (loop Eval.math (DIFFICULTY easy) 800 600 (500, 300)
          (run Eval.math (DIFFICULTY easy) (repeat idleFrame 149)
             (reloadJustStarted easy)))
     = s_maxArrows (reloadJustStarted easy).
Proof.
  assert (Hs : reloadStarted (DIFFICULTY easy) (reloadJustStarted easy))
    by (repeat split; vm_compute; reflexivity).
  split; [exact Hs|].
  destruct (reload_exact_duration Eval.math easy (repeat idleFrame 149)
              800 600 (500, 300) (reloadJustStarted easy) Hs) as [_ Hdone].
  destruct Hdone as (_ & Ha & _); [vm_compute; reflexivity ..|].
  exact Ha.
Defined.

(** C1 as stated fails: at the completing step [reloadProgress] is not 1.
    On easy, the click that fires the last arrow starts the reload, and 150
    simulation steps later the quiver is full and [reloadProgress] is 0. *)
Lemma reload_progress_not_one_at_completion :
  let diff := DIFFICULTY easy in
  let s1 := reloadJustStarted easy in
  let s2 := run Eval.math diff (repeat idleFrame 150) s1 in
  reloadStarted diff s1
  /\ simSteps Eval.math diff (repeat idleFrame 150) s1 = 150%nat
  /\ s_arrows s2 = s_maxArrows s1
  /\ s_reloading s2 = false
  /\ ~ s_reloadProgress s2 == 1.
Proof.
  vm_compute. repeat split; try reflexivity. discriminate.
Qed.

(** ** C2: a refused shot changes nothing *)

Lemma len_at_origin (M : MathObj) (dx dy : Q) :
  sqrtZero M -> dx == 0 -> dy == 0 -> Qeq_bool (len M dx dy) 0 = true.
Proof.
  intros HM Hx Hy. apply Qeq_bool_iff. apply HM.
  rewrite Hx, Hy. reflexivity.
Qed.

Lemma at_center (m c : Q) : m == c -> m - c == 0.
Proof. intros ->. ring. Qed.

(** C2.  For every state, [shoot] returns the state it was given (so no
    projectile is added and [arrows] is not decremented) when the player is
    not alive, or a reload is running, or no arrow is left, or the shoot
    cooldown is still positive, or the pointer is exactly at the centre of
    the canvas. *)
Theorem shoot_noop (M : MathObj) (diff : DiffCfg)
    (canvas : option (Q * Q)) (mouse : Q * Q) (s : GS) :
  sqrtZero M ->
  (s_alive s = false \/ s_reloading s = true \/ (s_arrows s <= 0)%Z
   \/ (0 < s_shootCooldown s)%Z
   \/ exists W H, canvas = Some (W, H)
                  /\ fst mouse == W / 2 /\ snd mouse == H / 2) ->
  shoot M diff canvas mouse s = s.
Proof.
  intros HM Hc. unfold shoot.
  destruct (s_alive s) eqn:Ea; [|reflexivity].
  destruct (s_reloading s) eqn:Er; [reflexivity|].
  destruct (s_arrows s <=? 0)%Z eqn:Eo; [reflexivity|].
  destruct (0 <? s_shootCooldown s)%Z eqn:Ec; [reflexivity|].
  cbn [negb orb].
  apply Z.leb_gt in Eo. apply Z.ltb_ge in Ec.
  destruct Hc as [Hc | [Hc | [Hc | [Hc | (W & H & -> & Hx & Hy)]]]];
    try discriminate; try lia.
  rewrite (len_at_origin M _ _ HM (at_center _ _ Hx) (at_center _ _ Hy)).
  reflexivity.
Qed.

(** The same holds of [shoot] in the earlier revision. *)
Lemma legacy_shoot_noop (M : MathObj) (diff : Legacy.DiffCfg)
    (canvas : option (Q * Q)) (mouse : Q * Q) (s : Legacy.LS) :
  sqrtZero M ->
  (Legacy.l_alive s = false \/ Legacy.l_reloading s = true
   \/ (Legacy.l_arrows s <= 0)%Z \/ (0 < Legacy.l_shootCooldown s)%Z
   \/ exists W H, canvas = Some (W, H)
                  /\ fst mouse == W / 2 /\ snd mouse == H / 2) ->
  Legacy.shoot M canvas mouse s = s.
Proof.
  intros HM Hc. unfold Legacy.shoot.
  destruct (Legacy.l_alive s) eqn:Ea; [|reflexivity].
  destruct (Legacy.l_reloading s) eqn:Er; [reflexivity|].
  destruct (Legacy.l_arrows s <=? 0)%Z eqn:Eo; [reflexivity|].
  destruct (0 <? Legacy.l_shootCooldown s)%Z eqn:Ec; [reflexivity|].
  cbn [negb orb].
  apply Z.leb_gt in Eo. apply Z.ltb_ge in Ec.
  destruct Hc as [Hc | [Hc | [Hc | [Hc | (W & H & -> & Hx & Hy)]]]];
    try discriminate; try lia.
  rewrite (len_at_origin M _ _ HM (at_center _ _ Hx) (at_center _ _ Hy)).
  reflexivity.
Qed.

Lemma Eval_sqrtZero : sqrtZero Eval.math.
Proof.
  intros q Hq. cbn [sqrt Eval.math]. unfold Eval.sqrt.
  rewrite Qred_correct.
  unfold Qeq in *. cbn [Qnum Qden] in *.
  rewrite Z.mul_1_r in Hq. rewrite Hq. reflexivity.
Qed.

(** A click with the pointer on the bow, in a fresh session, is refused. *)
Lemma shoot_noop_witness :
  shoot Eval.math (DIFFICULTY normal) (Some (800, 600)) (400, 300)
    (initialState (DIFFICULTY normal))
  = initialState (DIFFICULTY normal).
Proof.
  apply (shoot_noop Eval.math (DIFFICULTY normal)); [exact Eval_sqrtZero|].
  right; right; right; right. exists 800, 600.
  split; [reflexivity|]. split; reflexivity.
Defined.
(** ** C4: enemy health *)

(** C4.  The hit loop of the earlier revision ([GameCanvas.tsx],
    [// Check projectile hits]) does not test [deadEnemies], and it splices
    the projectile array it iterates.  In the session [doubleHitInputs]
    three arrows are in flight, the first and the last on the same scout,
    which has its one health point.  In the next frame the first arrow
    kills the scout and is spliced out; the last one, now at index 1, hits
    the scout again: during that frame its health is -1, outside
    [0, max health], and its 10 points are awarded twice.  The current
    revision, given the same enemies and projectiles, stops at health 0 and
    awards the points once. *)
Theorem legacy_enemy_health_negative :
  let d := Legacy.DIFFICULTY normal in
  let s := beforeDoubleHit in
  let st := Legacy.hitsOfFrame axisMath d 1472 600 s in
  let s' := Legacy.loop axisMath d 1472 600 s in
  let now := enemyPhase axisMath (DIFFICULTY normal) 1472 600
               beforeDoubleHitNow in
  let fr := projectilePhase axisMath 1472 600
              (mkLocals (fst now) (snd now) ∅) in
  map (fun e => (e_id e, e_hp e, e_maxHp e)) (Legacy.l_enemies s)
  = [("scout"%string, 1%Z, 1%Z)]
  /\ length (Legacy.l_projectiles s) = 3%nat
  /\ Legacy.l_score s = 0%Z
  /\ map (fun e => (e_hp e, e_maxHp e)) (Legacy.l_enemies (fst st))
     = [((-1)%Z, 1%Z)]
  /\ Legacy.l_score (fst st) = 20%Z
  /\ snd st = [0%nat]
  /\ Legacy.l_enemies s' = [] /\ Legacy.l_score s' = 20%Z
  /\ length (Legacy.l_projectiles s') = 1%nat
  /\ map (fun e => (e_hp e, e_maxHp e)) (s_enemies (fr_s fr)) = [(0%Z, 1%Z)]
  /\ s_score (fr_s fr) = 10%Z
  /\ fr_deadEnemies fr = [0%nat].
Proof.
  vm_compute. repeat split; reflexivity.
Qed.

(** ** C5: the score of a kill *)

(** C5.  When a projectile hit brings an enemy's health to 0 or below, the
    score grows by [round(points * wave * (1 + floor(combo / 3) * 0.5))],
    computed with the combo counter as it was before the hit; the combo
    counter grows by 1 and its decay countdown is set to 90.  With the combo
    counter at 0 the score grows by exactly [points * wave]. *)
Theorem kill_awards_combo_score (M : MathObj) (W H : Q) (p : Projectile)
    (pi : nat) (e : Enemy) (ei : nat) (fr : Locals) :
  let s := fr_s fr in
  let s' := fr_s (hitCallback M W H p pi e ei fr) in
  includes (fr_deadEnemies fr) ei = false ->
  Qltb (len M (p_x p - e_x e) (p_y p - e_y e)) (p_radius p + e_radius e)
  = true ->
  (e_hp e - 1 <= 0)%Z ->
  s_score s'
  = (s_score s
     + Math_round
         (inject_Z (e_points e) * inject_Z (s_wave s)
          * (1 + inject_Z (Qfloor (inject_Z (s_combo s) / 3)) * 0.5)))%Z
  /\ s_combo s' = (s_combo s + 1)%Z
  /\ s_comboTimer s' = 90%Z
  /\ (s_combo s = 0%Z ->
      s_score s' = (s_score s + e_points e * s_wave s)%Z).
Proof.
  intros s s' Hd Hhit Hhp.
  pose proof (scoring_hit_kill M W H p pi e ei fr Hd Hhit Hhp) as E.
  unfold scoring in E. injection E as E1 E2 E3.
  repeat split; try assumption.
  intros Hc. subst s s'. rewrite E1. f_equal.
  apply (earned_without_combo e (fr_s fr) Hc).
Qed.

(** A scout (10 points, one health point) shot in wave 1 with no combo
    running is worth 10. *)
Lemma kill_awards_combo_score_witness :
  let e := enemyAt scoutType 600 300 0 in
  let fr := mkLocals oneScout [] ∅ in
  let s' := fr_s (hitCallback Eval.math 800 600 (arrowAt 600 300) 0 e 0 fr) in
  (e_hp e - 1 <= 0)%Z /\ s_score s' = 10%Z /\ s_combo s' = 1%Z.
Proof.
  assert (Hhp : (e_hp (enemyAt scoutType 600 300 0) - 1 <= 0)%Z)
    by (vm_compute; discriminate).
  split; [exact Hhp|].
  destruct (kill_awards_combo_score Eval.math 800 600 (arrowAt 600 300) 0
              (enemyAt scoutType 600 300 0) 0 (mkLocals oneScout [] ∅)
              eq_refl eq_refl Hhp) as (_ & Hc & _ & Hs).
  split; [exact (Hs eq_refl) | exact Hc].
Defined.

(** ** C9: the wave advances on the step after the timer reaches 700 *)

(** C9 (as amended).  Counting simulation steps from a state whose wave
    timer is 0, the wave number is unchanged and the timer equals the count
    for the first 700 steps, the 700th included; the next step, which would
    take the timer past 700, increments the wave by exactly 1, resets the
    timer to 0 and sets the announce countdown to 150, of which 149 are left
    when the step ends. *)
Theorem wave_advances_after_700 (M : MathObj) (diff : DiffCfg)
    (inputs : list Input) (W H : Q) (mouse : Q * Q) (s : GS) :
  let k := Z.of_nat (simSteps M diff inputs s) in
  let s' := run M diff inputs s in
  s_waveTimer s = 0%Z ->
  ((k <= 700)%Z -> s_wave s' = s_wave s /\ s_waveTimer s' = k)
  /\ (k = 700%Z -> s_alive s' = true ->
      let s'' := loop M diff W H mouse s' in
      s_wave s'' = (s_wave s + 1)%Z /\ s_waveTimer s'' = 0%Z
      /\ s_waveAnnounce s'' = 149%Z).
Proof.
  intros k s' Ht.
  assert (Hrun : (k <= 700)%Z -> s_wave s' = s_wave s /\ s_waveTimer s' = k).
  { intros Hk.
    pose proof (wave_run M diff (s_wave s) inputs 0 s) as R.
    cbn [Z.add] in R. apply R; [lia | exact Hk | reflexivity | exact Ht]. }
  split; [exact Hrun|].
  intros Hk Ha s''.
  destruct Hrun as [Hw Hwt]; [lia|].
  destruct (wave_frame_at_700 M diff W H mouse s' Ha) as (E1 & E2 & E3);
    [congruence|].
  subst s''. repeat split; congruence.
Qed.

(** Three frames into a session on normal, the wave is still 1 and the wave
    timer is 3. *)
Lemma wave_advances_after_700_witness :
  s_waveTimer (initialState (DIFFICULTY normal)) = 0%Z
  /\ s_wave (run Eval.math (DIFFICULTY normal) (repeat idleFrame 3)
               (initialState (DIFFICULTY normal))) = 1%Z
  /\ s_waveTimer (run Eval.math (DIFFICULTY normal) (repeat idleFrame 3)
                    (initialState (DIFFICULTY normal))) = 3%Z.
Proof.
  split; [reflexivity|].
  destruct (wave_advances_after_700 Eval.math (DIFFICULTY normal)
              (repeat idleFrame 3) 800 600 (500, 300)
              (initialState (DIFFICULTY normal)) eq_refl) as [Hrun _].
  apply Hrun. vm_compute. discriminate.
Defined.

(** C9 as stated fails: on the step at which the wave timer reaches 700 the
    wave is not incremented and no announce window opens. *)
Lemma wave_not_incremented_at_700 :
  let s := set_waveTimer 699%Z (initialState (DIFFICULTY normal)) in
  let s' := loop Eval.math (DIFFICULTY normal) 800 600 (500, 300) s in
  s_alive s = true
  /\ s_waveTimer s' = 700%Z
  /\ s_wave s' = s_wave s
  /\ s_waveAnnounce s' = 0%Z.
Proof.
  vm_compute. repeat split; reflexivity.
Qed.

(** ** C10: what a teleport relocation changes *)

(** C10.  When the countdown of a teleport-pattern enemy expires during its
    move, the enemy after the move is the enemy before it with three fields
    replaced: [teleportTimer] by [100 + Math.random() * 100], and [x], [y] by
    the position of a fresh [createEnemy] of the same type.  Every other
    field is the old one; in particular the velocity, the speed and the
    health are unchanged. *)
Theorem teleport_changes_position_only (M : MathObj) (W H : Q)
    (e : Enemy) (s : GS) :
  e_pattern e = teleport ->
  Qleb (e_teleportTimer e - 1) 0 = true ->
  let e' := fst (moveEnemy M W H e s) in
  (exists n : nat,
     let newE := fst (createEnemy M (typeOf e) W H None n) in
     e' = eset_y (e_y newE)
            (eset_x (e_x newE)
               (eset_teleportTimer (100 + random M (s_rng s) * 100) e)))
  /\ e_vx e' = e_vx e /\ e_vy e' = e_vy e
  /\ e_speed e' = e_speed e /\ e_hp e' = e_hp e /\ e_maxHp e' = e_maxHp e.
Proof.
  intros Hp Hexp e'.
  assert (Hshape : exists n : nat,
     let newE := fst (createEnemy M (typeOf e) W H None n) in
     e' = eset_y (e_y newE)
            (eset_x (e_x newE)
               (eset_teleportTimer (100 + random M (s_rng s) * 100) e))).
  { subst e'. unfold moveEnemy. rewrite Hp.
    cbn [e_teleportTimer eset_teleportTimer eset_x eset_y].
    rewrite Hexp.
    match goal with
    | |- context [createEnemy M ?t W H None ?n] =>
        exists n; change t with (typeOf e)
    end.
    destruct (createEnemy M (typeOf e) W H None _) as [newE n1].
    reflexivity. }
  split; [exact Hshape|].
  destruct Hshape as (n & Hn). cbv zeta in Hn. rewrite Hn.
  repeat split; reflexivity.
Qed.

(** A ghost with half a frame left on its countdown is relocated and keeps
    its velocity. *)
Lemma teleport_changes_position_only_witness :
  let e := ghostAboutToTeleport in
  let e' := fst (moveEnemy Eval.math 800 600 e
                   (initialState (DIFFICULTY normal))) in
  e_pattern e = teleport
  /\ e_vx e' = e_vx e /\ e_vy e' = e_vy e.
Proof.
  split; [reflexivity|].
  destruct (teleport_changes_position_only Eval.math 800 600
              ghostAboutToTeleport (initialState (DIFFICULTY normal))
              eq_refl eq_refl) as (_ & Hvx & Hvy & _).
  split; [exact Hvx | exact Hvy].
Defined.

(** ** C3: the game-over callback *)

(** C3 at its failing input.  With 0.04 health left and two scouts touching
    the bow in one frame, the first contact brings the health to 0 and calls
    [onGameOver]; the second contact finds the health at 0 and calls it
    again, with the same score. *)
Theorem game_over_reported_twice :
  let s := twoScoutsOnTheBow in
  let s' := loop Eval.math (DIFFICULTY normal) 800 600 (500, 300) s in
  s_alive s = true /\ 0 < s_hp s /\ s_gameOverCalls s = []
  /\ s_alive s' = false /\ s_hp s' == 0
  /\ s_gameOverCalls s' = [0; 0]%Z.
Proof.
  vm_compute. repeat split; reflexivity.
Qed.

(** The earlier revision does the same. *)
Lemma legacy_game_over_reported_twice :
  let s := legacyTwoScoutsOnTheBow in
  let s' := Legacy.loop Eval.math (Legacy.DIFFICULTY normal) 800 600 s in
  Legacy.l_alive s = true /\ Legacy.l_gameOverCalls s = []
  /\ Legacy.l_alive s' = false
  /\ Legacy.l_gameOverCalls s' = [0; 0]%Z.
Proof.
  vm_compute. repeat split; reflexivity.
Qed.

(** Once [alive] is false the engine ignores frames and clicks, so a
    session can only report its end during the frame in which the health
    runs out. *)
Lemma engine_stops_after_game_over (M : MathObj) (diff : DiffCfg)
    (i : Input) (s : GS) :
  s_alive s = false -> step M diff i s = s.
Proof.
  intros Ha. destruct i as [W H mouse|canvas mouse]; cbn [step].
  - cbv beta delta [loop]. rewrite Ha. reflexivity.
  - cbv beta delta [shoot]. rewrite Ha. reflexivity.
Qed.

(** ** C6: the offspring of a splitter *)

(** C6 at its failing input.  A splitter killed by the bomb is removed and
    scored, and no enemy is added. *)
Theorem bomb_kill_leaves_no_offspring :
  let s := splitterUnderBomb in
  let s' := shoot Eval.math (DIFFICULTY normal) (Some (800, 600)) (500, 300) s in
  map e_id (s_enemies s) = ["splitter"%string]
  /\ s_enemies s' = []
  /\ s_score s' = 50%Z /\ s_totalKills s' = 1%Z.
Proof.
  vm_compute. repeat split; reflexivity.
Qed.

(** The projectile path does split ([shot_splitter_splits_once]): the same
    splitter, killed by a projectile, is followed in the array by two scouts
    of max health 1. *)
Lemma projectile_kill_leaves_two_scouts :
  let fr := projectilePhase Eval.math 800 600
              (mkLocals arrowOnSplitter [] ∅) in
  map e_id (s_enemies (fr_s fr))
  = ["splitter"%string; "scout"%string; "scout"%string]
  /\ map e_maxHp (s_enemies (fr_s fr)) = [4%Z; 1%Z; 1%Z]
  /\ map e_splitDone (s_enemies (fr_s fr)) = [true; false; false]
  /\ fr_deadEnemies fr = [0%nat].
Proof.
  vm_compute. repeat split; reflexivity.
Qed.

(** ** C7: the bomb power-up *)

(** C7 at its failing input.  The frame that picks the bomb up leaves it
    active with a countdown of 1; the next frame's countdown clears it; the
    click after that fires an ordinary projectile and the tank within the
    blast radius survives. *)
Theorem bomb_expires_before_next_shot :
  let diff := DIFFICULTY normal in
  let s1 := step Eval.math diff idleFrame bombPickupNearTank in
  let s2 := step Eval.math diff idleFrame s1 in
  let s3 := step Eval.math diff aimRight s2 in
  s_activePowerup s1 = Some bomb /\ s_powerupTimer s1 = 1%Z
  /\ s_activePowerup s2 = None
  /\ length (s_projectiles s3) = 1%nat
  /\ map e_id (s_enemies s3) = ["tank"%string]
  /\ s_score s3 = 0%Z.
Proof.
  vm_compute. repeat split; reflexivity.
Qed.

(** A click between the pickup frame and the next frame does explode. *)
Lemma bomb_explodes_within_the_frame :
  let diff := DIFFICULTY normal in
  let s1 := step Eval.math diff idleFrame bombPickupNearTank in
  let s2 := step Eval.math diff aimRight s1 in
  s_projectiles s2 = [] /\ s_enemies s2 = []
  /\ s_score s2 = 40%Z /\ s_activePowerup s2 = None
  /\ s_shakePower s2 == 14.
Proof.
  vm_compute. repeat split; reflexivity.
Qed.

(** ** C8: renormalisation of a zero-length vector *)

(** C8 at its failing input, on doubles.  A chase enemy standing exactly on
    the board centre divides by a distance of 0: its velocity and position
    become [NaN], after which it neither touches the bow nor counts as off
    the board, so nothing removes it. *)
Theorem chase_on_centre_is_nan :
  let e' := Float64.chase 400 300 berserkerOnCentre in
  PrimFloat.is_nan (Float64.b_vx e') = true
  /\ PrimFloat.is_nan (Float64.b_vy e') = true
  /\ PrimFloat.is_nan (Float64.b_x e') = true
  /\ PrimFloat.is_nan (Float64.b_y e') = true
  /\ Float64.touchesBow 400 300 17 e' = false
  /\ Float64.offBoard 800 600 e' = false.
Proof.
  vm_compute. repeat split; reflexivity.
Qed.

(** The other two renormalisations are unguarded as well. *)
Lemma zigzag_and_spiral_unguarded :
  PrimFloat.is_nan
    (Float64.b_vx (Float64.zigzagKick 1 (Float64.mkBody 10 10 0 0 2 0)))
  = true
  /\ PrimFloat.is_nan
       (Float64.b_vx
          (Float64.spiralMove (fun _ => 1%float) (fun _ => 0%float) 400 300
             (Float64.mkBody 400 300 1 1 2 0)))
     = true.
Proof.
  vm_compute. split; reflexivity.
Qed.

(** * Further properties of the engine *)

Lemma DIFFICULTY_positive (d : Difficulty) :
  (1 <= maxArrows (DIFFICULTY d))%Z /\ (1 <= reloadTime (DIFFICULTY d))%Z
  /\ 0 <= playerDamageMult (DIFFICULTY d).
Proof. destruct d; repeat split; try lia; discriminate. Qed.

(** ** The quiver *)

(** X1.  In every session, at every difficulty, the number of arrows stays
    between 0 and the difficulty's [maxArrows]; the quiver is empty exactly
    while a reload is running; and a running reload has between 1 and
    [reloadTime] steps left. *)
Theorem quiver_within_bounds (M : MathObj) (d : Difficulty)
    (inputs : list Input) :
  let diff := DIFFICULTY d in
  let s := run M diff inputs (initialState diff) in
  s_maxArrows s = maxArrows diff
  /\ (0 <= s_arrows s <= maxArrows diff)%Z
  /\ (s_reloading s = true <-> s_arrows s = 0%Z)
  /\ (s_reloading s = true -> (1 <= s_reloadTimer s <= reloadTime diff)%Z).
Proof.
  cbv zeta. generalize (DIFFICULTY_positive d). generalize (DIFFICULTY d).
  intros diff (Hmax & HD & _).
  assert (H0 : ammoOK diff (initialState diff)).
  { unfold ammoOK, initialState. cbn. split; [reflexivity | lia]. }
  pose proof (ammo_run M diff inputs _ Hmax HD H0) as (Hm & Hs).
  set (s := run M diff inputs (initialState diff)) in *.
  rewrite Hm in Hs.
  destruct (s_reloading s).
  - destruct Hs as (Ha & Ht). repeat split; try lia; auto.
  - repeat split; try lia; try discriminate.
Qed.

(** ** The wave counter *)

(** X2.  After [k] simulation steps of a session the wave is [1 + k / 701]
    and the wave timer is [k mod 701]: a wave lasts 701 steps, and clicks
    and frames after the player's death do not count. *)
Theorem wave_after_steps (M : MathObj) (diff : DiffCfg)
    (inputs : list Input) :
  let k := Z.of_nat (simSteps M diff inputs (initialState diff)) in
  let s := run M diff inputs (initialState diff) in
  s_wave s = (1 + k / 701)%Z /\ s_waveTimer s = (k mod 701)%Z.
Proof.
  intros k s.
  destruct (wave_count M diff inputs (initialState diff)) as [Hw Ht];
    [cbn; lia|].
  split; [exact Hw | exact Ht].
Qed.

(** ** The gauges *)

(** X3.  In every session, at every difficulty, the player's health stays
    within [0, 100] and no event ever raises it; the player is alive exactly
    while the health is positive. *)
Theorem player_health_never_grows (M : MathObj) (d : Difficulty)
    (inputs : list Input) (i : Input) :
  let diff := DIFFICULTY d in
  let s := run M diff inputs (initialState diff) in
  0 <= s_hp s /\ s_hp s <= 100
  /\ s_hp (step M diff i s) <= s_hp s
  /\ (s_alive s = true <-> 0 < s_hp s).
Proof.
  intros diff s.
  destruct (DIFFICULTY_positive d) as (_ & _ & Hmult).
  destruct (wf_run M diff Hmult inputs _ (wf_initialState diff))
    as [Hwf _].
  fold s in Hwf.
  destruct (wf_run M diff Hmult [i] s Hwf) as [_ Hg].
  destruct Hwf as [Hs _].
  unfold advances, grows, meters in Hg. cbn in Hg.
  unfold sound, meters in Hs. cbn in Hs.
  destruct Hs as ((H0 & H1) & Ha & Hd & _).
  repeat split; try assumption; try apply Hg.
  - intros E. apply Ha. exact E.
  - intros Hpos. destruct (s_alive s); [reflexivity|].
    destruct (Hd eq_refl) as [Hle _]. lra.
Qed.

(** X4.  In every session, at every difficulty, [onGameOver] has been called
    at least once exactly when the player is no longer alive; a dead player
    stays dead, and an event only ever adds calls after those made. *)
Theorem game_over_called_iff_dead (M : MathObj) (d : Difficulty)
    (inputs : list Input) (i : Input) :
  let diff := DIFFICULTY d in
  let s := run M diff inputs (initialState diff) in
  (s_alive s = false <-> s_gameOverCalls s <> [])
  /\ (s_alive s = false -> s_alive (step M diff i s) = false)
  /\ exists more,
       s_gameOverCalls (step M diff i s) = s_gameOverCalls s ++ more.
Proof.
  intros diff s.
  destruct (DIFFICULTY_positive d) as (_ & _ & Hmult).
  destruct (wf_run M diff Hmult inputs _ (wf_initialState diff))
    as [Hwf _].
  fold s in Hwf.
  destruct (wf_run M diff Hmult [i] s Hwf) as [_ Hg].
  destruct Hwf as [Hs _].
  unfold advances, grows, meters in Hg. cbn in Hg.
  unfold sound, meters in Hs. cbn in Hs.
  destruct Hs as (_ & Ha & Hd & _).
  destruct Hg as (_ & _ & _ & Hdead & Hmore).
  split; [|split; assumption].
  split.
  - intros E. apply Hd. exact E.
  - intros Hne. destruct (s_alive s); [|reflexivity].
    destruct (Ha eq_refl) as [_ E]. contradiction.
Qed.

(** X5.  In every session, at every difficulty, the score is never
    negative and the wave is at least 1, and no event lowers either. *)
Theorem score_and_wave_never_shrink (M : MathObj) (d : Difficulty)
    (inputs : list Input) (i : Input) :
  let diff := DIFFICULTY d in
  let s := run M diff inputs (initialState diff) in
  (0 <= s_score s)%Z /\ (1 <= s_wave s)%Z
  /\ (s_score s <= s_score (step M diff i s))%Z
  /\ (s_wave s <= s_wave (step M diff i s))%Z.
Proof.
  intros diff s.
  destruct (DIFFICULTY_positive d) as (_ & _ & Hmult).
  destruct (wf_run M diff Hmult inputs _ (wf_initialState diff))
    as [Hwf _].
  fold s in Hwf.
  destruct (wf_run M diff Hmult [i] s Hwf) as [_ Hg].
  destruct Hwf as [Hs _].
  unfold advances, grows, meters in Hg. cbn in Hg.
  unfold sound, meters in Hs. cbn in Hs.
  intuition lia.
Qed.

(** X6.  In every session, at every difficulty, the combo counter is never
    negative, its decay countdown stays within [0, 90], and the counter is 0
    whenever the countdown is: a combo does not outlive its window. *)
Theorem combo_ends_with_its_window (M : MathObj) (d : Difficulty)
    (inputs : list Input) :
  let diff := DIFFICULTY d in
  let s := run M diff inputs (initialState diff) in
  (0 <= s_combo s)%Z /\ (0 <= s_comboTimer s <= 90)%Z
  /\ (s_comboTimer s = 0%Z -> s_combo s = 0%Z).
Proof.
  intros diff s.
  destruct (DIFFICULTY_positive d) as (_ & _ & Hmult).
  destruct (wf_run M diff Hmult inputs _ (wf_initialState diff))
    as [[Hs _] _].
  fold s in Hs. unfold sound, meters in Hs. cbn in Hs.
  intuition lia.
Qed.

(** X7.  In every session, at every difficulty, a power-up is active
    exactly while its countdown is positive, the countdown stays within
    [0, 360], and an active bomb always has exactly one step left. *)
Theorem powerup_lives_with_its_countdown (M : MathObj) (d : Difficulty)
    (inputs : list Input) :
  let diff := DIFFICULTY d in
  let s := run M diff inputs (initialState diff) in
  (s_activePowerup s = None <-> s_powerupTimer s = 0%Z)
  /\ (0 <= s_powerupTimer s <= 360)%Z
  /\ (s_activePowerup s = Some bomb -> s_powerupTimer s = 1%Z).
Proof.
  intros diff s.
  destruct (DIFFICULTY_positive d) as (_ & _ & Hmult).
  destruct (wf_run M diff Hmult inputs _ (wf_initialState diff))
    as [[Hs _] _].
  fold s in Hs. unfold sound, meters in Hs. cbn in Hs.
  intuition lia.
Qed.

(** ** The enemies on the board *)

(** X8.  In every session, at every difficulty, every enemy on the board
    carries the identity, colour, max health, damage, radius, points and
    movement pattern of one of the seven archetypes of [ENEMY_TYPES]; so its
    pattern is never ['spiral'] nor ['split'], and those two cases of the
    movement [switch] are never taken. *)
Theorem enemies_are_archetypes (M : MathObj) (d : Difficulty)
    (inputs : list Input) :
  let diff := DIFFICULTY d in
  let s := run M diff inputs (initialState diff) in
  Forall
    (fun e =>
       Exists (fun t => statics e = staticsOf t) ENEMY_TYPES
       /\ e_pattern e <> spiral /\ e_pattern e <> split)
    (s_enemies s).
Proof.
  intros diff s.
  destruct (DIFFICULTY_positive d) as (_ & _ & Hmult).
  destruct (wf_run M diff Hmult inputs _ (wf_initialState diff))
    as [[_ He] _].
  fold s in He. eapply Forall_impl; [exact He|].
  intros e Ha. split; [exact Ha|].
  destruct (archetypal_facts e Ha) as (_ & _ & _ & _ & H1 & H2).
  split; assumption.
Qed.

(** ** Clicks *)

(** X9.  An accepted click (player alive, no reload running, an arrow left,
    no cooldown, pointer off the centre) costs exactly one arrow and starts
    the cooldown: 4 steps under rapid fire, 12 otherwise.  It adds no
    projectile when it sets off the bomb, three under multi-shot (aimed
    0.18 rad to either side of the pointer and at it) and one otherwise;
    every new projectile starts at the centre of the canvas with speed 15
    and an empty trail, and is piercing, with radius 5 instead of 4, exactly
    under the pierce power-up.  Firing the last arrow starts the reload with
    the difficulty's [reloadTime]. *)
Theorem accepted_click_fires (M : MathObj) (diff : DiffCfg) (W H : Q)
    (mouse : Q * Q) (s : GS) :
  s_alive s = true -> s_reloading s = false -> (0 < s_arrows s)%Z ->
  (s_shootCooldown s <= 0)%Z ->
  Qeq_bool (len M (fst mouse - W / 2) (snd mouse - H / 2)) 0 = false ->
  let s' := shoot M diff (Some (W, H)) mouse s in
  let arrow := arrowOf M (W / 2) (H / 2) (fst mouse - W / 2)
                 (snd mouse - H / 2)
                 (isPowerup pierce (s_activePowerup s)) in
  s_arrows s' = (s_arrows s - 1)%Z
  /\ s_shootCooldown s'
     = (if isPowerup rapid (s_activePowerup s) then 4 else 12)%Z
  /\ s_projectiles s'
     = s_projectiles s
       ++ match s_activePowerup s with
          | Some bomb => []
          | Some multi => [arrow (- 0.18); arrow 0; arrow 0.18]
          | _ => [arrow 0]
          end
  /\ (s_reloading s' = true <-> s_arrows s = 1%Z)
  /\ (s_arrows s = 1%Z -> s_reloadTimer s' = reloadTime diff).
Proof.
  intros Ha Hr Harr Hcd Hd s' arrow.
  assert (Hacc : accepts M (Some (W, H)) mouse s = true).
  { unfold accepts. rewrite Ha, Hr, Hd. cbn [negb andb].
    replace (0 <? s_arrows s)%Z with true by (symmetry; apply Z.ltb_lt; lia).
    replace (s_shootCooldown s <=? 0)%Z with true
      by (symmetry; apply Z.leb_le; lia).
    reflexivity. }
  destruct (shot_effects M diff W H mouse s Hacc)
    as (E1 & E2 & _ & E4 & E5 & E6).
  fold s' in E1, E2, E4, E5, E6.
  split; [exact E1|]. split; [exact E2|].
  split.
  - rewrite E4, projectiles_fired. f_equal.
    destruct (s_activePowerup s) as [[| | |]|]; reflexivity.
  - split.
    + rewrite E5. split.
      * intros Hz. apply Z.leb_le in Hz. lia.
      * intros ->. reflexivity.
    + intros E. apply E6. lia.
Qed.

(** The first click of a session on normal leaves 7 of the 8 arrows. *)
Lemma accepted_click_fires_witness :
  s_arrows (shoot Eval.math (DIFFICULTY normal) (Some (800, 600)) (500, 300)
              (initialState (DIFFICULTY normal))) = 7%Z.
Proof.
  destruct (accepted_click_fires Eval.math (DIFFICULTY normal) 800 600
              (500, 300) (initialState (DIFFICULTY normal))
              eq_refl eq_refl eq_refl ltac:(discriminate) eq_refl)
    as (E & _).
  exact E.
Defined.

(** X10.  After an accepted click every further click is ignored until the
    cooldown it started has run out: the state does not change on a click
    made fewer than 12 simulation steps later, 4 under rapid fire. *)
Theorem clicks_ignored_during_cooldown (M : MathObj) (diff : DiffCfg)
    (W H : Q) (mouse : Q * Q) (s : GS) (inputs : list Input)
    (canvas' : option (Q * Q)) (mouse' : Q * Q) :
  s_alive s = true -> s_reloading s = false -> (0 < s_arrows s)%Z ->
  (s_shootCooldown s <= 0)%Z ->
  Qeq_bool (len M (fst mouse - W / 2) (snd mouse - H / 2)) 0 = false ->
  let s1 := shoot M diff (Some (W, H)) mouse s in
  let s2 := run M diff inputs s1 in
  (Z.of_nat (simSteps M diff inputs s1)
   < (if isPowerup rapid (s_activePowerup s) then 4 else 12))%Z ->
  shoot M diff canvas' mouse' s2 = s2.
Proof.
  intros Ha Hr Harr Hcd Hd s1 s2 Hlt.
  assert (Hacc : accepts M (Some (W, H)) mouse s = true).
  { unfold accepts. rewrite Ha, Hr, Hd. cbn [negb andb].
    replace (0 <? s_arrows s)%Z with true by (symmetry; apply Z.ltb_lt; lia).
    replace (s_shootCooldown s <=? 0)%Z with true
      by (symmetry; apply Z.leb_le; lia).
    reflexivity. }
  destruct (shot_effects M diff W H mouse s Hacc) as (_ & E2 & _).
  fold s1 in E2. rewrite <- E2 in Hlt.
  apply shoot_cooling. subst s2.
  rewrite (cooldown_run M diff inputs s1 Hlt). lia.
Qed.

(** On normal, a second click three frames after the first changes
    nothing. *)
Lemma clicks_ignored_during_cooldown_witness :
  let s2 := run Eval.math (DIFFICULTY normal) (repeat idleFrame 3)
              (shoot Eval.math (DIFFICULTY normal) (Some (800, 600))
                 (500, 300) (initialState (DIFFICULTY normal))) in
  shoot Eval.math (DIFFICULTY normal) (Some (800, 600)) (500, 300) s2 = s2.
Proof.
  apply (clicks_ignored_during_cooldown Eval.math (DIFFICULTY normal)
           800 600 (500, 300) (initialState (DIFFICULTY normal))
           (repeat idleFrame 3) (Some (800, 600)) (500, 300));
    try reflexivity; try discriminate.
Defined.

(** ** Projectiles *)

(** X11.  In every session every projectile in flight has a trail of at most
    12 points and the radius of its kind, 5 if piercing and 4 if not; and at
    the end of every frame of a living player every projectile is less than
    80 px outside the canvas. *)
Theorem projectiles_stay_in_shape (M : MathObj) (diff : DiffCfg)
    (inputs : list Input) (W H : Q) (mouse : Q * Q) :
  let s := run M diff inputs (initialState diff) in
  Forall
    (fun p => (length (p_trail p) <= 12)%nat
              /\ p_radius p = (if p_piercing p then 5 else 4))
    (s_projectiles s)
  /\ (s_alive s = true ->
      Forall (fun p => onBoard W H p = true)
        (s_projectiles (step M diff (Frame W H mouse) s))).
Proof.
  intros s. split.
  - apply (projOK_run M diff inputs (initialState diff)). constructor.
  - intros Ha. cbn [step]. apply onBoard_loop. exact Ha.
Qed.

(** Two frames into a session on normal, after one click, the arrow is on
    the board. *)
Lemma projectiles_stay_in_shape_witness :
  Forall (fun p => onBoard 800 600 p = true)
    (s_projectiles
       (step Eval.math (DIFFICULTY normal) idleFrame
          (run Eval.math (DIFFICULTY normal) [aimRight]
             (initialState (DIFFICULTY normal))))).
Proof.
  destruct (projectiles_stay_in_shape Eval.math (DIFFICULTY normal)
              [aimRight] 800 600 (500, 300)) as [_ Hb].
  apply Hb. reflexivity.
Defined.

(** ** Removal *)

(** X12.  [// Remove dead] removes exactly the enemies whose index is in
    [deadEnemies], however often and in whatever order the index was
    pushed, and keeps the others in their order; it removes exactly the
    projectiles whose index is in [deadProjectiles]. *)
Theorem dead_are_spliced_out (fr : Locals) :
  s_enemies (removeDead fr)
  = filterIndexFrom (fun i => negb (includes (fr_deadEnemies fr) i)) 0
      (s_enemies (fr_s fr))
  /\ s_projectiles (removeDead fr)
     = filterIndexFrom
         (fun i => negb (bool_decide (i ∈ fr_deadProjectiles fr))) 0
         (s_projectiles (fr_s fr)).
Proof.
  unfold removeDead. cbv zeta.
  cbn [s_enemies s_projectiles set_enemies set_projectiles].
  split; [|reflexivity].
  rewrite spliceAll_exact by apply NoDup_remove_dups.
  apply filterIndexFrom_ext. intros j _. f_equal.
  destruct (includes (fr_deadEnemies fr) j) eqn:E.
  - apply bool_decide_eq_true. apply (proj2 (elem_of_remove_dups _ _)).
    apply (proj1 (includes_elem_of _ _)). exact E.
  - apply bool_decide_eq_false. intros Hin.
    apply (proj1 (elem_of_remove_dups _ _)) in Hin.
    apply (proj2 (includes_elem_of _ _)) in Hin. congruence.
Qed.

(** ** The bomb *)

(** X13.  The bomb removes exactly the enemies less than 180 px from the
    pointer and keeps the others in their order; the score grows by the
    points of the removed enemies times the wave, and the kill counter by
    their number. *)
Theorem bomb_clears_its_radius (M : MathObj) (cx cy : Q) (s : GS) :
  let s' := spawnBombExplosion M cx cy s in
  let hit := List.filter (inBlast M cx cy) (s_enemies s) in
  s_enemies s'
  = List.filter (fun e => negb (inBlast M cx cy e)) (s_enemies s)
  /\ s_score s' = (s_score s + pointsOf hit * s_wave s)%Z
  /\ s_totalKills s' = (s_totalKills s + Z.of_nat (length hit))%Z.
Proof. apply spawnBombExplosion_exact. Qed.

(** ** The factory and the spawner *)

Lemma floor_of_unit (r : Q) (k : Z) :
  0 <= r -> r < 1 -> (0 < k)%Z ->
  (0 <= Qfloor (r * inject_Z k) < k)%Z.
Proof.
  intros H0 H1 Hk.
  assert (Hk' : 0 < inject_Z k)
    by (change 0 with (inject_Z 0); rewrite <- Zlt_Qlt; exact Hk).
  split.
  - change 0%Z with (Qfloor 0). apply Qfloor_resp_le.
    apply Qmult_le_0_compat; [exact H0 | apply Qlt_le_weak; exact Hk'].
  - rewrite Zlt_Qlt.
    apply Qle_lt_trans with (r * inject_Z k); [apply Qfloor_le|].
    apply Qlt_le_trans with (1 * inject_Z k);
      [apply Qmult_lt_compat_r; assumption|].
    rewrite Qmult_1_l. apply Qle_refl.
Qed.

Lemma Eval_unitRandom : unitRandom Eval.math.
Proof.
  intros n. cbn [random Eval.math]. unfold Eval.random.
  pose proof (Z.mod_pos_bound (Z.of_nat n * 7919 + 4001) 10007 eq_refl)
    as [Hlo Hhi].
  rewrite Qred_correct. unfold Qle, Qlt. cbn [Qnum Qden]. lia.
Qed.

(** X14.  [createEnemy], given random numbers in [0, 1) and a canvas of
    positive size, makes its four draws and returns an enemy of the given
    archetype at full health, not yet split and not flashing, with a
    teleport countdown below 180; without overrides the enemy stands on one
    of the four edges 60 px outside the canvas, and with an override it
    stands where the override says. *)
Theorem factory_places_on_the_frame (M : MathObj) (t : EnemyType)
    (W H : Q) (n : nat) :
  unitRandom M -> 0 < W -> 0 < H ->
  let e := fst (createEnemy M t W H None n) in
  onSpawnFrame W H e
  /\ snd (createEnemy M t W H None n) = (n + 4)%nat
  /\ statics e = staticsOf t /\ e_hp e = t_maxHp t
  /\ e_splitDone e = false /\ e_flashTimer e = 0%Z
  /\ 0 <= e_teleportTimer e /\ e_teleportTimer e < 180
  /\ (forall x y,
        let c := fst (createEnemy M t W H (Some (x, y)) n) in
        e_x c = x /\ e_y c = y /\ e_hp c = t_maxHp t
        /\ e_vx c = e_vx e /\ e_vy c = e_vy e).
Proof.
  intros HM HW HH.
  cbv beta delta [createEnemy]. cbv zeta.
  destruct (HM n) as [Hn0 Hn1].
  pose proof (floor_of_unit (random M n) 4 Hn0 Hn1 eq_refl) as Hside.
  change (inject_Z 4) with 4 in Hside.
  assert (Hx : forall k, 0 <= random M k * W /\ random M k * W < W).
  { intros k. destruct (HM k) as [H0 H1]. split.
    - apply Qmult_le_0_compat; [exact H0 | apply Qlt_le_weak; exact HW].
    - apply Qlt_le_trans with (1 * W);
        [apply Qmult_lt_compat_r; assumption|].
      rewrite Qmult_1_l. apply Qle_refl. }
  assert (Hy : forall k, 0 <= random M k * H /\ random M k * H < H).
  { intros k. destruct (HM k) as [H0 H1]. split.
    - apply Qmult_le_0_compat; [exact H0 | apply Qlt_le_weak; exact HH].
    - apply Qlt_le_trans with (1 * H);
        [apply Qmult_lt_compat_r; assumption|].
      rewrite Qmult_1_l. apply Qle_refl. }
  assert (Ht : forall k, 0 <= random M k * 180 /\ random M k * 180 < 180).
  { intros k. destruct (HM k) as [H0 H1]. split; lra. }
  destruct (Qfloor (random M n * 4)) as [|p|p]; [| |lia].
  - cbn [fst snd]. unfold onSpawnFrame. cbn.
    split; [left; split; [reflexivity | apply Hx]|].
    split; [lia|]. repeat split; try reflexivity; try apply Ht.
  - destruct p as [[p|p|]|[p|p|]|]; try lia;
      cbn [fst snd]; unfold onSpawnFrame; cbn.
    + split; [right; right; right; split; [reflexivity | apply Hy]|].
      split; [lia|]. repeat split; try reflexivity; try apply Ht.
    + split; [right; right; left; split; [reflexivity | apply Hx]|].
      split; [lia|]. repeat split; try reflexivity; try apply Ht.
    + split; [right; left; split; [reflexivity | apply Hy]|].
      split; [lia|]. repeat split; try reflexivity; try apply Ht.
Qed.

(** The first enemy the example [Math] object makes for an 800 x 600
    canvas. *)
Lemma factory_places_on_the_frame_witness :
  onSpawnFrame 800 600 (fst (createEnemy Eval.math scoutType 800 600 None 0)).
Proof.
  destruct (factory_places_on_the_frame Eval.math scoutType 800 600 0
              Eval_unitRandom eq_refl eq_refl) as (Hf & _).
  exact Hf.
Defined.

(** X15.  The spawner does nothing while the spawn timer is below
    [max(35, spawnRate - 6 * wave)].  Once the timer has reached it, given
    random numbers in [0, 1), the spawner resets the timer and appends
    exactly one enemy: an instance at full health of one of the first
    [min(wave + 1, 7)] archetypes of [ENEMY_TYPES], its speed scaled by
    [enemySpeedMult * (1 + 0.04 * wave)]. *)
Theorem spawner_brings_a_wave_archetype (M : MathObj) (diff : DiffCfg)
    (W H : Q) (s : GS) :
  unitRandom M -> (1 <= s_wave s)%Z ->
  let rate := Z.max 35 (spawnRate diff - s_wave s * 6) in
  let s' := spawnPhase M diff W H s in
  ((s_spawnTimer s < rate)%Z -> s' = s)
  /\ ((rate <= s_spawnTimer s)%Z ->
      s_spawnTimer s' = 0%Z
      /\ exists k t e,
           (k < Z.to_nat (Z.min (s_wave s + 1) 7))%nat
           /\ ENEMY_TYPES !! k = Some t
           /\ s_enemies s' = s_enemies s ++ [e]
           /\ statics e = staticsOf t /\ e_hp e = t_maxHp t
           /\ e_speed e
              = t_speed t
                * (enemySpeedMult diff * (1 + inject_Z (s_wave s) * 0.04))).
Proof.
  intros HM Hw rate s'. subst s'.
  cbv beta delta [spawnPhase]. cbv zeta. fold rate.
  destruct (Z.leb_spec rate (s_spawnTimer s)) as [Hdue|Hnot];
    (split; [intros Hlt; try reflexivity; lia | intros Hge; try lia]).
  proj_simpl.
  change (Z.of_nat (length ENEMY_TYPES)) with 7%Z.
  set (n := Z.to_nat (Z.min (s_wave s + 1) 7)).
  assert (Hn : (1 <= n <= 7)%nat) by (subst n; lia).
  assert (Hlen : length (take n ENEMY_TYPES) = n).
  { rewrite length_take. change (length ENEMY_TYPES) with 7%nat. lia. }
  rewrite Hlen.
  destruct (HM (s_rng s)) as [Hr0 Hr1].
  pose proof (floor_of_unit (random M (s_rng s)) (Z.of_nat n) Hr0 Hr1
                ltac:(lia)) as Hk.
  set (k := Qfloor (random M (s_rng s) * inject_Z (Z.of_nat n))) in *.
  destruct (take n ENEMY_TYPES !! Z.to_nat k) as [t|] eqn:Epool.
  - apply lookup_take_Some in Epool as (Epool & Hlt).
    pose proof (statics_createEnemy M t W H None (S (s_rng s))) as Hst.
    pose proof (health_createEnemy M t W H None (S (s_rng s))) as Hh.
    destruct (createEnemy M t W H None (S (s_rng s))) as [e n'] eqn:Ece.
    cbn [fst] in Hst, Hh. proj_simpl.
    split; [reflexivity|].
    eexists (Z.to_nat k), t, _. split; [exact Hlt|].
    split; [exact Epool|]. split; [reflexivity|].
    unfold health in Hh. injection Hh as Hhp _.
    split; [exact Hst|]. split; [exact Hhp|].
    cbn [e_speed eset_speed eset_vx eset_vy].
    replace (e_speed e) with (t_speed t); [reflexivity|].
    pose proof (f_equal fst Ece) as Ee. cbn [fst] in Ee. rewrite <- Ee.
    cbv beta delta [createEnemy]. cbv zeta.
    destruct (Qfloor (random M (S (s_rng s)) * 4)) as [|p|p];
      [reflexivity | | reflexivity].
    destruct p as [[p|p|]|[p|p|]|]; reflexivity.
  - exfalso. apply lookup_ge_None in Epool. rewrite Hlen in Epool. lia.
Qed.

(** On normal, in wave 1, the spawner acts when the timer shows 104. *)
Lemma spawner_brings_a_wave_archetype_witness :
  s_spawnTimer (spawnPhase Eval.math (DIFFICULTY normal) 800 600 spawnDue)
  = 0%Z.
Proof.
  destruct (spawner_brings_a_wave_archetype Eval.math (DIFFICULTY normal)
              800 600 spawnDue Eval_unitRandom ltac:(vm_compute; discriminate))
    as [_ Hdue].
  destruct Hdue as [E _]; [vm_compute; discriminate | exact E].
Defined.

(** ** The leaderboard *)

Lemma insertBefore_Permutation {A} (cmp : A -> A -> Z) (x : A) (l : list A) :
  Index.insertBefore cmp x l ≡ₚ x :: l.
Proof.
  induction l as [|y r IH]; cbn; [reflexivity|].
  destruct (cmp x y <=? 0)%Z; [reflexivity|].
  rewrite IH. apply Permutation_swap.
Qed.

Lemma sort_Permutation {A} (cmp : A -> A -> Z) (l : list A) :
  Index.sort cmp l ≡ₚ l.
Proof.
  induction l as [|x l IH]; cbn; [reflexivity|].
  rewrite insertBefore_Permutation. fold (Index.sort cmp l). rewrite IH.
  reflexivity.
Qed.

Lemma insertBefore_ranked (x : Index.LeaderEntry) l :
  Index.ranked l -> Index.ranked (Index.insertBefore Index.byScore x l).
Proof.
  unfold Index.ranked. induction 1 as [|y r Hr IH Hy]; cbn.
  - repeat constructor.
  - unfold Index.byScore at 1. destruct (Z.leb_spec (Index.score y - Index.score x) 0).
    + constructor; [constructor; assumption|].
      constructor; [lia|]. eapply Forall_impl; [exact Hy|].
      cbn. intros; lia.
    + constructor; [exact IH|].
      rewrite insertBefore_Permutation. constructor; [lia | exact Hy].
Qed.

Lemma sort_ranked l : Index.ranked (Index.sort Index.byScore l).
Proof.
  induction l as [|x l IH]; cbn; [constructor|].
  apply insertBefore_ranked. exact IH.
Qed.

Lemma ranked_take n l : Index.ranked l -> Index.ranked (take n l).
Proof.
  unfold Index.ranked. intros Hl. rewrite <- (take_drop n l) in Hl.
  apply StronglySorted_app_1_l in Hl. exact Hl.
Qed.

Lemma insertBefore_insertBehind (a x : Index.LeaderEntry) l :
  Index.insertBefore Index.byScore a (Index.insertBehind x l)
  = Index.insertBehind x (Index.insertBefore Index.byScore a l).
Proof.
  induction l as [|y r IH]; cbn; unfold Index.byScore in *.
  - destruct (Z.leb_spec (Index.score x - Index.score a) 0),
      (Z.ltb_spec (Index.score a) (Index.score x)); (reflexivity || lia).
  - destruct (Z.ltb_spec (Index.score y) (Index.score x)) as [Hyx|Hyx],
      (Z.leb_spec (Index.score y - Index.score a) 0) as [Hya|Hya]; cbn;
      unfold Index.byScore;
      repeat match goal with
             | |- context [(?u <=? ?v)%Z] => destruct (Z.leb_spec u v)
             | |- context [(?u <? ?v)%Z] => destruct (Z.ltb_spec u v)
             end; try reflexivity; try lia.
    rewrite IH. reflexivity.
Qed.

Lemma sort_snoc (x : Index.LeaderEntry) l :
  Index.sort Index.byScore (l ++ [x])
  = Index.insertBehind x (Index.sort Index.byScore l).
Proof.
  induction l as [|a l IH]; cbn; [reflexivity|].
  fold (Index.sort Index.byScore (l ++ [x])).
  fold (Index.sort Index.byScore l).
  rewrite IH. apply insertBefore_insertBehind.
Qed.

Lemma sort_ranked_id l :
  Index.ranked l -> Index.sort Index.byScore l = l.
Proof.
  unfold Index.ranked. induction 1 as [|y r Hr IH Hy]; cbn; [reflexivity|].
  fold (Index.sort Index.byScore r). rewrite IH.
  destruct Hy as [|z r' Hz _]; cbn; [reflexivity|].
  unfold Index.byScore. destruct (Z.leb_spec (Index.score z - Index.score y) 0);
    [reflexivity | lia].
Qed.

Lemma atLeast_none v l :
  Forall (fun e => (Index.score e < v)%Z) l -> Index.atLeast v l = 0%nat.
Proof.
  unfold Index.atLeast. induction 1 as [|y r Hy _ IH]; cbn; [reflexivity|].
  destruct (Z.leb_spec v (Index.score y)); [lia | exact IH].
Qed.

Lemma insertBehind_ranked (x : Index.LeaderEntry) l :
  Index.ranked l ->
  let c := Index.atLeast (Index.score x) l in
  Index.insertBehind x l = take c l ++ x :: drop c l.
Proof.
  unfold Index.ranked. induction 1 as [|y r Hr IH Hy]; [reflexivity|].
  cbv zeta in *. cbn [Index.insertBehind].
  destruct (Z.ltb_spec (Index.score y) (Index.score x)) as [Hyx|Hyx].
  - rewrite atLeast_none; [reflexivity|].
    constructor; [exact Hyx|]. eapply Forall_impl; [exact Hy|].
    cbn. intros; lia.
  - rewrite IH. unfold Index.atLeast. cbn [List.filter].
    destruct (Z.leb_spec (Index.score x) (Index.score y)); [|lia].
    reflexivity.
Qed.

Lemma atLeast_le v l : (Index.atLeast v l <= length l)%nat.
Proof.
  unfold Index.atLeast. induction l as [|y r IH]; cbn; [lia|].
  destruct (v <=? Index.score y)%Z; cbn; lia.
Qed.

Lemma saveScore_board (h : Index.Host) (a : Index.App) :
  Index.a_leaderboard (Index.saveScore h a)
  = take 10 (Index.sort Index.byScore
               (Index.a_leaderboard a ++ [Index.newEntry h a])).
Proof. reflexivity. Qed.

Lemma loadSaved_board (a : Index.App) :
  Index.neon_archer_lb a = Some (Index.a_leaderboard a) ->
  Index.a_leaderboard (Index.loadSaved a) = Index.a_leaderboard a.
Proof.
  intros E. unfold Index.loadSaved. rewrite E. cbn.
  destruct (Index.neon_archer_name a) as [[|c n]|]; reflexivity.
Qed.

(** X16.  Whatever the board held, after [saveScore] it is ranked by score,
    highest first, and has one entry more than before but never more than
    ten; every entry on it is the new one or was on the board; and the
    board written to [localStorage] is the board shown. *)
Theorem saved_board_is_ranked_top_ten (h : Index.Host) (a : Index.App) :
  let a' := Index.saveScore h a in
  Index.ranked (Index.a_leaderboard a')
  /\ length (Index.a_leaderboard a')
     = Nat.min 10 (S (length (Index.a_leaderboard a)))
  /\ (forall e, e ∈ Index.a_leaderboard a' ->
                e = Index.newEntry h a \/ e ∈ Index.a_leaderboard a)
  /\ Index.neon_archer_lb a' = Some (Index.a_leaderboard a')
  /\ Index.a_leaderboard (Index.loadSaved a') = Index.a_leaderboard a'.
Proof.
  cbv zeta.
  assert (Hst : Index.neon_archer_lb (Index.saveScore h a)
                = Some (Index.a_leaderboard (Index.saveScore h a)))
    by reflexivity.
  rewrite (loadSaved_board _ Hst), Hst. rewrite saveScore_board.
  split; [apply ranked_take, sort_ranked|].
  split.
  { rewrite length_take, sort_Permutation, length_app. cbn [length]. lia. }
  split.
  { intros e He. apply elem_of_take in He as (i & He & _).
    apply list_elem_of_lookup_2 in He.
    rewrite sort_Permutation in He.
    apply elem_of_app in He as [He|He]; [right; exact He|].
    left. apply list_elem_of_singleton in He. exact He. }
  split; reflexivity.
Qed.

(** X17.  On a ranked board [saveScore] puts the new entry right behind the
    entries that score as much or more, keeps all others in their order and
    cuts the result to ten.  So the new entry takes the place [c] if [c],
    the number of entries scoring at least as much, is below ten; otherwise
    the board keeps its first ten entries, and a score that only ties the
    tenth place is not listed. *)
Theorem new_entry_goes_behind_its_ties (h : Index.Host) (a : Index.App) :
  Index.ranked (Index.a_leaderboard a) ->
  let board := Index.a_leaderboard a in
  let board' := Index.a_leaderboard (Index.saveScore h a) in
  let c := Index.atLeast (Index.a_lastScore a) board in
  board' = take 10 (take c board ++ Index.newEntry h a :: drop c board)
  /\ ((c < 10)%nat -> board' !! c = Some (Index.newEntry h a))
  /\ ((10 <= c)%nat -> board' = take 10 board).
Proof.
  intros Hr board board' c.
  assert (E : board'
              = take 10 (take c board ++ Index.newEntry h a :: drop c board)).
  { subst board'. rewrite saveScore_board. fold board.
    rewrite sort_snoc, (sort_ranked_id board Hr).
    rewrite (insertBehind_ranked _ _ Hr). reflexivity. }
  pose proof (atLeast_le (Index.a_lastScore a) board) as Hc. fold c in Hc.
  split; [exact E|]. split.
  - intros Hlt. rewrite E. rewrite lookup_take_lt by exact Hlt.
    rewrite lookup_app_r by (rewrite length_take; lia).
    rewrite length_take. replace (c - c `min` length board)%nat with 0%nat by lia.
    reflexivity.
  - intros Hge. rewrite E. rewrite take_app_le by (rewrite length_take; lia).
    rewrite take_take. f_equal. lia.
Qed.

(** A score of 500 goes behind the leader's 500. *)
Lemma new_entry_goes_behind_its_ties_witness :
  Index.a_leaderboard (Index.saveScore EvalIndex.host tiedScore) !! 1%nat
  = Some (Index.mkEntry [66; 79]%N 500 3 (Index.today EvalIndex.host)).
Proof.
  refine (proj1 (proj2 (new_entry_goes_behind_its_ties EvalIndex.host
                          tiedScore _)) _).
  - repeat constructor; cbn; lia.
  - vm_compute. lia.
Defined.


(** X19.  Once the player is dead nothing changes any more: whatever frames
    and clicks follow, the state stays as the fatal frame left it, so no
    score is gained, no enemy moves and [onGameOver] is not called again. *)
Theorem nothing_changes_after_game_over (M : MathObj) (diff : DiffCfg)
    (inputs : list Input) (s : GS) :
  s_alive s = false -> run M diff inputs s = s.
Proof.
  intros Ha. induction inputs as [|i inputs IH]; [reflexivity|].
  cbn [run foldl]. fold (run M diff inputs (step M diff i s)).
  assert (E : step M diff i s = s).
  { destruct i as [W H mouse|canvas mouse]; cbn [step].
    - cbv beta delta [loop]. rewrite Ha. reflexivity.
    - cbv beta delta [shoot]. rewrite Ha. reflexivity. }
  rewrite E. exact IH.
Qed.

(** After the frame in which two scouts reach a player with 0.04 health, a
    further frame and a click leave the state alone. *)
Lemma nothing_changes_after_game_over_witness :
  run Eval.math (DIFFICULTY normal)
    [Frame 800 600 (0, 0); Click (Some (800, 600)) (500, 300)]
    afterFatalFrame
  = afterFatalFrame.
Proof.
  apply (nothing_changes_after_game_over Eval.math (DIFFICULTY normal)).
  vm_compute. reflexivity.
Defined.

(** X20.  The enemies' health in the current revision, for every session
    and every frame.  Between two events every enemy has between 1 and its
    maximum of health points.  The timer steps leave the enemies as they
    are and may append one at full health, and the enemy update keeps every
    enemy in its place with its health.  After the projectile hits, an
    enemy that the enemy update has not marked is where it was and has
    lost exactly one health point for each projectile that touches it,
    until none is left: its health is [max(0, health - hits)].  Every enemy
    then has between 0 and its maximum, and one with none left is in
    [deadEnemies]; [// Remove dead] leaves only enemies with at least one
    health point, and the rest of the frame leaves those alone.  A click
    leaves the enemies alone or, with the bomb, removes those within 180 px
    of the pointer. *)
Theorem enemy_health_counts_hits (M : MathObj) (diff : DiffCfg)
    (inputs : list Input) (W H : Q) (mouse : Q * Q) :
  let s := run M diff inputs (initialState diff) in
  let s1 := timerPhases M diff W H s in
  let st := enemyPhase M diff W H s1 in
  let fr := projectilePhase M W H (mkLocals (fst st) (snd st) ∅) in
  Forall healthy (s_enemies s)
  /\ (exists born,
        s_enemies s1 = s_enemies s ++ born
        /\ Forall (fun e => e_hp e = e_maxHp e) born)
  /\ (forall i e, s_enemies s1 !! i = Some e ->
        exists e1, s_enemies (fst st) !! i = Some e1
                   /\ e_hp e1 = e_hp e /\ e_maxHp e1 = e_maxHp e)
  /\ (forall i e, s_enemies (fst st) !! i = Some e ->
        struck (snd st) fr i e (hitsOn M (s_projectiles (fst st)) e))
  /\ marked fr
  /\ Forall healthy (s_enemies (removeDead fr))
  /\ (s_alive s = true ->
      s_enemies (step M diff (Frame W H mouse) s)
      = s_enemies (removeDead fr))
  /\ (forall canvas,
        s_enemies (step M diff (Click canvas mouse) s) = s_enemies s
        \/ s_enemies (step M diff (Click canvas mouse) s)
           = List.filter
               (fun e => negb (inBlast M (fst mouse) (snd mouse) e))
               (s_enemies s)).
Proof.
  cbv zeta.
  pose proof (healthy_run M diff inputs _ (healthy_initialState diff)) as Hs.
  pose proof (healthy_timerPhases M diff W H _ Hs) as Hs1.
  pose proof (healthy_enemyPhase M diff W H _ Hs1) as Hs2.
  pose proof (marked_hits M diff W H _ Hs1) as Hfr.
  split; [exact Hs|].
  split; [apply enemies_timerPhases|].
  split.
  { intros i e Hi.
    destruct (health_enemyPhase M diff W H _ i e Hi) as (e1 & He1 & Hh).
    exists e1. unfold health in Hh. injection Hh as Hhp Hmax.
    split; [exact He1|]. split; assumption. }
  split.
  { intros i e Hi.
    destruct (enemyPhase M diff W H
                (timerPhases M diff W H
                   (run M diff inputs (initialState diff))))
      as [s2 dead].
    cbn [fst snd] in *. apply struck_projectilePhase; assumption. }
  split; [exact Hfr|].
  split; [exact (healthy_removeDead _ Hfr)|].
  split.
  { intros Ha. cbn [step]. unfold loop. rewrite Ha. cbn [negb].
    apply enemies_entityPhases. }
  intros canvas. cbn [step]. apply enemies_shoot.
Qed.
